(** * Users, advertisements and tokens: the aiohttp service of [main.py]

    A shallow embedding of [src/main.py] and [src/models.py], and the
    properties of the request handlers proved on it.

    - Python [str] values are sequences of code points ([str]), so that
      [len] is the character count.
    - The relational store is a record of three tables keyed by primary
      key, with the constraints that [models.py] declares, and of the two
      sequences of ids, which no rollback takes back.
    - A handler is a computation over the store that either raises or
      returns the data of its JSON response; the rest of the world (other
      requests, the connection, the place of the rows in their table) acts
      at every database round trip.
    - pydantic is modelled as its version 1 ([validator], [dict],
      [Optional] fields defaulting to [None]).

    Outside the model: the text of the f-strings (a response carries the
    values that they interpolate), the value of a bcrypt hash (kept
    symbolic), and the refusal by the driver of a key that is no int4 when
    a row is looked up (the tables are keyed by unbounded integers, and an
    id that a statement has answered with a 404 is an int4, or was that of
    a row). *)

From stdpp Require Import base option list strings gmap sorting pretty.

Local Open Scope Z_scope.
Local Set Warnings "-register-all".

(** ** Text *)

(** A Python [str]: one element per character (Unicode code point). *)
Definition str : Type := list N.

(** A literal of the source, character by character. *)
Definition py (s : string) : str :=
  Ascii.N_of_ascii <$> String.list_ascii_of_string s.

(** [len(value)] *)
Definition len (value : str) : nat := length value.

(** [str(n)] for a Python [int]. *)
Definition str_int (n : Z) : str := py (pretty n).

(** The code points that are surrogates: UTF-8 has no encoding for them. *)
Definition surrogate (c : N) : bool := bool_decide (55296 ≤ c ≤ 57343)%N.

(** What a text column can hold: PostgreSQL text has no NUL character, and
    the text goes to the server in UTF-8. *)
Definition storable (value : str) : bool :=
  forallb (λ c, negb (bool_decide (c = 0%N)) && negb (surrogate c)) value.

(** The number of bytes of [value.encode()]: UTF-8. *)
Definition utf8_size (c : N) : nat :=
  if (c <? 128)%N then 1%nat
  else if (c <? 2048)%N then 2%nat
  else if (c <? 65536)%N then 3%nat
  else 4%nat.

Definition utf8_len (value : str) : nat := sum_list (utf8_size <$> value).

(** What a [String(100)] column stores of a value: the value itself; its
    first 100 characters when the characters that follow are all spaces;
    and nothing, the statement failing, when they are not. *)
Definition String_100 (value : str) : option str :=
  if forallb (λ c, bool_decide (c = 32%N)) (drop 100 value)
  then Some (take 100 value)
  else None.

(** [prefix in value] at position 0, and the substring test [sub in value]. *)
Fixpoint startswith (value sub : str) : bool :=
  match sub, value with
  | [], _ => true
  | _ :: _, [] => false
  | c :: sub', d :: value' => bool_decide (c = d) && startswith value' sub'
  end.

Fixpoint contains (value sub : str) : bool :=
  startswith value sub ||
  match value with
  | [] => false
  | _ :: value' => contains value' sub
  end.

(** ** JSON values, as [json.loads] builds them *)

Inductive json : Type :=
| JNull
| JBool (b : bool)
| JInt (n : Z)
| JFloat (shown : str)   (* a float, kept as the text [str()] gives for it *)
| JStr (s : str)
| JArr (items : list json)
| JObj (members : list (str * json)).

(** A [dict] with [str] keys, in insertion order. *)
Definition dict (V : Type) : Type := list (str * V).

Fixpoint dict_get {V} (key : str) (d : dict V) : option V :=
  match d with
  | [] => None
  | (k, v) :: d' => if decide (k = key) then Some v else dict_get key d'
  end.

(** ** Exceptions *)

(** The texts of the [{'ERROR': ...}] bodies of [main.py]. *)
Inductive message : Type :=
| item_doesnt_exist                     (* 'item doesn`t exist' *)
| owner_only                            (* 'Действие разрешено только владельцу' *)
| too_short (attribute : str) (min_value : nat)
                                        (* f'{attribute} is too short, min_lenght = {min_value}' *)
| incorrect_input_data                  (* 'incorrect input_data!' *)
| user_already_exists                   (* 'user is already exists' *)
| user_doesnt_exist (user_id : json)    (* f'user {input_data["user_id"]} doesn`t exist' *)
| owner_change_impossible.              (* 'Смена владельца объявления невозможна' *)

Inductive exn : Type :=
| HTTPBadRequest (text : message)
| HTTPNotFound (text : message)
| HTTPUnauthorized (text : message)
| ValidationError                       (* pydantic.ValidationError *)
| IntegrityError                        (* sqlalchemy.exc.IntegrityError *)
| DBAPIError                            (* any other failure of a database round trip *)
| JSONDecodeError
| UnicodeEncodeError
| KeyError (key : str)
| TypeError
| ValueError.

(** [value.encode()]; the bytes are kept as the text that they encode. *)
Definition encode (value : str) : exn + str :=
  if existsb surrogate value then inl UnicodeEncodeError else inr value.

(** ** Validation ([main.py], lines 78-146) *)

(** [check_len(value, attribute, min_value)] *)
Definition check_len (value attribute : str) (min_value : nat) : exn + unit :=
  if (len value <? min_value)%nat
  then inl (HTTPBadRequest (too_short attribute min_value))
  else inr tt.

(** A field of a [pydantic.BaseModel]: every field of [main.py] is a [str],
    [Optional] or not, with at most one [@pydantic.validator]. *)
Record ModelField : Type := {
  name : str;
  required : bool;
  class_validator : option (str → exn + str)
}.

Definition validate_password (value : str) : exn + str :=
  match check_len value (py "password") 5 with
  | inl e => inl e
  | inr _ => inr value
  end.

Definition validate_title (value : str) : exn + str :=
  match check_len value (py "title") 8 with
  | inl e => inl e
  | inr _ => inr value
  end.

Definition validate_description (value : str) : exn + str :=
  match check_len value (py "description") 5 with
  | inl e => inl e
  | inr _ => inr value
  end.

Definition CreateUser : list ModelField :=
  [ {| name := py "email"; required := true; class_validator := None |};
    {| name := py "password"; required := true;
       class_validator := Some validate_password |} ].

Definition CreateAdvertisement : list ModelField :=
  [ {| name := py "title"; required := true;
       class_validator := Some validate_title |};
    {| name := py "description"; required := true;
       class_validator := Some validate_description |} ].

Definition UpdateAdvertisement : list ModelField :=
  [ {| name := py "title"; required := false;
       class_validator := Some validate_title |};
    {| name := py "description"; required := false;
       class_validator := Some validate_description |} ].

(** pydantic's validator of a [str] field: a [str] is kept, numbers (and
    [bool], a subclass of [int]) are turned into their [str()], anything else
    is a type error of the field. *)
Definition str_validator (v : json) : option str :=
  match v with
  | JStr s => Some s
  | JInt n => Some (str_int n)
  | JBool true => Some (py "True")
  | JBool false => Some (py "False")
  | JFloat shown => Some shown
  | JNull | JArr _ | JObj _ => None
  end.

(** The outcome of validating one field: its value ([None] for an [Optional]
    field left out), an error recorded for the final [ValidationError], or an
    exception that pydantic does not catch. A member that is [null] is not
    a member left out: a required field refuses it, and an [Optional] one
    gives the [None] to its validator, where [len(None)] in [check_len]
    raises a [TypeError], which pydantic records as an error of the field. *)
Inductive field_outcome : Type :=
| Value (v : option str)
| FieldError
| Escapes (e : exn).

Definition validate_field (f : ModelField) (data : dict json) : field_outcome :=
  match dict_get (name f) data with
  | None => if required f then FieldError else Value None
  | Some JNull =>
      if required f then FieldError
      else match class_validator f with
           | None => Value None
           | Some _ => FieldError
           end
  | Some v =>
      match str_validator v with
      | None => FieldError
      | Some s =>
          match class_validator f with
          | None => Value (Some s)
          | Some validator =>
              match validator s with
              | inr s' => Value (Some s')
              | inl TypeError => FieldError
              | inl e => Escapes e
              end
          end
      end
  end.

(** The constructor call [validation_model( **data )]: the fields are validated in the order of
    their declaration; errors are collected, an exception that is not a
    field error leaves at once. The result pairs the values with the flag
    that some field failed. *)
Fixpoint validate_model (fields : list ModelField) (data : dict json)
  : exn + (dict (option str) * bool) :=
  match fields with
  | [] => inr ([], false)
  | f :: fields' =>
      match validate_field f data with
      | Escapes e => inl e
      | FieldError =>
          match validate_model fields' data with
          | inl e => inl e
          | inr (values, _) => inr (values, true)
          end
      | Value v =>
          match validate_model fields' data with
          | inl e => inl e
          | inr (values, errors) => inr ((name f, v) :: values, errors)
          end
      end
  end.

(** [validation_model( **input_data )] on whatever the body parsed to: the
    double star needs a mapping, and passes its members as keyword
    arguments to [BaseModel.__init__(__pydantic_self__, **data)]: a member
    named as the first parameter is a second value for it, a [TypeError]
    of the call. *)
Definition BaseModel_init (validation_model : list ModelField) (input_data : json)
  : exn + dict (option str) :=
  match input_data with
  | JObj data =>
      if bool_decide (is_Some (dict_get (py "__pydantic_self__") data))
      then inl TypeError
      else
        match validate_model validation_model data with
        | inl e => inl e
        | inr (_, true) => inl ValidationError
        | inr (values, false) => inr values
        end
  | _ => inl TypeError
  end.

(** [model_item.dict(exclude_none=True)] *)
Definition dict_exclude_none (model_item : dict (option str)) : dict str :=
  omap (λ kv, match kv.2 with Some v => Some (kv.1, v) | None => None end) model_item.

(** [validate(input_data, validation_model)] *)
Definition validate (input_data : json) (validation_model : list ModelField)
  : exn + dict str :=
  match BaseModel_init validation_model input_data with
  | inr model_item => inr (dict_exclude_none model_item)
  | inl ValidationError => inl (HTTPBadRequest incorrect_input_data)
  | inl e => inl e
  end.

(** ** The tables ([models.py]) *)

(** A [DateTime] value, as a number of ticks of the server's clock. *)
Definition datetime : Type := Z.

(** A [uuid.UUID], as its 128-bit integer. *)
Definition uuid : Type := N.

(** What [hashpw(password, salt).decode()] returns: the hash is kept
    symbolic, as the pair of arguments that determines it. *)
Inductive bcrypt : Type :=
| hashpw (password salt : str).

(** A password that every version of bcrypt hashes: 72 bytes at most, none
    of them NUL. *)
Definition hashable (password : str) : bool :=
  (utf8_len password <=? 72)%nat &&
  forallb (λ c, negb (bool_decide (c = 0%N))) password.

(** The call [hashpw(password, salt)]. Version 5 of bcrypt raises a
    [ValueError] on a password of more than 72 bytes (the versions before
    it hash the first 72), as the versions before 4 do on a NUL. [src/]
    pins no version, and the call is taken to raise whenever that of some
    version does. *)
Definition bcrypt_hashpw (password salt : str) : exn + bcrypt :=
  if hashable password then inr (hashpw password salt) else inl ValueError.

(** Each mapped class is given as the columns of a row other than the
    primary key, under which the table holds the row, and as the loaded
    object [t] that carries the key too. *)

Module Advertisement.
Record columns : Type := {
  title : str;
  description : str;
  created_at : datetime;
  user_id : option Z
}.

Record t : Type := {
  id : Z;
  values : columns
}.

(** [__repr__]: [f'<{self.title}>'] *)
Definition repr (self : t) : str := py "<" ++ title (values self) ++ py ">".
End Advertisement.

#[global] Coercion Advertisement.values : Advertisement.t >-> Advertisement.columns.

Module Token.
Record columns : Type := {
  created_at : datetime;
  user_id : option Z
}.

Record t : Type := {
  id : uuid;
  values : columns
}.
End Token.

#[global] Coercion Token.values : Token.t >-> Token.columns.

Module User.
Record columns : Type := {
  email : str;
  password : bcrypt;
  created_at : datetime
}.

(** A loaded [User] also has, [advs] being [lazy='joined'], the
    advertisements that reference it. *)
Record t : Type := {
  id : Z;
  values : columns;
  advs : list Advertisement.t
}.

(** [__repr__]: [f'<user {self.id}>'] *)
Definition repr (self : t) : str := py "<user " ++ str_int (id self) ++ py ">".
End User.

#[global] Coercion User.values : User.t >-> User.columns.

(** [str(l)] of a list, given the [repr] of its elements. *)
Fixpoint join (sep : str) (parts : list str) : str :=
  match parts with
  | [] => []
  | [p] => p
  | p :: parts' => p ++ sep ++ join sep parts'
  end.

Definition str_list {A} (repr : A → str) (l : list A) : str :=
  py "[" ++ join (py ", ") (repr <$> l) ++ py "]".

(** The database: the three tables, the two id sequences and the clock that
    gives [func.now()]. *)
Record DB : Type := {
  users : gmap Z User.columns;
  advertisements : gmap Z Advertisement.columns;
  tokens : gmap uuid Token.columns;
  users_id_seq : Z;
  advertisements_id_seq : Z;
  now : datetime
}.

Definition empty_DB : DB :=
  {| users := ∅; advertisements := ∅; tokens := ∅;
     users_id_seq := 0; advertisements_id_seq := 0; now := 0 |}.

(** The order of the rows of a result is the database's choice: that of
    their places in the table, [heap] giving the place of the row of each
    id. *)
Definition placed (heap : Z → Z) (a b : Advertisement.t) : Prop :=
  heap (Advertisement.id a) ≤ heap (Advertisement.id b).

#[global] Instance placed_dec heap a b : Decision (placed heap a b).
Proof. unfold placed. apply _. Defined.

(** The advertisements of a user, as the join returns them. *)
Definition advs_of (heap : Z → Z) (d : DB) (user_id : Z) : list Advertisement.t :=
  merge_sort (placed heap)
    ((λ kv, {| Advertisement.id := kv.1; Advertisement.values := kv.2 |}) <$>
     map_to_list (filter (λ kv, Advertisement.user_id kv.2 = Some user_id)
                         (advertisements d))).

(** The foreign key [ForeignKey(User.id)] of a nullable [user_id]. *)
Definition references_user (user_id : option Z) (d : DB) : bool :=
  match user_id with
  | None => true
  | Some i => bool_decide (is_Some (users d !! i))
  end.

(** *** Statements, as functions on the database

    Each gives its outcome and the database that it leaves. A statement
    that fails is rolled back: the tables are as before. A sequence is not
    rolled back: the id that an INSERT has drawn before failing is burnt. *)

(** The largest [Integer]. *)
Definition INT_MAX : Z := 2147483647.

(** [nextval('users_id_seq')] and [nextval('advertisements_id_seq')], which
    fail once the sequence has reached [INT_MAX]. *)
Definition nextval_users (d : DB) : DB :=
  {| users := users d;
     advertisements := advertisements d;
     tokens := tokens d;
     users_id_seq := users_id_seq d + 1;
     advertisements_id_seq := advertisements_id_seq d;
     now := now d |}.

Definition nextval_advertisements (d : DB) : DB :=
  {| users := users d;
     advertisements := advertisements d;
     tokens := tokens d;
     users_id_seq := users_id_seq d;
     advertisements_id_seq := advertisements_id_seq d + 1;
     now := now d |}.

(** [INSERT INTO users]: [email] and [password] are [nullable=False],
    [email] is [unique]; the result is the new [id]. A text that cannot be
    sent is refused before the id is drawn. (The hash, in [password], is a
    text of ASCII characters.) *)
Definition insert_user (email : option str) (password : option bcrypt) (d : DB)
  : (exn + Z) * DB :=
  let id := users_id_seq d + 1 in
  match email, password with
  | Some email, Some password =>
      if negb (storable email) then (inl DBAPIError, d)
      else if bool_decide (INT_MAX < id) then (inl DBAPIError, d)
      else if bool_decide (is_Some (users d !! id))
      then (inl IntegrityError, nextval_users d)
      else if bool_decide (map_Exists (λ _ u, User.email u = email) (users d))
      then (inl IntegrityError, nextval_users d)
      else (inr id,
            {| users := <[id := {| User.email := email;
                                   User.password := password;
                                   User.created_at := now d |}]> (users d);
               advertisements := advertisements d;
               tokens := tokens d;
               users_id_seq := id;
               advertisements_id_seq := advertisements_id_seq d;
               now := now d |})
  | _, _ =>
      if bool_decide (INT_MAX < id) then (inl DBAPIError, d)
      else (inl IntegrityError, nextval_users d)
  end.

(** [INSERT INTO tokens], the id being the [uuid.uuid4()] drawn for it. *)
Definition insert_token (id : uuid) (user_id : option Z) (d : DB)
  : (exn + uuid) * DB :=
  if bool_decide (is_Some (tokens d !! id)) then (inl IntegrityError, d)
  else if negb (references_user user_id d) then (inl IntegrityError, d)
  else (inr id,
        {| users := users d;
           advertisements := advertisements d;
           tokens := <[id := {| Token.created_at := now d;
                                Token.user_id := user_id |}]> (tokens d);
           users_id_seq := users_id_seq d;
           advertisements_id_seq := advertisements_id_seq d;
           now := now d |}).

(** [INSERT INTO advertisements]: [title] is a [String(100)]; [title] and
    [description] are [nullable=False]. The result is the new object, which
    has the [title] that it was given, whatever the column has stored of
    it. A text that cannot be sent, or a title that does not fit, is
    refused before the id is drawn (the title when the statement is
    planned with its parameters; no property below depends on that). *)
Definition insert_advertisement (title description : option str) (user_id : option Z)
    (d : DB) : (exn + Advertisement.t) * DB :=
  let id := advertisements_id_seq d + 1 in
  match title, description with
  | Some title, Some description =>
      if negb (storable title && storable description) then (inl DBAPIError, d)
      else
        match String_100 title with
        | None => (inl DBAPIError, d)
        | Some stored =>
            if bool_decide (INT_MAX < id) then (inl DBAPIError, d)
            else if bool_decide (is_Some (advertisements d !! id))
            then (inl IntegrityError, nextval_advertisements d)
            else if negb (references_user user_id d)
            then (inl IntegrityError, nextval_advertisements d)
            else
              (inr {| Advertisement.id := id;
                      Advertisement.values :=
                        {| Advertisement.title := title;
                           Advertisement.description := description;
                           Advertisement.created_at := now d;
                           Advertisement.user_id := user_id |} |},
               {| users := users d;
                  advertisements :=
                    <[id := {| Advertisement.title := stored;
                               Advertisement.description := description;
                               Advertisement.created_at := now d;
                               Advertisement.user_id := user_id |}]>
                      (advertisements d);
                  tokens := tokens d;
                  users_id_seq := users_id_seq d;
                  advertisements_id_seq := id;
                  now := now d |})
        end
  | _, _ =>
      if bool_decide (INT_MAX < id) then (inl DBAPIError, d)
      else (inl IntegrityError, nextval_advertisements d)
  end.

(** A column of an advertisement set to a value: the two columns that
    validation can name; any other name is a plain Python attribute, which
    no statement writes. *)
Definition set_column (row : Advertisement.columns) (field value : str)
  : Advertisement.columns :=
  if decide (field = py "title") then
    {| Advertisement.title := value;
       Advertisement.description := Advertisement.description row;
       Advertisement.created_at := Advertisement.created_at row;
       Advertisement.user_id := Advertisement.user_id row |}
  else if decide (field = py "description") then
    {| Advertisement.title := Advertisement.title row;
       Advertisement.description := value;
       Advertisement.created_at := Advertisement.created_at row;
       Advertisement.user_id := Advertisement.user_id row |}
  else row.

(** [setattr(adv, field, value)] *)
Definition setattr (adv : Advertisement.t) (field value : str) : Advertisement.t :=
  {| Advertisement.id := Advertisement.id adv;
     Advertisement.values := set_column adv field value |}.

(** The columns of [current] that differ from the values [loaded]: what the
    session writes back. *)
Definition dirty (loaded current : Advertisement.t) : dict str :=
  (if decide (Advertisement.title current = Advertisement.title loaded) then []
   else [(py "title", Advertisement.title current)]) ++
  (if decide (Advertisement.description current = Advertisement.description loaded)
   then [] else [(py "description", Advertisement.description current)]).

(** What the column [field] stores of a value. *)
Definition column_value (field value : str) : option str :=
  if decide (field = py "title") then String_100 value else Some value.

(** [UPDATE advertisements SET ... WHERE id = ...] for the dirty columns; no
    statement when nothing is dirty; a failure when the row is gone, or a
    new value cannot be sent, or the new [title] does not fit its
    [String(100)]. *)
Definition update_advertisement (loaded current : Advertisement.t) (d : DB)
  : (exn + unit) * DB :=
  match dirty loaded current with
  | [] => (inr tt, d)
  | changes =>
      match advertisements d !! Advertisement.id loaded,
            mapM (λ fv, (λ v, (fv.1, v)) <$> column_value fv.1 fv.2) changes with
      | Some row, Some stored =>
          if negb (forallb (λ fv, storable fv.2) changes) then (inl DBAPIError, d)
          else
            (inr tt,
             {| users := users d;
                advertisements :=
                  <[Advertisement.id loaded :=
                      foldl (λ r fv, set_column r fv.1 fv.2) row stored]>
                    (advertisements d);
                tokens := tokens d;
                users_id_seq := users_id_seq d;
                advertisements_id_seq := advertisements_id_seq d;
                now := now d |})
      | _, _ => (inl DBAPIError, d)
      end
  end.

(** [DELETE FROM advertisements WHERE id = ...] *)
Definition delete_advertisement (adv : Advertisement.t) (d : DB) : (exn + unit) * DB :=
  (inr tt,
   {| users := users d;
      advertisements := delete (Advertisement.id adv) (advertisements d);
      tokens := tokens d;
      users_id_seq := users_id_seq d;
      advertisements_id_seq := advertisements_id_seq d;
      now := now d |}).

Definition disown_advertisement (a : Advertisement.columns) : Advertisement.columns :=
  {| Advertisement.title := Advertisement.title a;
     Advertisement.description := Advertisement.description a;
     Advertisement.created_at := Advertisement.created_at a;
     Advertisement.user_id := None |}.

Definition disown_token (user_id : Z) (t : Token.columns) : Token.columns :=
  if decide (Token.user_id t = Some user_id)
  then {| Token.created_at := Token.created_at t; Token.user_id := None |}
  else t.

(** Deleting a [User]: neither relationship cascades, so the session first
    sets to NULL the [user_id] of the loaded [advs] and of the user's tokens,
    then deletes the row; an advertisement that still references the user
    makes the deletion fail. *)
Definition delete_user (user : User.t) (d : DB) : (exn + unit) * DB :=
  let advertisements' :=
    foldl (λ m a, alter disown_advertisement (Advertisement.id a) m)
          (advertisements d) (User.advs user) in
  if bool_decide (map_Exists (λ _ a, Advertisement.user_id a = Some (User.id user))
                             advertisements')
  then (inl IntegrityError, d)
  else
    (inr tt,
     {| users := delete (User.id user) (users d);
        advertisements := advertisements';
        tokens := disown_token (User.id user) <$> tokens d;
        users_id_seq := users_id_seq d;
        advertisements_id_seq := advertisements_id_seq d;
        now := now d |}).

(** ** Handlers as computations *)

(** What happens at the database while one of its round trips is under way:
    other requests commit (and the clock moves), or the round trip fails.
    What the others have written also decides where the rows are in their
    table, hence the order of a result: [Meanwhile] has the rows in the
    order of their ids, that of a table whose rows were inserted and never
    updated; [Moved] has the row of each id at its place [heap id]. *)
Inductive round : Type :=
| Meanwhile (others : DB → DB)
| Outage
| Moved (others : DB → DB) (heap : Z → Z).

(** Nothing else happens. *)
Definition quiet : round := Meanwhile id.

Definition settle (r : round) (d : DB) : DB :=
  match r with
  | Meanwhile others | Moved others _ => others d
  | Outage => d
  end.

(** The place of the rows during the round. *)
Definition place (r : round) : Z → Z :=
  match r with
  | Moved _ heap => heap
  | Meanwhile _ | Outage => id
  end.

(** The state a handler runs in: the database and the rounds ahead; past
    the last of them the handler is alone and the database answers. *)
Record St : Type := {
  store : DB;
  ahead : list round
}.

Definition this_round (st : St) : round := hd quiet (ahead st).

(** The state once the round under way is over. *)
Definition pass (st : St) : St :=
  {| store := settle (this_round st) (store st); ahead := tail (ahead st) |}.

Definition M (A : Type) : Type := St → (exn + A) * St.

#[global] Instance M_ret : MRet M := λ A a st, (inr a, st).

#[global] Instance M_bind : MBind M := λ A B f c st,
  match c st with
  | (inr a, st') => f a st'
  | (inl e, st') => (inl e, st')
  end.

Definition raise {A} (e : exn) : M A := λ st, (inl e, st).

(** A pure computation that may raise. *)
Definition lift {A} (r : exn + A) : M A := λ st, (r, st).

(** [try: body except IntegrityError: handler] *)
Definition except_IntegrityError {A} (body handler : M A) : M A := λ st,
  match body st with
  | (inl IntegrityError, st') => handler st'
  | r => r
  end.

(** [d[key]] *)
Definition getitem {V} (d : dict V) (key : str) : M V :=
  match dict_get key d with
  | Some v => mret v
  | None => raise (KeyError key)
  end.

(** *** The session *)

Definition round_trip : M unit := λ st,
  match this_round st with
  | Outage => (inl DBAPIError, pass st)
  | Meanwhile _ | Moved _ _ => (inr tt, pass st)
  end.

Definition read {A} (query : DB → A) : M A := λ st, (inr (query (store st)), st).

(** A query. *)
Definition select {A} (query : DB → A) : M A :=
  _ ← round_trip; read query.

Definition execute {A} (statement : DB → (exn + A) * DB) : M A := λ st,
  let (outcome, d) := statement (store st) in
  (outcome, {| store := d; ahead := ahead st |}).

(** [session.add(...)] or [session.delete(...)] followed by
    [await session.commit()]: the statement is run and committed, or it
    fails and no row of it stays. *)
Definition commit {A} (statement : DB → (exn + A) * DB) : M A :=
  _ ← round_trip; execute statement.

Definition load_user (heap : Z → Z) (d : DB) (id : Z) (row : User.columns) : User.t :=
  {| User.id := id; User.values := row; User.advs := advs_of heap d id |}.

(** [session.get(User, item_id)] and [session.get(Advertisement, item_id)];
    the advertisements joined to the user come in the order that the round
    of the query has them. The key is an unbounded integer, as the keys of
    the tables are: what the driver does of an [item_id] above [INT_MAX],
    which no row has, is not modelled, and an id that a statement below
    has answered with a 404 is at most [INT_MAX], or was that of a row. *)
Definition User_get (item_id : Z) : M (option User.t) := λ st,
  select (λ d, load_user (place (this_round st)) d item_id <$> users d !! item_id) st.

Definition Advertisement_get (item_id : Z) : M (option Advertisement.t) :=
  select (λ d, Advertisement.Build_t item_id <$> advertisements d !! item_id).

(** [get_item_by_id(item_id, table_name, session)], [table_name] being the
    mapped class, here its [session.get]. *)
Definition get_item_by_id {K R} (item_id : K) (table_name : K → M (option R)) : M R :=
  item ← table_name item_id;
  match item with
  | None => raise (HTTPNotFound item_doesnt_exist)
  | Some item => mret item
  end.

(** ** Requests and responses *)

(** A request: the integer of the route's [\d+] segment, the headers (names
    in lower case) and the body as [json.loads] reads it ([None]: the text
    is not JSON). *)
Record Request : Type := {
  match_info : Z;
  headers : dict str;
  body : option json
}.

(** [await request.json()] *)
Definition request_json (request : Request) : M json :=
  match body request with
  | Some data => mret data
  | None => raise JSONDecodeError
  end.

(** What [gensalt()] and [uuid.uuid4()] draw during a request. *)
Record Draws : Type := {
  gensalt : str;
  uuid4 : uuid
}.

(** The data given to [web.json_response], one constructor per dict literal
    of [main.py], with the values its f-strings interpolate. *)
Inductive reply : Type :=
| status_OKS
    (* {'status': 'OKS'} *)
| user_info (user_id : Z) (user_email : str) (created_at : datetime) (advs : str)
    (* {'user_id': user.id, 'user_email': user.email,
        'created_at': str(user.created_at), 'advs': str(user.advs)} *)
| user_created (user_id : Z) (token : uuid)
    (* {'user_created': f'user_id {new_user.id}', 'token': f'{user_token.id}',
        'WARNING': 'save your token for authorization!'} *)
| user_deleted (email : str)
    (* {'status OK': f'user {user.email} deleted'} *)
| adv_info (adv_id : Z) (title description : str) (created_at : datetime)
           (created_by : option Z)
    (* {'adv_id': adv.id, 'title': adv.title, 'description': adv.description,
        'created_at': str(adv.created_at), 'created_by': f'user_{adv.user_id}'} *)
| adv_created (id : Z) (title : str) (user_id : option Z)
    (* {'success': f'advertisement id{id} created with title ... by user {user_id}'} *)
| adv_updated (id : Z) (new_data : json)
    (* {'success': f'advertisement id{adv.id} updated', 'new_data': f'{input_data}'} *)
| adv_deleted (id : Z) (title : str).
    (* {'status OK': f'advertisement id_{adv.id} ... deleted'} *)

(** What aiohttp sends back: the JSON response of a handler that returns,
    the status and body of an [HTTPException] it raises, or the plain
    500 Internal Server Error for any other exception. *)
Inductive Response : Type :=
| OK (data : reply)
| BadRequest (text : message)
| Unauthorized (text : message)
| NotFound (text : message)
| InternalServerError.

Definition respond (outcome : exn + reply) : Response :=
  match outcome with
  | inr data => OK data
  | inl (HTTPBadRequest text) => BadRequest text
  | inl (HTTPUnauthorized text) => Unauthorized text
  | inl (HTTPNotFound text) => NotFound text
  | inl _ => InternalServerError
  end.

(** One request served: [session_middleware] opens a session, the handler
    runs, the session is closed (what was not committed is dropped). *)
Definition serve (handler : Request → M reply) (request : Request) (st : St)
  : Response * St :=
  let (outcome, st') := handler request st in (respond outcome, st').

(** [get_hello] *)
Definition get_hello (request : Request) : M reply := mret status_OKS.

(** *** [UserView] *)

Definition UserView_get (request : Request) : M reply :=
  user ← get_item_by_id (match_info request) User_get;
  mret (user_info (User.id user) (User.email user) (User.created_at user)
                  (str_list Advertisement.repr (User.advs user))).

Definition UserView_post (draws : Draws) (request : Request) : M reply :=
  json_data ← request_json request;
  validated_data ← lift (validate json_data CreateUser);
  password ← getitem validated_data (py "password");
  encoded ← lift (encode password);
  hashed ← lift (bcrypt_hashpw encoded (gensalt draws));
  new_user_id ←
    except_IntegrityError
      (commit (insert_user (dict_get (py "email") validated_data) (Some hashed)))
      (raise (HTTPBadRequest user_already_exists));
  user_token_id ← commit (insert_token (uuid4 draws) (Some new_user_id));
  mret (user_created new_user_id user_token_id).

Definition UserView_delete (request : Request) : M reply :=
  user ← get_item_by_id (match_info request) User_get;
  _ ← commit (delete_user user);
  mret (user_deleted (User.email (User.values user))).

(** *** [AdvertisementView] *)

Section AdvertisementView.

(** How the [UUIDType] column turns the text of the [token] header into a
    [uuid.UUID]; [None] when it cannot, and the query then fails. *)
Variable UUID : str → option uuid.

(** [session.get(Token, item_id)] *)
Definition Token_get (item_id : str) : M (option Token.t) :=
  match UUID item_id with
  | None => raise DBAPIError
  | Some id => select (λ d, Token.Build_t id <$> tokens d !! id)
  end.

(** [check_token_in_headers(advertisement, request)] *)
Definition check_token_in_headers (advertisement : Advertisement.t) (request : Request)
  : M bool :=
  token_in_request ← getitem (headers request) (py "token");
  token_owner ← get_item_by_id token_in_request Token_get;
  if decide (Advertisement.user_id advertisement =
            Token.user_id (Token.values token_owner))
  then mret true
  else raise (HTTPUnauthorized owner_only).

Definition AdvertisementView_get (request : Request) : M reply :=
  adv ← get_item_by_id (match_info request) Advertisement_get;
  mret (adv_info (Advertisement.id adv) (Advertisement.title adv)
                 (Advertisement.description adv) (Advertisement.created_at adv)
                 (Advertisement.user_id adv)).

Definition AdvertisementView_post (request : Request) : M reply :=
  input_data ← request_json request;
  validated_data ← lift (validate input_data CreateAdvertisement);
  token_in_request ← getitem (headers request) (py "token");
  token_owner ← get_item_by_id token_in_request Token_get;
  new_advertisement ←
    except_IntegrityError
      (commit (insert_advertisement (dict_get (py "title") validated_data)
                                    (dict_get (py "description") validated_data)
                                    (Token.user_id (Token.values token_owner))))
      (user_id ← match input_data with
                 | JObj members => getitem members (py "user_id")
                 | _ => raise TypeError
                 end;
       raise (HTTPBadRequest (user_doesnt_exist user_id)));
  mret (adv_created (Advertisement.id new_advertisement)
                    (Advertisement.title new_advertisement)
                    (Advertisement.user_id new_advertisement)).

(** ['user_id' in input_data], on whatever the body parsed to. *)
Definition user_id_in (input_data : json) : exn + bool :=
  match input_data with
  | JObj members => inr (bool_decide (is_Some (dict_get (py "user_id") members)))
  | JArr items =>
      inr (existsb (λ item, match item with
                            | JStr s => bool_decide (s = py "user_id")
                            | _ => false
                            end) items)
  | JStr s => inr (contains s (py "user_id"))
  | JNull | JBool _ | JInt _ | JFloat _ => inl TypeError
  end.

Definition AdvertisementView_patch (request : Request) : M reply :=
  input_data ← request_json request;
  forbidden ← lift (user_id_in input_data);
  if forbidden : bool then raise (HTTPBadRequest owner_change_impossible)
  else
    validated_data ← lift (validate input_data UpdateAdvertisement);
    adv ← get_item_by_id (match_info request) Advertisement_get;
    _ ← check_token_in_headers adv request;
    let adv' := foldl (λ a fv, setattr a fv.1 fv.2) adv validated_data in
    _ ← commit (update_advertisement adv adv');
    mret (adv_updated (Advertisement.id adv) input_data).

Definition AdvertisementView_delete (request : Request) : M reply :=
  adv ← get_item_by_id (match_info request) Advertisement_get;
  _ ← check_token_in_headers adv request;
  _ ← commit (delete_advertisement adv);
  mret (adv_deleted (Advertisement.id adv) (Advertisement.title (Advertisement.values adv))).

End AdvertisementView.

(** ** Running the handlers on concrete requests *)

(** The hexadecimal forms that [uuid.UUID] reads: 32 hexadecimal digits,
    hyphens ignored. Enough to instantiate [UUID] on the tokens that the
    service prints. *)
Definition hex_digit (c : N) : option N :=
  if bool_decide (48 ≤ c ≤ 57)%N then Some (c - 48)%N
  else if bool_decide (97 ≤ c ≤ 102)%N then Some (c - 87)%N
  else if bool_decide (65 ≤ c ≤ 70)%N then Some (c - 55)%N
  else None.

Fixpoint hex_value (acc : N) (digits : str) : option N :=
  match digits with
  | [] => Some acc
  | c :: digits' =>
      match hex_digit c with
      | Some v => hex_value (16 * acc + v)%N digits'
      | None => None
      end
  end.

Definition UUID_hex (text : str) : option uuid :=
  let digits := filter (λ c, c ≠ 45%N) text in
  if decide (len digits = 32%nat) then hex_value 0 digits else None.

(** A handler that is alone with a database that answers. *)
Definition alone (d : DB) : St := {| store := d; ahead := [] |}.

(** ** Vocabulary of the statements *)

(** The member [field] of a JSON object is a string of fewer than
    [min_value] characters. *)
Definition shorter_than (members : dict json) (field : str) (min_value : nat) : Prop :=
  ∃ s, dict_get field members = Some (JStr s) ∧ (len s < min_value)%nat.

(** What a validator of [main.py] can raise is a 400. *)
Definition raises_only_400 (validator : str → exn + str) : Prop :=
  ∀ value e, validator value = inl e → ∃ text, e = HTTPBadRequest text.

Definition field_400 (f : ModelField) : Prop :=
  match class_validator f with
  | Some validator => raises_only_400 validator
  | None => True
  end.

(** The string that the body gives for a [str] member: the member when it
    is a string, its [str()] when it is a number; none when the body has no
    such member, or has one that no [str] field takes ([null], a list, an
    object). *)
Definition given (members : dict json) (field : str) : option str :=
  match dict_get field members with
  | None | Some JNull => None
  | Some v => str_validator v
  end.

(** The body has no member with the name that [BaseModel.__init__] gives to
    its first parameter. *)
Definition plain (members : dict json) : Prop :=
  dict_get (py "__pydantic_self__") members = None.

(** An advertisement object after the loop of [setattr] over these members:
    each attribute takes the value given for it, and keeps its own when
    none is. *)
Definition patched (row : Advertisement.columns) (members : dict json)
  : Advertisement.columns :=
  {| Advertisement.title :=
       default (Advertisement.title row) (given members (py "title"));
     Advertisement.description :=
       default (Advertisement.description row) (given members (py "description"));
     Advertisement.created_at := Advertisement.created_at row;
     Advertisement.user_id := Advertisement.user_id row |}.

(** The round trip of the round gets through. *)
Definition answers (r : round) : bool :=
  match r with
  | Outage => false
  | Meanwhile _ | Moved _ _ => true
  end.

(** Unfolding of the monad. *)
Ltac run := unfold mbind, M_bind, mret, M_ret, lift, raise, getitem; simpl.

(** The two cases of the round of [st]: its round trip gets through, or the
    round is an outage, which a hypothesis that it is not ends. *)
Ltac round st :=
  let H := fresh in
  destruct (answers (this_round st)) eqn:H;
  [ clear H
  | assert (this_round st = Outage)
      by (revert H; destruct (this_round st); simpl; done || discriminate);
    clear H ].

(** ** The application *)

(** [get_app]: the routes that it adds, each as its method, its path and
    the handler that the method of the view is. *)
Definition get_app (UUID : str → option uuid) (draws : Draws)
  : list (str * str * (Request → M reply)) :=
  [ (py "GET", py "/", get_hello);
    (py "POST", py "/users/", UserView_post draws);
    (py "GET", py "/users/{user_id:\d+}/", UserView_get);
    (py "DELETE", py "/users/{user_id:\d+}/", UserView_delete);
    (py "POST", py "/advertisements/", AdvertisementView_post UUID);
    (py "GET", py "/advertisements/{adv_id:\d+}/", AdvertisementView_get);
    (py "PATCH", py "/advertisements/{adv_id:\d+}/", AdvertisementView_patch UUID);
    (py "DELETE", py "/advertisements/{adv_id:\d+}/", AdvertisementView_delete UUID) ].

(** ** Vocabulary of the further statements *)

(** [st] is [st0] after some rounds and nothing else. *)
Definition later (st0 st : St) : Prop := ∃ n, st = Nat.iter n pass st0.

(** [d'] has the rows of [d]: the tables are the same, and each sequence is
    where it was or one id further, the id that an INSERT that failed has
    burnt. *)
Definition same_rows (d d' : DB) : Prop :=
  users d' = users d ∧ advertisements d' = advertisements d ∧ tokens d' = tokens d ∧
  now d' = now d ∧
  users_id_seq d ≤ users_id_seq d' ≤ users_id_seq d + 1 ∧
  advertisements_id_seq d ≤ advertisements_id_seq d' ≤ advertisements_id_seq d + 1.

(** Whoever ran from [st0] to [st] wrote no row: [st] has the rows of
    [st0] after some rounds, and the rounds that are ahead of it. *)
Definition untouched (st0 st : St) : Prop :=
  ∃ n, same_rows (store (Nat.iter n pass st0)) (store st) ∧
       ahead st = ahead (Nat.iter n pass st0).

(** The constraints that [models.py] declares, and the ids below their
    sequences. *)
Record consistent (d : DB) : Prop := {
  emails_unique :
    ∀ i j u v, users d !! i = Some u → users d !! j = Some v →
               User.email u = User.email v → i = j;
  advertisements_reference_users :
    ∀ i a u, advertisements d !! i = Some a → Advertisement.user_id a = Some u →
             is_Some (users d !! u);
  tokens_reference_users :
    ∀ k t u, tokens d !! k = Some t → Token.user_id t = Some u →
             is_Some (users d !! u);
  users_below_seq :
    ∀ i u, users d !! i = Some u → i ≤ users_id_seq d;
  advertisements_below_seq :
    ∀ i a, advertisements d !! i = Some a → i ≤ advertisements_id_seq d
}.

(** What the other requests commit during a round keeps the constraints. *)
Definition round_keeps (r : round) : Prop :=
  match r with
  | Meanwhile others | Moved others _ => ∀ d, consistent d → consistent (others d)
  | Outage => True
  end.

Definition sound (st : St) : Prop :=
  consistent (store st) ∧ Forall round_keeps (ahead st).

(** From a state where [P] holds, the computation ends with an outcome and
    in a state that [Q] relates. *)
Definition hoare {A} (P : St → Prop) (c : M A) (Q : exn + A → St → Prop) : Prop :=
  ∀ st, P st → Q (c st).1 (c st).2.

(** The computation writes no row unless it returns. *)
Definition all_or_nothing {A} (c : M A) : Prop :=
  ∀ st0, hoare (later st0) c
               (λ outcome st, match outcome with
                              | inl _ => untouched st0 st
                              | inr _ => True
                              end).

(** The computation keeps the constraints. *)
Definition keeps {A} (c : M A) : Prop := hoare sound c (λ _ st, sound st).

(** [d'] is what one statement of the session leaves of [d], whether it
    fails or not. *)
Definition written (d d' : DB) : Prop :=
  (∃ email password, d' = (insert_user email password d).2) ∨
  (∃ id user_id, d' = (insert_token id user_id d).2) ∨
  (∃ title description user_id,
     d' = (insert_advertisement title description user_id d).2) ∨
  (∃ loaded current, d' = (update_advertisement loaded current d).2) ∨
  (∃ adv, d' = (delete_advertisement adv d).2) ∨
  (∃ user, d' = (delete_user user d).2).

(** A statement that fails leaves the rows as they were. *)
Definition rolls_back {A} (statement : DB → (exn + A) * DB) : Prop :=
  ∀ d e d', statement d = (inl e, d') → same_rows d d'.

(** The computation keeps the property [I]. *)
Definition stable (I : St → Prop) {A} (c : M A) : Prop := hoare I c (λ _ st, I st).

(** * Properties *)

(** ** Validation *)

Lemma check_len_short value attribute min_value :
  (len value < min_value)%nat →
  check_len value attribute min_value = inl (HTTPBadRequest (too_short attribute min_value)).
Proof.
  intros H. unfold check_len.
  destruct (Nat.ltb_spec (len value) min_value) as [_|Hge]; [done | lia].
Qed.

Lemma check_len_long value attribute min_value :
  (min_value ≤ len value)%nat → check_len value attribute min_value = inr tt.
Proof.
  intros H. unfold check_len.
  destruct (Nat.ltb_spec (len value) min_value) as [Hlt|_]; [lia | done].
Qed.

Lemma check_len_400 value attribute min_value e :
  check_len value attribute min_value = inl e → ∃ text, e = HTTPBadRequest text.
Proof. unfold check_len. case_match; intros [= <-]; eauto. Qed.

Lemma validate_password_400 : raises_only_400 validate_password.
Proof.
  intros value e. unfold validate_password.
  destruct (check_len _ _ _) eqn:E; intros [= <-]. eapply check_len_400, E.
Qed.

Lemma validate_title_400 : raises_only_400 validate_title.
Proof.
  intros value e. unfold validate_title.
  destruct (check_len _ _ _) eqn:E; intros [= <-]. eapply check_len_400, E.
Qed.

Lemma validate_description_400 : raises_only_400 validate_description.
Proof.
  intros value e. unfold validate_description.
  destruct (check_len _ _ _) eqn:E; intros [= <-]. eapply check_len_400, E.
Qed.

Lemma validate_field_400 f data e :
  field_400 f → validate_field f data = Escapes e → ∃ text, e = HTTPBadRequest text.
Proof.
  unfold field_400, validate_field. intros Hf.
  destruct (dict_get (name f) data) as [v|]; [|by destruct (required f)].
  destruct (class_validator f) as [validator|].
  - destruct v; try (by destruct (required f));
      repeat case_match; try done; intros [= <-]; eapply Hf; eauto.
  - destruct v; try (by destruct (required f)); by repeat case_match.
Qed.

Lemma validate_model_400 fields data e :
  Forall field_400 fields → validate_model fields data = inl e →
  ∃ text, e = HTTPBadRequest text.
Proof.
  induction 1 as [|f fields Hf _ IH]; simpl; [done|].
  destruct (validate_field f data) eqn:E.
  - destruct (validate_model fields data) as [e'|[values errors]]; [|done].
    intros [= <-]. by apply IH.
  - destruct (validate_model fields data) as [e'|[values errors]]; [|done].
    intros [= <-]. by apply IH.
  - intros [= <-]. eapply validate_field_400; eauto.
Qed.

(** The constructor call on an object, according to whether the object has
    a member named as the first parameter of [__init__]. *)
Lemma validate_plain fields data :
  plain data →
  validate (JObj data) fields
  = match validate_model fields data with
    | inl ValidationError | inr (_, true) => inl (HTTPBadRequest incorrect_input_data)
    | inl e => inl e
    | inr (values, false) => inr (dict_exclude_none values)
    end.
Proof.
  unfold plain, validate, BaseModel_init. intros ->.
  rewrite bool_decide_eq_false_2 by (by intros [? ?]).
  by destruct (validate_model fields data) as [e|[values [|]]].
Qed.

Lemma validate_not_plain fields data :
  ¬ plain data → validate (JObj data) fields = inl TypeError.
Proof.
  unfold plain, validate, BaseModel_init. intros Hself.
  rewrite bool_decide_eq_true_2; [done|].
  destruct (dict_get (py "__pydantic_self__") data); [eauto | done].
Qed.

Lemma validate_inr_plain fields json_data validated :
  validate json_data fields = inr validated →
  ∃ data, json_data = JObj data ∧ plain data.
Proof.
  destruct json_data as [| | | | | |data]; try done. intros Hv.
  exists data. split; [done|].
  destruct (dict_get (py "__pydantic_self__") data) as [v|] eqn:Hself; [|done].
  rewrite validate_not_plain in Hv; [done|]. unfold plain. by rewrite Hself.
Qed.

Lemma validate_object_400 fields data e :
  plain data →
  Forall field_400 fields → validate (JObj data) fields = inl e →
  ∃ text, e = HTTPBadRequest text.
Proof.
  intros Hplain Hf. rewrite validate_plain by done.
  destruct (validate_model fields data) as [e'|[values [|]]] eqn:E.
  - destruct (validate_model_400 _ _ _ Hf E) as [text ->]. intros [= <-]; eauto.
  - intros [= <-]; eauto.
  - done.
Qed.

Lemma CreateUser_400 : Forall field_400 CreateUser.
Proof. repeat constructor. apply validate_password_400. Qed.

Lemma CreateAdvertisement_400 : Forall field_400 CreateAdvertisement.
Proof. repeat constructor; [apply validate_title_400 | apply validate_description_400]. Qed.

Lemma UpdateAdvertisement_400 : Forall field_400 UpdateAdvertisement.
Proof. repeat constructor; [apply validate_title_400 | apply validate_description_400]. Qed.

(** A field whose value is a string below the minimum of its validator
    makes the validation of the model raise. *)
Lemma validate_field_short f data s validator :
  dict_get (name f) data = Some (JStr s) →
  class_validator f = Some validator →
  (∃ e, validator s = inl e ∧ e ≠ TypeError) →
  ∃ e, validate_field f data = Escapes e.
Proof.
  intros Hget Hv (e & He & Hne). unfold validate_field.
  rewrite Hget. simpl. rewrite Hv, He. destruct e; eauto. done.
Qed.

Lemma validate_model_escapes fields data f :
  f ∈ fields → (∃ e, validate_field f data = Escapes e) →
  ∃ e, validate_model fields data = inl e.
Proof.
  intros Hin [e He]. induction Hin as [f fields|f g fields _ IH]; simpl.
  - rewrite He. eauto.
  - destruct (IH He) as [e' ->]. destruct (validate_field g data); eauto.
Qed.

Lemma validate_short fields data f s validator :
  plain data →
  Forall field_400 fields → f ∈ fields →
  dict_get (name f) data = Some (JStr s) →
  class_validator f = Some validator →
  (∃ e, validator s = inl e ∧ e ≠ TypeError) →
  ∃ text, validate (JObj data) fields = inl (HTTPBadRequest text).
Proof.
  intros Hplain H400 Hin Hget Hv He.
  destruct (validate_model_escapes fields data f Hin) as [e E].
  { eapply validate_field_short; eauto. }
  destruct (validate (JObj data) fields) as [e'|validated] eqn:Ev.
  - destruct (validate_object_400 _ _ _ Hplain H400 Ev) as [text ->]. eauto.
  - rewrite validate_plain, E in Ev by done.
    by destruct e.
Qed.

(** ** Requests rejected before the database is reached *)

Lemma UserView_post_invalid draws request json_data e st :
  body request = Some json_data →
  validate json_data CreateUser = inl e →
  serve (UserView_post draws) request st = (respond (inl e), st).
Proof.
  intros Hbody Hv. unfold serve, UserView_post, request_json. rewrite Hbody.
  run. by rewrite Hv.
Qed.

Lemma AdvertisementView_post_invalid UUID request input_data e st :
  body request = Some input_data →
  validate input_data CreateAdvertisement = inl e →
  serve (AdvertisementView_post UUID) request st = (respond (inl e), st).
Proof.
  intros Hbody Hv. unfold serve, AdvertisementView_post, request_json. rewrite Hbody.
  run. by rewrite Hv.
Qed.

Lemma AdvertisementView_patch_forbidden UUID request input_data st :
  body request = Some input_data →
  user_id_in input_data = inr true →
  serve (AdvertisementView_patch UUID) request st
  = (BadRequest owner_change_impossible, st).
Proof.
  intros Hbody Hin. unfold serve, AdvertisementView_patch, request_json. rewrite Hbody.
  run. by rewrite Hin.
Qed.

Lemma AdvertisementView_patch_invalid UUID request input_data e st :
  body request = Some input_data →
  user_id_in input_data = inr false →
  validate input_data UpdateAdvertisement = inl e →
  serve (AdvertisementView_patch UUID) request st = (respond (inl e), st).
Proof.
  intros Hbody Hin Hv. unfold serve, AdvertisementView_patch, request_json. rewrite Hbody.
  run. by rewrite Hin, Hv.
Qed.

(** C6. A PATCH whose body has a [user_id] member is answered 400 (the
    owner cannot be changed) and leaves the state as it was: no round trip
    is made, whatever the [token] header is (present or not, resolving or
    not) and whatever the database holds. *)
Theorem patch_with_user_id_is_rejected UUID request members st :
  body request = Some (JObj members) →
  is_Some (dict_get (py "user_id") members) →
  serve (AdvertisementView_patch UUID) request st
  = (BadRequest owner_change_impossible, st).
Proof.
  intros Hbody Huid. apply AdvertisementView_patch_forbidden with (JObj members); [done|].
  simpl. by rewrite bool_decide_eq_true_2.
Qed.

Lemma patch_with_user_id_is_rejected_witness :
  let request :=
    {| match_info := 1; headers := [];
       body := Some (JObj [(py "title", JStr (py "Updated title!!"));
                           (py "user_id", JInt 2)]) |} in
  serve (AdvertisementView_patch UUID_hex) request (alone empty_DB)
  = (BadRequest owner_change_impossible, alone empty_DB).
Proof.
  intros request.
  apply (patch_with_user_id_is_rejected UUID_hex request
           [(py "title", JStr (py "Updated title!!")); (py "user_id", JInt 2)]).
  - reflexivity.
  - exists (JInt 2). reflexivity.
Defined.

(** C7, as the code has it. A body whose [password] is a string of fewer
    than 5 characters (for the creation of a user), or whose [title] has
    fewer than 8 or whose [description] has fewer than 5 (for the creation
    or the update of an advertisement), does not pass validation, which
    raises a 400, when it is [plain]: the handler answers 400 and the state
    is as before. The length is [len], the number of characters of the
    string. A body that is not [plain] does not reach the validators: the
    call of the model raises a [TypeError], and the creations answer the
    plain 500, the state being as before too. *)
Theorem short_fields_are_rejected UUID draws request members st :
  body request = Some (JObj members) →
  (plain members →
   (shorter_than members (py "password") 5 →
      (∃ text, validate (JObj members) CreateUser = inl (HTTPBadRequest text)) ∧
      (∃ text, serve (UserView_post draws) request st = (BadRequest text, st))) ∧
   (shorter_than members (py "title") 8 ∨ shorter_than members (py "description") 5 →
      (∃ text, validate (JObj members) CreateAdvertisement = inl (HTTPBadRequest text)) ∧
      (∃ text, validate (JObj members) UpdateAdvertisement = inl (HTTPBadRequest text)) ∧
      (∃ text, serve (AdvertisementView_post UUID) request st = (BadRequest text, st)) ∧
      (∃ text, serve (AdvertisementView_patch UUID) request st = (BadRequest text, st)))) ∧
  (¬ plain members →
   serve (UserView_post draws) request st = (InternalServerError, st) ∧
   serve (AdvertisementView_post UUID) request st = (InternalServerError, st)).
Proof.
  intros Hbody. split; [intros Hplain; split|].
  - intros (s & Hget & Hlen).
    assert (∃ text, validate (JObj members) CreateUser = inl (HTTPBadRequest text))
      as [text Hv].
    { eapply (validate_short CreateUser members
                {| name := py "password"; required := true;
                   class_validator := Some validate_password |});
        [done | apply CreateUser_400 | apply list_elem_of_further, list_elem_of_here
        | done | done |].
      eexists. unfold validate_password. by rewrite check_len_short. }
    split; [eauto|]. exists text.
    by rewrite (UserView_post_invalid _ _ _ _ _ Hbody Hv).
  - intros Hshort.
    assert (∀ req,
      let fields :=
        [ {| name := py "title"; required := req;
             class_validator := Some validate_title |};
          {| name := py "description"; required := req;
             class_validator := Some validate_description |} ] in
      ∃ text, validate (JObj members) fields = inl (HTTPBadRequest text)) as Hv.
    { intros req fields.
      assert (Forall field_400 fields) as H400.
      { repeat constructor; [apply validate_title_400 | apply validate_description_400]. }
      destruct Hshort as [(s & Hget & Hlen)|(s & Hget & Hlen)].
      - eapply (validate_short fields members
                  {| name := py "title"; required := req;
                     class_validator := Some validate_title |});
          [done | done | apply list_elem_of_here | done | done |].
        eexists. unfold validate_title. by rewrite check_len_short.
      - eapply (validate_short fields members
                  {| name := py "description"; required := req;
                     class_validator := Some validate_description |});
          [done | done | apply list_elem_of_further, list_elem_of_here | done | done |].
        eexists. unfold validate_description. by rewrite check_len_short. }
    destruct (Hv true) as [text1 Hv1]. destruct (Hv false) as [text2 Hv2].
    split; [eauto|]. split; [eauto|]. split.
    + exists text1. by rewrite (AdvertisementView_post_invalid _ _ _ _ _ Hbody Hv1).
    + destruct (bool_decide (is_Some (dict_get (py "user_id") members))) eqn:Hin.
      * eexists. by apply AdvertisementView_patch_forbidden with (JObj members);
          [|simpl; rewrite Hin].
      * exists text2.
        rewrite (AdvertisementView_patch_invalid UUID request (JObj members)
                   (HTTPBadRequest text2) st Hbody);
          [done | by simpl; rewrite Hin | done].
  - intros Hself. split.
    + by rewrite (UserView_post_invalid _ _ _ TypeError _ Hbody
                    (validate_not_plain _ _ Hself)).
    + by rewrite (AdvertisementView_post_invalid _ _ _ TypeError _ Hbody
                    (validate_not_plain _ _ Hself)).
Qed.

Lemma short_fields_are_rejected_witness :
  let members := [(py "email", JStr (py "a@x.com")); (py "password", JStr (py "abcd"));
                  (py "title", JStr (py "Long enough title"));
                  (py "description", JStr (py "shrt"))] in
  let request := {| match_info := 1; headers := []; body := Some (JObj members) |} in
  let draws := {| gensalt := py "salt"; uuid4 := 42%N |} in
  (∃ text, serve (UserView_post draws) request (alone empty_DB)
           = (BadRequest text, alone empty_DB)) ∧
  (∃ text, serve (AdvertisementView_post UUID_hex) request (alone empty_DB)
           = (BadRequest text, alone empty_DB)) ∧
  (∃ text, serve (AdvertisementView_patch UUID_hex) request (alone empty_DB)
           = (BadRequest text, alone empty_DB)).
Proof.
  intros members request draws.
  destruct (short_fields_are_rejected UUID_hex draws request members (alone empty_DB)
              eq_refl) as [Hplain _].
  destruct (Hplain eq_refl) as [Huser Hadv].
  split.
  - apply Huser. exists (py "abcd"). split; [reflexivity | vm_compute; lia].
  - apply Hadv. right. exists (py "shrt"). split; [reflexivity | vm_compute; lia].
Defined.

(** C7 as stated fails: the password of this body has 4 characters, and
    the answer is not a 400. The body has a member named
    [__pydantic_self__]: the call [CreateUser( **json_data )] raises a
    [TypeError] before any validator runs, and the answer is the plain
    500. *)
Lemma short_password_is_not_always_a_bad_request :
  let members := [(py "__pydantic_self__", JInt 1);
                  (py "email", JStr (py "a@x.com")); (py "password", JStr (py "abcd"))] in
  shorter_than members (py "password") 5 ∧
  validate (JObj members) CreateUser = inl TypeError ∧
  (serve (UserView_post {| gensalt := py "salt"; uuid4 := 42%N |})
         {| match_info := 0; headers := []; body := Some (JObj members) |}
         (alone empty_DB)).1
  = InternalServerError.
Proof.
  split; [|split; reflexivity].
  exists (py "abcd"). split; [reflexivity | vm_compute; lia].
Qed.

(** ** The body of a registration *)

Lemma validate_CreateUser_strings members email password :
  plain members →
  dict_get (py "email") members = Some (JStr email) →
  dict_get (py "password") members = Some (JStr password) →
  (5 ≤ len password)%nat →
  validate (JObj members) CreateUser
  = inr [(py "email", email); (py "password", password)].
Proof.
  intros Hplain Hemail Hpassword Hlen. rewrite validate_plain by done.
  unfold CreateUser, validate_model, validate_field. simpl.
  rewrite Hemail, Hpassword. simpl.
  unfold validate_password. by rewrite check_len_long.
Qed.

Lemma bcrypt_hashpw_hashable password salt :
  hashable password = true → bcrypt_hashpw password salt = inr (hashpw password salt).
Proof. unfold bcrypt_hashpw. by intros ->. Qed.

(** The first commit of a registration: what is in [users] once the row is
    inserted. *)
Lemma insert_user_row email password d id d' :
  insert_user (Some email) (Some password) d = (inr id, d') →
  id = users_id_seq d + 1 ∧
  users d' !! id = Some {| User.email := email; User.password := password;
                           User.created_at := now d |} ∧
  tokens d' = tokens d ∧ advertisements d' = advertisements d.
Proof.
  unfold insert_user. repeat case_match; try done. intros [= <- <-]. simpl.
  by rewrite lookup_insert_eq.
Qed.

Lemma insert_user_fresh email password d :
  storable email = true →
  users_id_seq d < INT_MAX →
  users d !! (users_id_seq d + 1) = None →
  ¬ map_Exists (λ _ u, User.email u = email) (users d) →
  insert_user (Some email) (Some password) d
  = (inr (users_id_seq d + 1),
     {| users := <[users_id_seq d + 1 :=
                     {| User.email := email; User.password := password;
                        User.created_at := now d |}]> (users d);
        advertisements := advertisements d;
        tokens := tokens d;
        users_id_seq := users_id_seq d + 1;
        advertisements_id_seq := advertisements_id_seq d;
        now := now d |}).
Proof.
  intros Hstorable Hseq Hid Hemail. unfold insert_user. rewrite Hstorable. simpl.
  rewrite bool_decide_eq_false_2 by lia.
  rewrite bool_decide_eq_false_2 by (rewrite Hid; by intros [? ?]).
  by rewrite bool_decide_eq_false_2.
Qed.

Lemma insert_token_users id user_id d r d' :
  insert_token id user_id d = (r, d') → users d' = users d.
Proof. unfold insert_token. repeat case_match; by intros [= <- <-]. Qed.

Lemma insert_token_raises id user_id d e d' :
  insert_token id user_id d = (inl e, d') → e = IntegrityError ∧ d' = d.
Proof. unfold insert_token. repeat case_match; try done; by intros [= <- <-]. Qed.

(** A handler alone makes its round trips on the same state. *)
Lemma commit_alone {A} (statement : DB → (exn + A) * DB) d :
  commit statement (alone d) = ((statement d).1, alone (statement d).2).
Proof. unfold commit, round_trip, execute. run. by destruct (statement d). Qed.

(** C4, as the code has it. A POST /users/ whose body is not JSON is not
    answered 400: [request.json()] raises, nothing catches the decoding
    error, and aiohttp answers with its plain 500; the state is as before. *)
Theorem malformed_json_is_a_server_error draws request st :
  body request = None →
  serve (UserView_post draws) request st = (InternalServerError, st).
Proof.
  intros Hbody. unfold serve, UserView_post, request_json. by rewrite Hbody.
Qed.

Lemma malformed_json_is_a_server_error_witness :
  serve (UserView_post {| gensalt := py "salt"; uuid4 := 42%N |})
        {| match_info := 0; headers := []; body := None |} (alone empty_DB)
  = (InternalServerError, alone empty_DB).
Proof.
  apply (malformed_json_is_a_server_error {| gensalt := py "salt"; uuid4 := 42%N |}
           {| match_info := 0; headers := []; body := None |}).
  reflexivity.
Defined.

(** C4 as stated fails: this request with a body that is not JSON gets the
    500, not a 400. *)
Lemma malformed_json_is_not_a_bad_request :
  (serve (UserView_post {| gensalt := py "salt"; uuid4 := 42%N |})
         {| match_info := 0; headers := []; body := None |} (alone empty_DB)).1
  = InternalServerError.
Proof. reflexivity. Qed.

(** C9, as the code has it. [CreateUser] puts no condition on the length
    of [email]: a [plain] body whose [email] is the empty string passes
    validation, with its empty email, whenever its [password] is a string
    of at least 5 characters; and the registration then inserts a row
    whose email is empty (the password having an encoding that bcrypt
    hashes, no other row having the empty email, the sequence having an id
    left and that id being free). *)
Theorem empty_email_is_accepted draws request members password d :
  body request = Some (JObj members) →
  plain members →
  dict_get (py "email") members = Some (JStr []) →
  dict_get (py "password") members = Some (JStr password) →
  (5 ≤ len password)%nat →
  validate (JObj members) CreateUser = inr [(py "email", []); (py "password", password)] ∧
  (encode password = inr password →
   hashable password = true →
   users_id_seq d < INT_MAX →
   users d !! (users_id_seq d + 1) = None →
   ¬ map_Exists (λ _ u, User.email u = []) (users d) →
   ∃ response d',
     serve (UserView_post draws) request (alone d) = (response, alone d') ∧
     users d' !! (users_id_seq d + 1)
     = Some {| User.email := []; User.password := hashpw password (gensalt draws);
               User.created_at := now d |}).
Proof.
  intros Hbody Hplain Hemail Hpassword Hlen.
  pose proof (validate_CreateUser_strings _ _ _ Hplain Hemail Hpassword Hlen) as Hv.
  split; [done|]. intros Hencode Hhash Hseq Hid Hunique.
  unfold serve, UserView_post, request_json. rewrite Hbody. run. rewrite Hv. simpl.
  rewrite Hencode, (bcrypt_hashpw_hashable _ _ Hhash).
  unfold except_IntegrityError.
  rewrite commit_alone, (insert_user_fresh [] _ d eq_refl Hseq Hid Hunique).
  cbn [fst snd]. rewrite commit_alone.
  destruct (insert_token _ _ _) as [[e|id] d2] eqn:Htok; cbn [fst snd].
  - eexists _, d2. split; [done|].
    apply insert_token_users in Htok. rewrite Htok. simpl.
    by rewrite lookup_insert_eq.
  - exists (OK (user_created (users_id_seq d + 1) id)), d2. split; [done|].
    apply insert_token_users in Htok. rewrite Htok. simpl.
    by rewrite lookup_insert_eq.
Qed.

Lemma empty_email_is_accepted_witness :
  let members := [(py "email", JStr []); (py "password", JStr (py "abcde"))] in
  let draws := {| gensalt := py "salt"; uuid4 := 42%N |} in
  let request := {| match_info := 0; headers := []; body := Some (JObj members) |} in
  validate (JObj members) CreateUser = inr [(py "email", []); (py "password", py "abcde")] ∧
  ∃ response d',
    serve (UserView_post draws) request (alone empty_DB) = (response, alone d') ∧
    users d' !! 1
    = Some {| User.email := []; User.password := hashpw (py "abcde") (py "salt");
              User.created_at := 0 |}.
Proof.
  intros members draws request.
  destruct (empty_email_is_accepted draws request members (py "abcde") empty_DB)
    as [Hv Hrow].
  - reflexivity.
  - reflexivity.
  - reflexivity.
  - reflexivity.
  - vm_compute. lia.
  - split; [exact Hv|]. apply Hrow.
    + reflexivity.
    + reflexivity.
    + vm_compute. reflexivity.
    + reflexivity.
    + intros (i & u & Hu & _). vm_compute in Hu. discriminate.
Defined.

(** C9 as stated fails: this body with an empty email passes validation,
    and its registration leaves a row with the empty email. *)
Lemma empty_email_passes_validation :
  let members := [(py "email", JStr []); (py "password", JStr (py "abcde"))] in
  validate (JObj members) CreateUser = inr [(py "email", []); (py "password", py "abcde")] ∧
  User.email <$>
    users (store (serve (UserView_post {| gensalt := py "salt"; uuid4 := 42%N |})
                        {| match_info := 0; headers := [];
                           body := Some (JObj members) |}
                        (alone empty_DB)).2) !! 1
  = Some [].
Proof. split; reflexivity. Qed.

(** ** What validation keeps *)

(** The values of a model that validates are those of its fields, in order. *)
Lemma validate_model_values fields data values :
  validate_model fields data = inr (values, false) →
  Forall2 (λ f kv, kv.1 = name f ∧ validate_field f data = Value kv.2) fields values.
Proof.
  revert values. induction fields as [|f fields IH]; simpl; intros values.
  - intros [= <-]. constructor.
  - destruct (validate_field f data) as [v| |e] eqn:Hf; [| |done].
    + destruct (validate_model fields data) as [e|[values' errors]]; [done|].
      intros [= <- ->]. constructor; [done|]. by apply IH.
    + destruct (validate_model fields data) as [e|[values' errors]]; [done|].
      done.
Qed.

Lemma validate_values fields json_data validated :
  validate json_data fields = inr validated →
  ∃ data values,
    json_data = JObj data ∧ plain data ∧ validated = dict_exclude_none values ∧
    Forall2 (λ f kv, kv.1 = name f ∧ validate_field f data = Value kv.2) fields values.
Proof.
  intros Hv. destruct (validate_inr_plain _ _ _ Hv) as (data & -> & Hplain).
  rewrite validate_plain in Hv by done.
  destruct (validate_model fields data) as [e|[values [|]]] eqn:Hm.
  - by destruct e.
  - done.
  - injection Hv as <-. exists data, values. eauto using validate_model_values.
Qed.

(** The value of a field that passes: what [str_validator] makes of the
    member, checked by the validator of the field. *)
Lemma validate_field_Value f data v :
  validate_field f data = Value v →
  match v with
  | None =>
      required f = false ∧ given data (name f) = None ∧
      (dict_get (name f) data = None ∨
       dict_get (name f) data = Some JNull ∧ class_validator f = None)
  | Some s' =>
      ∃ s, given data (name f) = Some s ∧
           match class_validator f with
           | None => s' = s
           | Some validator => validator s = inr s'
           end
  end.
Proof.
  unfold validate_field, given.
  destruct (dict_get (name f) data) as [raw|].
  - destruct (str_validator raw) as [s|] eqn:Hs.
    + assert (raw ≠ JNull) by (by intros ->).
      destruct (class_validator f) as [validator|].
      * destruct (validator s) as [e|s'] eqn:Hval.
        -- destruct raw, e; try done.
        -- destruct raw; try done; intros [= <-]; eauto.
      * destruct raw; try done; intros [= <-]; eauto.
    + destruct raw; try done; destruct (required f); try done.
      destruct (class_validator f); [done|]. intros [= <-]. eauto.
  - destruct (required f); [done|]. intros [= <-]. eauto.
Qed.

Lemma check_len_inr value attribute min_value :
  check_len value attribute min_value = inr tt → (min_value ≤ len value)%nat.
Proof.
  unfold check_len. by destruct (Nat.ltb_spec (len value) min_value).
Qed.

Lemma validate_password_inr s s' :
  validate_password s = inr s' → s' = s ∧ (5 ≤ len s)%nat.
Proof.
  unfold validate_password. destruct (check_len _ _ _) as [|[]] eqn:E; [done|].
  intros [= <-]. eauto using check_len_inr.
Qed.

Lemma validate_title_inr s s' :
  validate_title s = inr s' → s' = s ∧ (8 ≤ len s)%nat.
Proof.
  unfold validate_title. destruct (check_len _ _ _) as [|[]] eqn:E; [done|].
  intros [= <-]. eauto using check_len_inr.
Qed.

Lemma validate_description_inr s s' :
  validate_description s = inr s' → s' = s ∧ (5 ≤ len s)%nat.
Proof.
  unfold validate_description. destruct (check_len _ _ _) as [|[]] eqn:E; [done|].
  intros [= <-]. eauto using check_len_inr.
Qed.

(** A validation of [CreateUser] that succeeds gives the two members. *)
Lemma validate_CreateUser_shape json_data validated :
  validate json_data CreateUser = inr validated →
  ∃ email password,
    validated = [(py "email", email); (py "password", password)] ∧
    (5 ≤ len password)%nat.
Proof.
  intros (data & values & -> & _ & -> & Hvalues)%validate_values.
  unfold CreateUser in Hvalues.
  apply Forall2_cons_inv_l in Hvalues as ([k1 v1] & values1 & [Hk1 Hv1] & Hvalues & ->).
  apply Forall2_cons_inv_l in Hvalues as ([k2 v2] & values2 & [Hk2 Hv2] & Hvalues & ->).
  apply Forall2_nil_inv_l in Hvalues as ->.
  simpl in Hk1, Hk2, Hv1, Hv2. subst k1 k2.
  apply validate_field_Value in Hv1, Hv2. simpl in Hv1, Hv2.
  destruct v1 as [email|]; [|by destruct Hv1].
  destruct v2 as [password|]; [|by destruct Hv2].
  destruct Hv2 as (s & _ & [-> Hlen]%validate_password_inr).
  exists email, s. done.
Qed.

(** A validation of [UpdateAdvertisement] that succeeds gives the members
    that the body has, [title] then [description], and no other; the body
    is [plain], and when it gives no string for one of the two, it is that
    it has no such member: a [null] would have been refused. *)
Lemma validate_UpdateAdvertisement_shape json_data validated :
  validate json_data UpdateAdvertisement = inr validated →
  ∃ members,
    json_data = JObj members ∧
    plain members ∧
    validated
    = dict_exclude_none [(py "title", given members (py "title"));
                         (py "description", given members (py "description"))] ∧
    (given members (py "title") = None → dict_get (py "title") members = None) ∧
    (given members (py "description") = None →
     dict_get (py "description") members = None).
Proof.
  intros (data & values & -> & Hplain & -> & Hvalues)%validate_values.
  unfold UpdateAdvertisement in Hvalues.
  apply Forall2_cons_inv_l in Hvalues as ([k1 v1] & values1 & [Hk1 Hv1] & Hvalues & ->).
  apply Forall2_cons_inv_l in Hvalues as ([k2 v2] & values2 & [Hk2 Hv2] & Hvalues & ->).
  apply Forall2_nil_inv_l in Hvalues as ->.
  simpl in Hk1, Hk2, Hv1, Hv2. subst k1 k2.
  apply validate_field_Value in Hv1, Hv2. simpl in Hv1, Hv2.
  exists data. split; [done|]. split; [done|].
  assert (v1 = given data (py "title") ∧
          (given data (py "title") = None → dict_get (py "title") data = None))
    as [-> Htitle].
  { destruct v1 as [s'|].
    - destruct Hv1 as (s & -> & [-> _]%validate_title_inr). done.
    - destruct Hv1 as (_ & -> & [Habsent|[_ ?]]); done. }
  assert (v2 = given data (py "description") ∧
          (given data (py "description") = None →
           dict_get (py "description") data = None))
    as [-> Hdescription].
  { destruct v2 as [s'|].
    - destruct Hv2 as (s & -> & [-> _]%validate_description_inr). done.
    - destruct Hv2 as (_ & -> & [Habsent|[_ ?]]); done. }
  done.
Qed.

(** ** The two commits of a registration *)

(** A commit that fails: the round trip has failed, or the statement has,
    and the state is what the statement leaves after the round. *)
Lemma commit_fails {A} (statement : DB → (exn + A) * DB) st e st' :
  commit statement st = (inl e, st') →
  this_round st = Outage ∧ e = DBAPIError ∧ st' = pass st ∨
  this_round st ≠ Outage ∧
  (statement (store (pass st))).1 = inl e ∧
  st' = {| store := (statement (store (pass st))).2; ahead := ahead (pass st) |}.
Proof.
  unfold commit, round_trip, execute, mbind, M_bind.
  destruct (this_round st) eqn:Hround.
  - destruct (statement (store (pass st))) as [[e'|a] d] eqn:Hs; [|done].
    intros [= <- <-]. by right.
  - intros [= <- <-]. by left.
  - destruct (statement (store (pass st))) as [[e'|a] d] eqn:Hs; [|done].
    intros [= <- <-]. by right.
Qed.

Lemma commit_succeeds {A} (statement : DB → (exn + A) * DB) st a st' :
  commit statement st = (inr a, st') →
  this_round st ≠ Outage ∧
  statement (store (pass st)) = (inr a, store st') ∧
  ahead st' = ahead (pass st).
Proof.
  unfold commit, round_trip, execute, mbind, M_bind.
  destruct (this_round st) eqn:Hround; [|done|];
    (destruct (statement (store (pass st))) as [[e'|a'] d] eqn:Hs; [done|]);
    by intros [= <- <-].
Qed.

Lemma same_rows_refl d : same_rows d d.
Proof. unfold same_rows. split_and!; try done; lia. Qed.

Lemma same_rows_nextval_users d : same_rows d (nextval_users d).
Proof. unfold same_rows, nextval_users. simpl. split_and!; try done; lia. Qed.

Lemma same_rows_nextval_advertisements d : same_rows d (nextval_advertisements d).
Proof. unfold same_rows, nextval_advertisements. simpl. split_and!; try done; lia. Qed.

(** An INSERT that fails leaves the rows as they were. *)
Lemma insert_user_raises email password d e d' :
  insert_user email password d = (inl e, d') →
  (e = IntegrityError ∨ e = DBAPIError) ∧ same_rows d d'.
Proof.
  unfold insert_user. destruct email as [email|], password as [password|];
    repeat case_match; intros [= <- <-];
    auto using same_rows_refl, same_rows_nextval_users.
Qed.

(** C1, as the code has it. A registration commits the User row by itself
    and only then inserts the Token, in a second commit. When the first
    commit fails no row is written: the tables are as the round left
    them, and the sequence of the ids has at most drawn one. When it
    succeeds and the insertion of the Token then fails, the answer is the
    plain 500 and the User row, already committed, stays, with no token:
    the state left is the one that the first commit made, moved only by
    the round of the second, and the very same database when that round is
    an outage or a quiet one. (A validation of [CreateUser] that succeeds
    always has the shape assumed here, see [validate_CreateUser_shape]; the
    password is one that bcrypt hashes.) *)
Theorem registration_commits_the_user_first draws request json_data email password st :
  body request = Some json_data →
  validate json_data CreateUser = inr [(py "email", email); (py "password", password)] →
  encode password = inr password →
  hashable password = true →
  let hashed := hashpw password (gensalt draws) in
  (∀ e st1,
     commit (insert_user (Some email) (Some hashed)) st = (inl e, st1) →
     same_rows (store (pass st)) (store st1) ∧
     ahead st1 = ahead (pass st) ∧
     serve (UserView_post draws) request st
     = (match e with
        | IntegrityError => BadRequest user_already_exists
        | _ => InternalServerError
        end, st1)) ∧
  (∀ new_id st1 e st2,
     commit (insert_user (Some email) (Some hashed)) st = (inr new_id, st1) →
     commit (insert_token (uuid4 draws) (Some new_id)) st1 = (inl e, st2) →
     serve (UserView_post draws) request st = (InternalServerError, st2) ∧
     st2 = pass st1 ∧
     users (store st1) !! new_id
     = Some {| User.email := email; User.password := hashed;
               User.created_at := now (store (pass st)) |} ∧
     tokens (store st1) = tokens (store (pass st)) ∧
     (this_round st1 = Outage ∨ this_round st1 = quiet → store st2 = store st1)).
Proof.
  intros Hbody Hv Hencode Hhash hashed. split.
  - intros e st1 Hins.
    assert (serve (UserView_post draws) request st
            = (match e with
               | IntegrityError => BadRequest user_already_exists
               | _ => InternalServerError
               end, st1) ∧
            (e = IntegrityError ∨ e = DBAPIError)) as [Hserve _].
    { assert (e = IntegrityError ∨ e = DBAPIError) as He.
      { destruct (commit_fails _ _ _ _ Hins) as [(_ & -> & _)|(_ & Hs & _)]; [by right|].
        destruct (insert_user _ _ _) as [o d'] eqn:Hi. simpl in Hs. subst o.
        by destruct (insert_user_raises _ _ _ _ _ Hi). }
      split; [|done].
      unfold serve, UserView_post, request_json. rewrite Hbody. run. rewrite Hv. simpl.
      rewrite Hencode, (bcrypt_hashpw_hashable _ _ Hhash).
      unfold except_IntegrityError. fold hashed. simpl in Hins |- *. rewrite Hins.
      by destruct He as [-> | ->]. }
    rewrite Hserve. clear Hserve.
    destruct (commit_fails _ _ _ _ Hins) as [(_ & _ & ->)|(_ & Hs & ->)].
    + split; [apply same_rows_refl | done].
    + destruct (insert_user _ _ _) as [o d'] eqn:Hi. simpl in Hs. subst o.
      destruct (insert_user_raises _ _ _ _ _ Hi) as [_ Hrows]. done.
  - intros new_id st1 e st2 Hins Htok.
    destruct (commit_succeeds _ _ _ _ Hins) as (_ & Hs & _).
    destruct (insert_user_row _ _ _ _ _ Hs) as (_ & Hrow & Htokens & _).
    assert (st2 = pass st1 ∧ (this_round st1 ≠ Outage → e = IntegrityError))
      as [-> Hwhy].
    { destruct (commit_fails _ _ _ _ Htok) as [(Hr & _ & ->)|(_ & He & ->)]; [done|].
      destruct (insert_token _ _ _) as [o d'] eqn:Hi. simpl in He. subst o.
      destruct (insert_token_raises _ _ _ _ _ Hi) as [-> ->]. simpl.
      split; [reflexivity | done]. }
    split; [|repeat split; try done; unfold pass; simpl; by intros [-> | ->]].
    unfold serve, UserView_post, request_json. rewrite Hbody. run. rewrite Hv. simpl.
    rewrite Hencode, (bcrypt_hashpw_hashable _ _ Hhash).
    unfold except_IntegrityError. fold hashed. simpl in Hins |- *. rewrite Hins.
    rewrite Htok.
    destruct (commit_fails _ _ _ _ Htok) as [(_ & -> & _)|(Hr & _ & _)]; [done|].
    by rewrite (Hwhy Hr).
Qed.

Lemma registration_commits_the_user_first_witness :
  let draws := {| gensalt := py "salt"; uuid4 := 42%N |} in
  let request :=
    {| match_info := 0; headers := [];
       body := Some (JObj [(py "email", JStr (py "a@x.com"));
                           (py "password", JStr (py "abcde"))]) |} in
  let st := {| store := empty_DB; ahead := [quiet; Outage] |} in
  ∃ st2,
    serve (UserView_post draws) request st = (InternalServerError, st2) ∧
    User.email <$> users (store st2) !! 1 = Some (py "a@x.com") ∧
    tokens (store st2) = ∅.
Proof.
  intros draws request st.
  destruct (registration_commits_the_user_first draws request
              (JObj [(py "email", JStr (py "a@x.com")); (py "password", JStr (py "abcde"))])
              (py "a@x.com") (py "abcde") st eq_refl eq_refl eq_refl eq_refl)
    as [_ Hsecond].
  destruct (Hsecond 1 _ DBAPIError _ eq_refl eq_refl) as (Hserve & _ & _ & _ & _).
  eexists. split; [exact Hserve|]. split; reflexivity.
Defined.

(** C1 as stated fails: the connection is lost at the second commit of this
    registration; the answer is the 500 and the User row is in the store,
    without a token. *)
Lemma registration_leaves_a_user_without_token :
  let outcome :=
    serve (UserView_post {| gensalt := py "salt"; uuid4 := 42%N |})
          {| match_info := 0; headers := [];
             body := Some (JObj [(py "email", JStr (py "a@x.com"));
                                 (py "password", JStr (py "abcde"))]) |}
          {| store := empty_DB; ahead := [quiet; Outage] |} in
  outcome.1 = InternalServerError ∧
  users (store outcome.2) !! 1
  = Some {| User.email := py "a@x.com";
            User.password := hashpw (py "abcde") (py "salt");
            User.created_at := 0 |} ∧
  tokens (store outcome.2) = ∅.
Proof. repeat split; reflexivity. Qed.

(** ** GET /users/{user_id}/ *)

Lemma elem_of_advs_of heap d user_id (a : Advertisement.t) :
  a ∈ advs_of heap d user_id ↔
  advertisements d !! Advertisement.id a = Some (Advertisement.values a) ∧
  Advertisement.user_id a = Some user_id.
Proof.
  unfold advs_of. rewrite merge_sort_Permutation, list_elem_of_fmap. split.
  - intros ([id row] & -> & Hin). simpl.
    by apply elem_of_map_to_list, map_lookup_filter_Some in Hin.
  - intros [Hrow Howner]. exists (Advertisement.id a, Advertisement.values a). split.
    + by destruct a.
    + by apply elem_of_map_to_list, map_lookup_filter_Some.
Qed.

Lemma NoDup_advs_of heap d user_id : NoDup (advs_of heap d user_id).
Proof.
  unfold advs_of. rewrite merge_sort_Permutation.
  apply NoDup_fmap_2; [|apply NoDup_map_to_list].
  intros [i a] [j b] [= -> ->]. done.
Qed.

(** C5, as the code has it. For a user id that exists when it is looked
    up, GET /users/{user_id}/ answers with the id, the email and
    [created_at] of the user and, in [advs], a text: the Python list of the
    advertisements that reference the user, each of them once and printed
    by its [__repr__] as its title between angle brackets. Their order is
    the one in which the database returns them, which nothing in the code
    fixes. The state is only moved by the round of the lookup. *)
Theorem user_get_lists_titles request st row :
  this_round st ≠ Outage →
  users (store (pass st)) !! match_info request = Some row →
  ∃ owned : list Advertisement.t,
    serve UserView_get request st
    = (OK (user_info (match_info request) (User.email row) (User.created_at row)
                     (py "[" ++
                      join (py ", ")
                           ((λ a : Advertisement.t,
                               py "<" ++ Advertisement.title a ++ py ">") <$> owned) ++
                      py "]")),
       pass st) ∧
    NoDup owned ∧
    (∀ a : Advertisement.t,
       a ∈ owned ↔
       advertisements (store (pass st)) !! Advertisement.id a
       = Some (Advertisement.values a) ∧
       Advertisement.user_id a = Some (match_info request)).
Proof.
  intros Hround Hrow.
  exists (advs_of (place (this_round st)) (store (pass st)) (match_info request)).
  split; [|split; [apply NoDup_advs_of | intros a; apply elem_of_advs_of]].
  unfold serve, UserView_get, get_item_by_id, User_get, select, round_trip, read.
  unfold mbind, M_bind, mret, M_ret.
  destruct (this_round st); [|done|]; by rewrite Hrow.
Qed.

Lemma user_get_lists_titles_witness :
  let d :=
    {| users := {[ 1 := {| User.email := py "a@x.com";
                           User.password := hashpw (py "abcde") (py "salt");
                           User.created_at := 0 |} ]};
       advertisements :=
         {[ 1 := {| Advertisement.title := py "First title";
                    Advertisement.description := py "short";
                    Advertisement.created_at := 0;
                    Advertisement.user_id := Some 1 |};
            2 := {| Advertisement.title := py "Second title";
                    Advertisement.description := py "short";
                    Advertisement.created_at := 0;
                    Advertisement.user_id := Some 1 |} ]};
       tokens := {[ 42%N := {| Token.created_at := 0; Token.user_id := Some 1 |} ]};
       users_id_seq := 1; advertisements_id_seq := 2; now := 0 |} in
  let request := {| match_info := 1; headers := []; body := None |} in
  let st := {| store := d; ahead := [Moved id (λ i, - i)] |} in
  ∃ owned : list Advertisement.t,
    serve UserView_get request st
    = (OK (user_info 1 (py "a@x.com") 0
                     (py "[" ++
                      join (py ", ")
                           ((λ a : Advertisement.t,
                               py "<" ++ Advertisement.title a ++ py ">") <$> owned) ++
                      py "]")),
       pass st) ∧
    NoDup owned ∧
    (∀ a : Advertisement.t,
       a ∈ owned ↔
       advertisements (store (pass st)) !! Advertisement.id a
       = Some (Advertisement.values a) ∧
       Advertisement.user_id a = Some 1).
Proof.
  intros d request st.
  apply (user_get_lists_titles request st
           {| User.email := py "a@x.com";
              User.password := hashpw (py "abcde") (py "salt");
              User.created_at := 0 |}).
  - discriminate.
  - reflexivity.
Defined.

(** C5 as stated fails: [advs] does not hold the identifiers of the
    advertisements. The user owns advertisement 1 in one database and
    advertisement 2 in the other, both with the same title, and the two
    answers are the same, with the title in [advs]. *)
Lemma user_get_does_not_list_identifiers :
  let user := {| User.email := py "a@x.com";
                 User.password := hashpw (py "abcde") (py "salt");
                 User.created_at := 0 |} in
  let adv := {| Advertisement.title := py "Long enough title";
                Advertisement.description := py "short";
                Advertisement.created_at := 0;
                Advertisement.user_id := Some 1 |} in
  let d1 := {| users := {[ 1 := user ]}; advertisements := {[ 1 := adv ]}; tokens := ∅;
               users_id_seq := 1; advertisements_id_seq := 1; now := 0 |} in
  let d2 := {| users := {[ 1 := user ]}; advertisements := {[ 2 := adv ]}; tokens := ∅;
               users_id_seq := 1; advertisements_id_seq := 2; now := 0 |} in
  let request := {| match_info := 1; headers := []; body := None |} in
  advertisements d1 !! 1 = Some adv ∧ advertisements d1 !! 2 = None ∧
  advertisements d2 !! 2 = Some adv ∧ advertisements d2 !! 1 = None ∧
  (serve UserView_get request (alone d1)).1
  = OK (user_info 1 (py "a@x.com") 0 (py "[<Long enough title>]")) ∧
  (serve UserView_get request (alone d2)).1
  = OK (user_info 1 (py "a@x.com") 0 (py "[<Long enough title>]")).
Proof. repeat split; vm_compute; reflexivity. Qed.

(** The order of the titles is that of the rows in the table: the same
    two advertisements are listed one way when the rows are where their
    insertion has put them, and the other way once the first has been
    moved behind the second, as an UPDATE does. *)
Example user_get_follows_the_table :
  let d :=
    {| users := {[ 1 := {| User.email := py "a@x.com";
                           User.password := hashpw (py "abcde") (py "salt");
                           User.created_at := 0 |} ]};
       advertisements :=
         {[ 1 := {| Advertisement.title := py "First title";
                    Advertisement.description := py "short";
                    Advertisement.created_at := 0;
                    Advertisement.user_id := Some 1 |};
            2 := {| Advertisement.title := py "Second title";
                    Advertisement.description := py "short";
                    Advertisement.created_at := 0;
                    Advertisement.user_id := Some 1 |} ]};
       tokens := ∅;
       users_id_seq := 1; advertisements_id_seq := 2; now := 0 |} in
  let request := {| match_info := 1; headers := []; body := None |} in
  (serve UserView_get request {| store := d; ahead := [Meanwhile id] |}).1
  = OK (user_info 1 (py "a@x.com") 0 (py "[<First title>, <Second title>]")) ∧
  (serve UserView_get request
         {| store := d; ahead := [Moved id (λ i, if decide (i = 1) then 3 else i)] |}).1
  = OK (user_info 1 (py "a@x.com") 0 (py "[<Second title>, <First title>]")).
Proof. split; vm_compute; reflexivity. Qed.

(** ** POST /advertisements/ when the owner vanishes *)

(** C3, where the code departs from it. The token of user 1 is looked up;
    before the advertisement is inserted another request, DELETE /users/1/,
    is served; the insertion then violates the foreign key. The handler
    catches the [IntegrityError] and builds its 400 from
    [input_data["user_id"]], a key that the body does not have: the
    [KeyError] leaves the handler and the answer is the plain 500. Nothing is
    inserted. *)
Theorem post_by_vanished_owner_is_a_server_error :
  let d :=
    {| users := {[ 1 := {| User.email := py "a@x.com";
                           User.password := hashpw (py "abcde") (py "salt");
                           User.created_at := 0 |} ]};
       advertisements := ∅;
       tokens := {[ 42%N := {| Token.created_at := 0; Token.user_id := Some 1 |} ]};
       users_id_seq := 1; advertisements_id_seq := 0; now := 0 |} in
  let delete_user_1 (d : DB) : DB :=
    store (serve UserView_delete {| match_info := 1; headers := []; body := None |}
                 (alone d)).2 in
  let request :=
    {| match_info := 0;
       headers := [(py "token", py "00000000-0000-0000-0000-00000000002a")];
       body := Some (JObj [(py "title", JStr (py "Long enough title"));
                           (py "description", JStr (py "short"))]) |} in
  let outcome :=
    serve (AdvertisementView_post UUID_hex) request
          {| store := d; ahead := [quiet; Meanwhile delete_user_1] |} in
  users (delete_user_1 d) !! 1 = None ∧
  outcome.1 = InternalServerError ∧
  advertisements (store outcome.2) = ∅.
Proof. repeat split; vm_compute; reflexivity. Qed.

(** The same request alone with the database is served. *)
Example post_by_owner :
  let d :=
    {| users := {[ 1 := {| User.email := py "a@x.com";
                           User.password := hashpw (py "abcde") (py "salt");
                           User.created_at := 0 |} ]};
       advertisements := ∅;
       tokens := {[ 42%N := {| Token.created_at := 0; Token.user_id := Some 1 |} ]};
       users_id_seq := 1; advertisements_id_seq := 0; now := 0 |} in
  let request :=
    {| match_info := 0;
       headers := [(py "token", py "00000000-0000-0000-0000-00000000002a")];
       body := Some (JObj [(py "title", JStr (py "Long enough title"));
                           (py "description", JStr (py "short"))]) |} in
  (serve (AdvertisementView_post UUID_hex) request (alone d)).1
  = OK (adv_created 1 (py "Long enough title") (Some 1)).
Proof. vm_compute. reflexivity. Qed.

(** The 400 that the handler means to give is only reached when the body
    happens to have a [user_id] member, which validation ignores. *)
Example post_by_vanished_owner_with_user_id :
  let d :=
    {| users := {[ 1 := {| User.email := py "a@x.com";
                           User.password := hashpw (py "abcde") (py "salt");
                           User.created_at := 0 |} ]};
       advertisements := ∅;
       tokens := {[ 42%N := {| Token.created_at := 0; Token.user_id := Some 1 |} ]};
       users_id_seq := 1; advertisements_id_seq := 0; now := 0 |} in
  let delete_user_1 (d : DB) : DB :=
    store (serve UserView_delete {| match_info := 1; headers := []; body := None |}
                 (alone d)).2 in
  let request :=
    {| match_info := 0;
       headers := [(py "token", py "00000000-0000-0000-0000-00000000002a")];
       body := Some (JObj [(py "title", JStr (py "Long enough title"));
                           (py "description", JStr (py "short"));
                           (py "user_id", JInt 7)]) |} in
  (serve (AdvertisementView_post UUID_hex) request
         {| store := d; ahead := [quiet; Meanwhile delete_user_1] |}).1
  = BadRequest (user_doesnt_exist (JInt 7)).
Proof. vm_compute. reflexivity. Qed.

(** ** The ownership check *)

Lemma pass_quiet st : ahead st = [] → pass st = st.
Proof. destruct st as [d rounds]. simpl. by intros ->. Qed.

Lemma round_trip_answers st :
  round_trip st = (if answers (this_round st) then inr tt else inl DBAPIError, pass st).
Proof. unfold round_trip. by destruct (this_round st). Qed.

Lemma select_answers {A} (query : DB → A) st :
  select query st
  = (if answers (this_round st) then inr (query (store (pass st))) else inl DBAPIError,
     pass st).
Proof.
  unfold select, read, mbind, M_bind. rewrite round_trip_answers.
  by destruct (answers (this_round st)).
Qed.

(** The lookup of an advertisement, case by case. *)
Lemma get_advertisement_by_id item_id st :
  get_item_by_id item_id Advertisement_get st
  = if answers (this_round st) then
      match advertisements (store (pass st)) !! item_id with
      | Some row => (inr (Advertisement.Build_t item_id row), pass st)
      | None => (inl (HTTPNotFound item_doesnt_exist), pass st)
      end
    else (inl DBAPIError, pass st).
Proof.
  unfold get_item_by_id, Advertisement_get, mbind, M_bind, mret, M_ret, raise.
  rewrite select_answers. destruct (answers (this_round st)); [|done].
  by destruct (advertisements (store (pass st)) !! item_id).
Qed.

(** [check_token_in_headers], case by case. *)
Lemma check_token_in_headers_cases UUID (advertisement : Advertisement.t) request st :
  check_token_in_headers UUID advertisement request st
  = match dict_get (py "token") (headers request) with
    | None => (inl (KeyError (py "token")), st)
    | Some text =>
        match UUID text with
        | None => (inl DBAPIError, st)
        | Some key =>
            if answers (this_round st) then
              match tokens (store (pass st)) !! key with
              | None => (inl (HTTPNotFound item_doesnt_exist), pass st)
              | Some token =>
                  if decide (Advertisement.user_id advertisement = Token.user_id token)
                  then (inr true, pass st)
                  else (inl (HTTPUnauthorized owner_only), pass st)
              end
            else (inl DBAPIError, pass st)
        end
    end.
Proof.
  unfold check_token_in_headers, getitem, get_item_by_id, Token_get.
  unfold mbind, M_bind, mret, M_ret, raise.
  destruct (dict_get (py "token") (headers request)) as [text|]; [|done].
  destruct (UUID text) as [key|]; [|done].
  rewrite select_answers. destruct (answers (this_round st)); [|done].
  destruct (tokens (store (pass st)) !! key) as [token|]; [|done]. simpl.
  by destruct (decide _).
Qed.

(** C2, as the code has it. The token presented resolves to a user whose
    id differs from the [user_id] of the advertisement. A DELETE is then
    answered 401, and so is a PATCH whose body has passed what comes before
    the ownership check: it is JSON, it has no [user_id] and it validates.
    The handler writes nothing: the state left is the initial one after
    the rounds of its two lookups, hence the initial one when no other
    request interferes. *)
Theorem foreign_token_is_unauthorized UUID request st adv text key token :
  this_round st ≠ Outage →
  advertisements (store (pass st)) !! match_info request = Some adv →
  dict_get (py "token") (headers request) = Some text →
  UUID text = Some key →
  this_round (pass st) ≠ Outage →
  tokens (store (pass (pass st))) !! key = Some token →
  Advertisement.user_id adv ≠ Token.user_id token →
  serve (AdvertisementView_delete UUID) request st
  = (Unauthorized owner_only, pass (pass st)) ∧
  (∀ input_data validated_data,
     body request = Some input_data →
     user_id_in input_data = inr false →
     validate input_data UpdateAdvertisement = inr validated_data →
     serve (AdvertisementView_patch UUID) request st
     = (Unauthorized owner_only, pass (pass st))) ∧
  (ahead st = [] → pass (pass st) = st).
Proof.
  intros Hround1 Hadv Htext Hkey Hround2 Htoken Hdiffer.
  assert (check_token_in_headers UUID (Advertisement.Build_t (match_info request) adv)
            request (pass st)
          = (inl (HTTPUnauthorized owner_only), pass (pass st))) as Hcheck.
  { rewrite check_token_in_headers_cases, Htext, Hkey.
    round (pass st); [|done]. rewrite Htoken.
    by rewrite decide_False. }
  assert (get_item_by_id (match_info request) Advertisement_get st
          = (inr (Advertisement.Build_t (match_info request) adv), pass st)) as Hget.
  { rewrite get_advertisement_by_id. round st; [|done]. by rewrite Hadv. }
  split; [|split].
  - unfold serve, AdvertisementView_delete, mbind, M_bind.
    by rewrite Hget, Hcheck.
  - intros input_data validated_data Hbody Hin Hv.
    unfold serve, AdvertisementView_patch, request_json. rewrite Hbody.
    unfold mbind, M_bind, mret, M_ret, lift. rewrite Hin, Hv.
    by rewrite Hget, Hcheck.
  - intros Halone. by rewrite (pass_quiet st Halone), (pass_quiet st Halone).
Qed.

Lemma foreign_token_is_unauthorized_witness :
  let d :=
    {| users := {[ 1 := {| User.email := py "a@x.com";
                           User.password := hashpw (py "abcde") (py "salt");
                           User.created_at := 0 |};
                   2 := {| User.email := py "b@x.com";
                           User.password := hashpw (py "fghij") (py "pepper");
                           User.created_at := 0 |} ]};
       advertisements :=
         {[ 1 := {| Advertisement.title := py "Long enough title";
                    Advertisement.description := py "short";
                    Advertisement.created_at := 0;
                    Advertisement.user_id := Some 1 |} ]};
       tokens := {[ 42%N := {| Token.created_at := 0; Token.user_id := Some 1 |};
                    43%N := {| Token.created_at := 0; Token.user_id := Some 2 |} ]};
       users_id_seq := 2; advertisements_id_seq := 1; now := 0 |} in
  let request :=
    {| match_info := 1;
       headers := [(py "token", py "00000000-0000-0000-0000-00000000002b")];
       body := Some (JObj [(py "title", JStr (py "Updated title!!"))]) |} in
  serve (AdvertisementView_delete UUID_hex) request (alone d)
  = (Unauthorized owner_only, alone d) ∧
  serve (AdvertisementView_patch UUID_hex) request (alone d)
  = (Unauthorized owner_only, alone d).
Proof.
  intros d request.
  destruct (foreign_token_is_unauthorized UUID_hex request (alone d)
              {| Advertisement.title := py "Long enough title";
                 Advertisement.description := py "short";
                 Advertisement.created_at := 0;
                 Advertisement.user_id := Some 1 |}
              (py "00000000-0000-0000-0000-00000000002b") 43%N
              {| Token.created_at := 0; Token.user_id := Some 2 |})
    as (Hdelete & Hpatch & _).
  - discriminate.
  - reflexivity.
  - reflexivity.
  - reflexivity.
  - discriminate.
  - reflexivity.
  - discriminate.
  - split; [exact Hdelete|].
    apply (Hpatch (JObj [(py "title", JStr (py "Updated title!!"))])
                  [(py "title", py "Updated title!!")]); reflexivity.
Defined.

(** C2 as stated fails on a PATCH: the token of user 2 is presented for
    the advertisement of user 1 with a body that has a [user_id]; the
    answer is the 400 of the forbidden member, not a 401. *)
Lemma foreign_token_with_user_id_is_a_bad_request :
  let d :=
    {| users := {[ 1 := {| User.email := py "a@x.com";
                           User.password := hashpw (py "abcde") (py "salt");
                           User.created_at := 0 |};
                   2 := {| User.email := py "b@x.com";
                           User.password := hashpw (py "fghij") (py "pepper");
                           User.created_at := 0 |} ]};
       advertisements :=
         {[ 1 := {| Advertisement.title := py "Long enough title";
                    Advertisement.description := py "short";
                    Advertisement.created_at := 0;
                    Advertisement.user_id := Some 1 |} ]};
       tokens := {[ 42%N := {| Token.created_at := 0; Token.user_id := Some 1 |};
                    43%N := {| Token.created_at := 0; Token.user_id := Some 2 |} ]};
       users_id_seq := 2; advertisements_id_seq := 1; now := 0 |} in
  let request :=
    {| match_info := 1;
       headers := [(py "token", py "00000000-0000-0000-0000-00000000002b")];
       body := Some (JObj [(py "title", JStr (py "Updated title!!"));
                           (py "user_id", JInt 2)]) |} in
  Advertisement.user_id <$> advertisements d !! match_info request = Some (Some 1) ∧
  UUID_hex <$> dict_get (py "token") (headers request) = Some (Some 43%N) ∧
  Token.user_id <$> tokens d !! 43%N = Some (Some 2) ∧
  (serve (AdvertisementView_patch UUID_hex) request (alone d)).1
  = BadRequest owner_change_impossible.
Proof. repeat split; vm_compute; reflexivity. Qed.

(** ** Requests without a [token] header *)

Lemma check_token_in_headers_missing UUID advertisement request st :
  dict_get (py "token") (headers request) = None →
  check_token_in_headers UUID advertisement request st = (inl (KeyError (py "token")), st).
Proof. intros Hmissing. by rewrite check_token_in_headers_cases, Hmissing. Qed.

(** C10, as the code has it. The request has no [token] header. Whatever
    the answer, the handler writes nothing: the state left is the initial
    one, or the initial one after the round of the lookup of the
    advertisement. And when what comes before the read of the header
    passes (for a creation, the body is JSON and validates; for an update,
    the body is JSON, has no [user_id] and validates, and the advertisement
    exists; for a deletion, the advertisement exists), the read of the
    header raises a [KeyError] and the answer is the plain 500. *)
Theorem missing_token_header UUID request st :
  dict_get (py "token") (headers request) = None →
  (∀ response st',
     serve (AdvertisementView_post UUID) request st = (response, st') → st' = st) ∧
  (∀ input_data validated_data,
     body request = Some input_data →
     validate input_data CreateAdvertisement = inr validated_data →
     serve (AdvertisementView_post UUID) request st = (InternalServerError, st)) ∧
  (∀ response st',
     serve (AdvertisementView_patch UUID) request st = (response, st') →
     st' = st ∨ st' = pass st) ∧
  (∀ input_data validated_data adv,
     body request = Some input_data →
     user_id_in input_data = inr false →
     validate input_data UpdateAdvertisement = inr validated_data →
     this_round st ≠ Outage →
     advertisements (store (pass st)) !! match_info request = Some adv →
     serve (AdvertisementView_patch UUID) request st = (InternalServerError, pass st)) ∧
  (∀ response st',
     serve (AdvertisementView_delete UUID) request st = (response, st') →
     st' = pass st) ∧
  (∀ adv,
     this_round st ≠ Outage →
     advertisements (store (pass st)) !! match_info request = Some adv →
     serve (AdvertisementView_delete UUID) request st = (InternalServerError, pass st)) ∧
  (ahead st = [] → pass st = st).
Proof.
  intros Hmissing. repeat split.
  - intros response st'.
    unfold serve, AdvertisementView_post, request_json.
    unfold mbind, M_bind, mret, M_ret, lift, raise, getitem. rewrite Hmissing.
    destruct (body request) as [input_data|]; [|by intros [= _ <-]].
    destruct (validate input_data CreateAdvertisement); by intros [= _ <-].
  - intros input_data validated_data Hbody Hv.
    unfold serve, AdvertisementView_post, request_json.
    unfold mbind, M_bind, mret, M_ret, lift, raise, getitem.
    by rewrite Hbody, Hv, Hmissing.
  - intros response st'.
    unfold serve, AdvertisementView_patch, request_json.
    unfold mbind, M_bind, mret, M_ret, lift, raise.
    destruct (body request) as [input_data|]; [|intros [= _ <-]; by left].
    destruct (user_id_in input_data) as [e|[|]]; [intros [= _ <-]; by left ..|].
    destruct (validate input_data UpdateAdvertisement) as [e|validated_data];
      [intros [= _ <-]; by left|].
    rewrite get_advertisement_by_id.
    round st; [|intros [= _ <-]; by right].
    destruct (advertisements (store (pass st)) !! match_info request) as [adv|];
      [|intros [= _ <-]; by right].
    rewrite (check_token_in_headers_missing _ _ _ _ Hmissing).
    intros [= _ <-]; by right.
  - intros input_data validated_data adv Hbody Hin Hv Hround Hadv.
    unfold serve, AdvertisementView_patch, request_json.
    unfold mbind, M_bind, mret, M_ret, lift, raise.
    rewrite Hbody, Hin, Hv, get_advertisement_by_id.
    round st; [|done].
    by rewrite Hadv, (check_token_in_headers_missing _ _ _ _ Hmissing).
  - intros response st'.
    unfold serve, AdvertisementView_delete, mbind, M_bind.
    rewrite get_advertisement_by_id.
    round st; [|by intros [= _ <-]].
    destruct (advertisements (store (pass st)) !! match_info request) as [adv|];
      [|by intros [= _ <-]].
    rewrite (check_token_in_headers_missing _ _ _ _ Hmissing).
    by intros [= _ <-].
  - intros adv Hround Hadv.
    unfold serve, AdvertisementView_delete, mbind, M_bind.
    rewrite get_advertisement_by_id.
    round st; [|done].
    by rewrite Hadv, (check_token_in_headers_missing _ _ _ _ Hmissing).
  - apply pass_quiet.
Qed.

Lemma missing_token_header_witness :
  let d :=
    {| users := {[ 1 := {| User.email := py "a@x.com";
                           User.password := hashpw (py "abcde") (py "salt");
                           User.created_at := 0 |} ]};
       advertisements :=
         {[ 1 := {| Advertisement.title := py "Long enough title";
                    Advertisement.description := py "short";
                    Advertisement.created_at := 0;
                    Advertisement.user_id := Some 1 |} ]};
       tokens := {[ 42%N := {| Token.created_at := 0; Token.user_id := Some 1 |} ]};
       users_id_seq := 1; advertisements_id_seq := 1; now := 0 |} in
  let request :=
    {| match_info := 1; headers := [];
       body := Some (JObj [(py "title", JStr (py "Updated title!!"));
                           (py "description", JStr (py "other"))]) |} in
  serve (AdvertisementView_post UUID_hex) request (alone d)
  = (InternalServerError, alone d) ∧
  serve (AdvertisementView_patch UUID_hex) request (alone d)
  = (InternalServerError, alone d) ∧
  serve (AdvertisementView_delete UUID_hex) request (alone d)
  = (InternalServerError, alone d).
Proof.
  intros d request.
  destruct (missing_token_header UUID_hex request (alone d) eq_refl)
    as (_ & Hpost & _ & Hpatch & _ & Hdelete & _).
  split; [|split].
  - apply (Hpost (JObj [(py "title", JStr (py "Updated title!!"));
                        (py "description", JStr (py "other"))])
                 [(py "title", py "Updated title!!"); (py "description", py "other")]);
      reflexivity.
  - apply (Hpatch (JObj [(py "title", JStr (py "Updated title!!"));
                         (py "description", JStr (py "other"))])
                  [(py "title", py "Updated title!!"); (py "description", py "other")]
                  {| Advertisement.title := py "Long enough title";
                     Advertisement.description := py "short";
                     Advertisement.created_at := 0;
                     Advertisement.user_id := Some 1 |});
      try reflexivity. discriminate.
  - apply (Hdelete {| Advertisement.title := py "Long enough title";
                      Advertisement.description := py "short";
                      Advertisement.created_at := 0;
                      Advertisement.user_id := Some 1 |}); [discriminate | reflexivity].
Defined.

(** C10 as stated fails: this creation has no [token] header and a title
    of 5 characters; validation comes before the read of the header and the
    answer is a 400. So is, on an advertisement that does not exist, the
    404 of this deletion. *)
Lemma missing_token_header_can_be_a_bad_request :
  (serve (AdvertisementView_post UUID_hex)
         {| match_info := 0; headers := [];
            body := Some (JObj [(py "title", JStr (py "short"));
                                (py "description", JStr (py "some text"))]) |}
         (alone empty_DB)).1
  = BadRequest (too_short (py "title") 8) ∧
  (serve (AdvertisementView_delete UUID_hex)
         {| match_info := 1; headers := []; body := None |}
         (alone empty_DB)).1
  = NotFound item_doesnt_exist.
Proof. split; vm_compute; reflexivity. Qed.

(** ** Partial updates *)

Lemma set_column_title row value :
  set_column row (py "title") value
  = {| Advertisement.title := value;
       Advertisement.description := Advertisement.description row;
       Advertisement.created_at := Advertisement.created_at row;
       Advertisement.user_id := Advertisement.user_id row |}.
Proof. unfold set_column. by rewrite decide_True. Qed.

Lemma set_column_description row value :
  set_column row (py "description") value
  = {| Advertisement.title := Advertisement.title row;
       Advertisement.description := value;
       Advertisement.created_at := Advertisement.created_at row;
       Advertisement.user_id := Advertisement.user_id row |}.
Proof.
  unfold set_column. rewrite decide_False by (by vm_compute). by rewrite decide_True.
Qed.

(** The loop of [setattr] over the validated members. *)
Lemma setattr_given id row members :
  foldl (λ a fv, setattr a fv.1 fv.2) (Advertisement.Build_t id row)
        (dict_exclude_none [(py "title", given members (py "title"));
                            (py "description", given members (py "description"))])
  = Advertisement.Build_t id (patched row members).
Proof.
  unfold patched, dict_exclude_none, setattr.
  destruct (given members (py "title")) as [title|],
           (given members (py "description")) as [description|]; simpl;
    rewrite ?set_column_title, ?set_column_description; simpl; try done.
  by destruct row.
Qed.

(** What the column stores of a title that fits. *)
Lemma String_100_fits value :
  (len value ≤ 100)%nat → String_100 value = Some value.
Proof.
  intros Hlen. unfold String_100, len in *.
  by rewrite drop_ge, take_ge by lia.
Qed.

Lemma String_100_Some value stored :
  String_100 value = Some stored → stored = take 100 value.
Proof. unfold String_100. case_match; by intros [= <-]. Qed.

Lemma column_value_title value : column_value (py "title") value = String_100 value.
Proof. unfold column_value. by rewrite decide_True. Qed.

Lemma column_value_description value :
  column_value (py "description") value = Some value.
Proof. unfold column_value. by rewrite decide_False by (by vm_compute). Qed.

(** The update of a row that is still as it was loaded: what the columns
    store of the new values. *)
Lemma update_advertisement_stores id row row' d d' :
  advertisements d !! id = Some row →
  (len (Advertisement.title row) ≤ 100)%nat →
  Advertisement.created_at row' = Advertisement.created_at row →
  Advertisement.user_id row' = Advertisement.user_id row →
  update_advertisement (Advertisement.Build_t id row) (Advertisement.Build_t id row') d
  = (inr tt, d') →
  String_100 (Advertisement.title row') = Some (take 100 (Advertisement.title row')) ∧
  d' = {| users := users d;
          advertisements :=
            <[id := {| Advertisement.title := take 100 (Advertisement.title row');
                       Advertisement.description := Advertisement.description row';
                       Advertisement.created_at := Advertisement.created_at row;
                       Advertisement.user_id := Advertisement.user_id row |}]>
              (advertisements d);
          tokens := tokens d;
          users_id_seq := users_id_seq d;
          advertisements_id_seq := advertisements_id_seq d;
          now := now d |}.
Proof.
  intros Hrow Hfits Hcreated Howner. unfold update_advertisement, dirty. simpl.
  destruct row as [title description created_at user_id],
           row' as [title' description' created_at' user_id'].
  simpl in *. subst created_at' user_id'.
  destruct (decide (title' = title)) as [->|Htitle],
           (decide (description' = description)) as [->|Hdescription]; simpl.
  - intros [= <-]. rewrite String_100_fits by done.
    rewrite take_ge by (unfold len in *; lia).
    split; [done|]. rewrite insert_id by done. by destruct d.
  - rewrite Hrow, ?column_value_description. simpl.
    case_match; [done|]. intros [= <-].
    rewrite String_100_fits by done. rewrite take_ge by (unfold len in *; lia).
    by rewrite set_column_description.
  - rewrite Hrow, ?column_value_title. simpl.
    destruct (String_100 title') as [stored|] eqn:Hstored; simpl; [|done].
    case_match; [done|]. intros [= <-].
    apply String_100_Some in Hstored as ->.
    by rewrite set_column_title.
  - rewrite Hrow, ?column_value_title, ?column_value_description. simpl.
    destruct (String_100 title') as [stored|] eqn:Hstored; simpl; [|done].
    case_match; [done|]. intros [= <-].
    apply String_100_Some in Hstored as ->.
    by rewrite set_column_title, set_column_description.
Qed.

Lemma update_advertisement_alone id row members d d' :
  advertisements d !! id = Some row →
  (len (Advertisement.title row) ≤ 100)%nat →
  update_advertisement (Advertisement.Build_t id row)
                       (Advertisement.Build_t id (patched row members)) d
  = (inr tt, d') →
  (∀ title, given members (py "title") = Some title →
            String_100 title = Some (take 100 title)) ∧
  d' = {| users := users d;
          advertisements :=
            <[id := {| Advertisement.title :=
                         from_option (take 100) (Advertisement.title row)
                                     (given members (py "title"));
                       Advertisement.description :=
                         default (Advertisement.description row)
                                 (given members (py "description"));
                       Advertisement.created_at := Advertisement.created_at row;
                       Advertisement.user_id := Advertisement.user_id row |}]>
              (advertisements d);
          tokens := tokens d;
          users_id_seq := users_id_seq d;
          advertisements_id_seq := advertisements_id_seq d;
          now := now d |}.
Proof.
  intros Hrow Hfits Hupdate.
  apply update_advertisement_stores in Hupdate as [Hcut ->]; [|done..].
  unfold patched in *. simpl in *.
  destruct (given members (py "title")) as [title|]; simpl in *.
  - split; [by intros ? [= <-] | done].
  - split; [done|]. by rewrite take_ge by (unfold len in *; lia).
Qed.

(** C8. A PATCH that is served, no other request interfering, changes
    one row and nothing else: the row of the advertisement (one that the
    column can hold), in which each of [title] and [description] takes the
    value that the body gives for it, and keeps the value it had when the
    body has no such member; [created_at] and [user_id] are kept. What the
    column stores of a title of more than 100 characters is the first 100:
    the rest is then spaces. No column is ever set to NULL or emptied for
    want of a member. *)
Theorem patch_applies_only_given_fields UUID request d row data st' :
  advertisements d !! match_info request = Some row →
  (len (Advertisement.title row) ≤ 100)%nat →
  serve (AdvertisementView_patch UUID) request (alone d) = (OK data, st') →
  ∃ members,
    body request = Some (JObj members) ∧
    (given members (py "title") = None → dict_get (py "title") members = None) ∧
    (given members (py "description") = None →
     dict_get (py "description") members = None) ∧
    (∀ title, given members (py "title") = Some title →
              String_100 title = Some (take 100 title)) ∧
    st' = alone {| users := users d;
                   advertisements :=
                     <[match_info request :=
                         {| Advertisement.title :=
                              from_option (take 100) (Advertisement.title row)
                                          (given members (py "title"));
                            Advertisement.description :=
                              default (Advertisement.description row)
                                      (given members (py "description"));
                            Advertisement.created_at := Advertisement.created_at row;
                            Advertisement.user_id := Advertisement.user_id row |}]>
                       (advertisements d);
                   tokens := tokens d;
                   users_id_seq := users_id_seq d;
                   advertisements_id_seq := advertisements_id_seq d;
                   now := now d |}.
Proof.
  intros Hrow Hfits. unfold serve.
  destruct (AdvertisementView_patch UUID request (alone d)) as [[e|data'] st''] eqn:Hrun.
  { by destruct e. }
  intros [= -> ->]. revert Hrun.
  unfold AdvertisementView_patch, request_json.
  unfold mbind, M_bind, mret, M_ret, lift, raise.
  destruct (body request) as [input_data|]; [|done].
  destruct (user_id_in input_data) as [e|[|]]; [done..|].
  destruct (validate input_data UpdateAdvertisement) as [e|validated_data] eqn:Hv; [done|].
  apply validate_UpdateAdvertisement_shape in Hv
    as (members & -> & _ & -> & Htitle & Hdescription).
  rewrite get_advertisement_by_id. change (this_round (alone d)) with quiet.
  change (pass (alone d)) with (alone d). unfold quiet.
  change (store (alone d)) with d. cbn [answers]. rewrite Hrow.
  rewrite check_token_in_headers_cases.
  destruct (dict_get (py "token") (headers request)) as [text|]; [|done].
  destruct (UUID text) as [key|]; [|done].
  change (this_round (alone d)) with quiet. change (pass (alone d)) with (alone d).
  unfold quiet. change (store (alone d)) with d. cbn [answers].
  destruct (tokens d !! key) as [token|]; [|done].
  destruct (decide _) as [Howner|]; [|done].
  rewrite setattr_given, commit_alone.
  destruct (update_advertisement _ _ d) as [[e'|[]] d'] eqn:Hupdate; [done|].
  intros [= <- <-].
  apply update_advertisement_alone in Hupdate as [Hcut ->]; [|done..].
  by exists members.
Qed.

Lemma patch_applies_only_given_fields_witness :
  let row := {| Advertisement.title := py "Long enough title";
                Advertisement.description := py "short";
                Advertisement.created_at := 0;
                Advertisement.user_id := Some 1 |} in
  let d :=
    {| users := {[ 1 := {| User.email := py "a@x.com";
                           User.password := hashpw (py "abcde") (py "salt");
                           User.created_at := 0 |} ]};
       advertisements := {[ 1 := row ]};
       tokens := {[ 42%N := {| Token.created_at := 0; Token.user_id := Some 1 |} ]};
       users_id_seq := 1; advertisements_id_seq := 1; now := 0 |} in
  let input_data := JObj [(py "title", JStr (py "Updated title!!"))] in
  let request :=
    {| match_info := 1;
       headers := [(py "token", py "00000000-0000-0000-0000-00000000002a")];
       body := Some input_data |} in
  serve (AdvertisementView_patch UUID_hex) request (alone d)
  = (OK (adv_updated 1 input_data),
     alone {| users := users d;
              advertisements :=
                {[ 1 := {| Advertisement.title := py "Updated title!!";
                           Advertisement.description := py "short";
                           Advertisement.created_at := 0;
                           Advertisement.user_id := Some 1 |} ]};
              tokens := tokens d;
              users_id_seq := 1; advertisements_id_seq := 1; now := 0 |}) ∧
  ∃ members,
    body request = Some (JObj members) ∧
    (given members (py "title") = None → dict_get (py "title") members = None) ∧
    (given members (py "description") = None →
     dict_get (py "description") members = None) ∧
    (∀ title, given members (py "title") = Some title →
              String_100 title = Some (take 100 title)) ∧
    (serve (AdvertisementView_patch UUID_hex) request (alone d)).2
    = alone {| users := users d;
               advertisements :=
                 <[1 := {| Advertisement.title :=
                             from_option (take 100) (Advertisement.title row)
                                         (given members (py "title"));
                           Advertisement.description :=
                             default (Advertisement.description row)
                                     (given members (py "description"));
                           Advertisement.created_at := Advertisement.created_at row;
                           Advertisement.user_id := Advertisement.user_id row |}]>
                   (advertisements d);
               tokens := tokens d;
               users_id_seq := users_id_seq d;
               advertisements_id_seq := advertisements_id_seq d;
               now := now d |}.
Proof.
  intros row d input_data request.
  assert (serve (AdvertisementView_patch UUID_hex) request (alone d)
          = (OK (adv_updated 1 input_data),
             (serve (AdvertisementView_patch UUID_hex) request (alone d)).2)) as Hserved.
  { vm_compute. reflexivity. }
  split; [vm_compute; reflexivity|].
  apply (patch_applies_only_given_fields UUID_hex request d row (adv_updated 1 input_data)
           _ eq_refl).
  - vm_compute. lia.
  - exact Hserved.
Defined.

(** What the column makes of a title: this PATCH gives one of 100
    characters and a space, and is served; the row has the 100 characters.
    With another character in the place of the space it is refused, and
    the answer is the plain 500. *)
Example patch_with_a_title_that_the_column_cuts :
  let d :=
    {| users := {[ 1 := {| User.email := py "a@x.com";
                           User.password := hashpw (py "abcde") (py "salt");
                           User.created_at := 0 |} ]};
       advertisements :=
         {[ 1 := {| Advertisement.title := py "Long enough title";
                    Advertisement.description := py "short";
                    Advertisement.created_at := 0;
                    Advertisement.user_id := Some 1 |} ]};
       tokens := {[ 42%N := {| Token.created_at := 0; Token.user_id := Some 1 |} ]};
       users_id_seq := 1; advertisements_id_seq := 1; now := 0 |} in
  let hundred := replicate 100 84%N in
  let patch title :=
    serve (AdvertisementView_patch UUID_hex)
          {| match_info := 1;
             headers := [(py "token", py "00000000-0000-0000-0000-00000000002a")];
             body := Some (JObj [(py "title", JStr title)]) |}
          (alone d) in
  (patch (hundred ++ py " ")).1
  = OK (adv_updated 1 (JObj [(py "title", JStr (hundred ++ py " "))])) ∧
  Advertisement.title <$> advertisements (store (patch (hundred ++ py " ")).2) !! 1
  = Some hundred ∧
  (patch (hundred ++ py "!")).1 = InternalServerError.
Proof. repeat split; vm_compute; reflexivity. Qed.

(** ** The scenario of the specification *)

(** Register [a@x.com]; create an advertisement with the token; update its
    title; try the update with a token that is not registered; delete the
    advertisement; look it up. *)
Example scenario :
  let token := py "00000000-0000-0000-0000-00000000002a" in
  let other := py "00000000-0000-0000-0000-00000000002b" in
  let s1 := serve (UserView_post {| gensalt := py "salt"; uuid4 := 42%N |})
                  {| match_info := 0; headers := [];
                     body := Some (JObj [(py "email", JStr (py "a@x.com"));
                                         (py "password", JStr (py "abcde"))]) |}
                  (alone empty_DB) in
  let s2 := serve (AdvertisementView_post UUID_hex)
                  {| match_info := 0; headers := [(py "token", token)];
                     body := Some (JObj [(py "title", JStr (py "Long enough title"));
                                         (py "description", JStr (py "short"))]) |}
                  s1.2 in
  let update := JObj [(py "title", JStr (py "Updated title!!"))] in
  let s3 := serve (AdvertisementView_patch UUID_hex)
                  {| match_info := 1; headers := [(py "token", token)];
                     body := Some update |}
                  s2.2 in
  let s4 := serve (AdvertisementView_patch UUID_hex)
                  {| match_info := 1; headers := [(py "token", other)];
                     body := Some update |}
                  s3.2 in
  let s5 := serve (AdvertisementView_delete UUID_hex)
                  {| match_info := 1; headers := [(py "token", token)]; body := None |}
                  s4.2 in
  let s6 := serve AdvertisementView_get
                  {| match_info := 1; headers := []; body := None |}
                  s5.2 in
  s1.1 = OK (user_created 1 42%N) ∧
  s2.1 = OK (adv_created 1 (py "Long enough title") (Some 1)) ∧
  s3.1 = OK (adv_updated 1 update) ∧
  advertisements (store s3.2) !! 1
  = Some {| Advertisement.title := py "Updated title!!";
            Advertisement.description := py "short";
            Advertisement.created_at := 0;
            Advertisement.user_id := Some 1 |} ∧
  s4.1 = NotFound item_doesnt_exist ∧
  s5.1 = OK (adv_deleted 1 (py "Updated title!!")) ∧
  s6.1 = NotFound item_doesnt_exist.
Proof. repeat split; vm_compute; reflexivity. Qed.

(** * Further properties *)

(** ** What validation accepts, refuses and ignores *)

Lemma validate_CreateAdvertisement_shape json_data validated :
  validate json_data CreateAdvertisement = inr validated →
  ∃ members title description,
    json_data = JObj members ∧
    plain members ∧
    given members (py "title") = Some title ∧
    given members (py "description") = Some description ∧
    validated = [(py "title", title); (py "description", description)] ∧
    (8 ≤ len title)%nat ∧ (5 ≤ len description)%nat.
Proof.
  intros (data & values & -> & Hplain & -> & Hvalues)%validate_values.
  unfold CreateAdvertisement in Hvalues.
  apply Forall2_cons_inv_l in Hvalues as ([k1 v1] & values1 & [Hk1 Hv1] & Hvalues & ->).
  apply Forall2_cons_inv_l in Hvalues as ([k2 v2] & values2 & [Hk2 Hv2] & Hvalues & ->).
  apply Forall2_nil_inv_l in Hvalues as ->.
  simpl in Hk1, Hk2, Hv1, Hv2. subst k1 k2.
  apply validate_field_Value in Hv1, Hv2. simpl in Hv1, Hv2.
  destruct v1 as [title|]; [|by destruct Hv1].
  destruct v2 as [description|]; [|by destruct Hv2].
  destruct Hv1 as (s1 & Hs1 & [-> Hlen1]%validate_title_inr).
  destruct Hv2 as (s2 & Hs2 & [-> Hlen2]%validate_description_inr).
  by exists data, s1, s2.
Qed.

(** X1. What [validate] returns is what the body gives, checked: for
    [CreateUser] the email and a password of at least 5 characters, for
    [CreateAdvertisement] a title of at least 8 and a description of at
    least 5, for [UpdateAdvertisement] those of the two that the body
    has, each of at least its minimum, and neither of them [null]. The
    body is an object, it is [plain], and no other member is kept. *)
Theorem validated_data_is_the_checked_body json_data validated :
  (validate json_data CreateUser = inr validated →
   ∃ members email password,
     json_data = JObj members ∧
     plain members ∧
     given members (py "email") = Some email ∧
     given members (py "password") = Some password ∧
     validated = [(py "email", email); (py "password", password)] ∧
     (5 ≤ len password)%nat) ∧
  (validate json_data CreateAdvertisement = inr validated →
   ∃ members title description,
     json_data = JObj members ∧
     plain members ∧
     given members (py "title") = Some title ∧
     given members (py "description") = Some description ∧
     validated = [(py "title", title); (py "description", description)] ∧
     (8 ≤ len title)%nat ∧ (5 ≤ len description)%nat) ∧
  (validate json_data UpdateAdvertisement = inr validated →
   ∃ members,
     json_data = JObj members ∧
     plain members ∧
     validated
     = dict_exclude_none [(py "title", given members (py "title"));
                          (py "description", given members (py "description"))] ∧
     (∀ title, given members (py "title") = Some title → (8 ≤ len title)%nat) ∧
     (∀ description, given members (py "description") = Some description →
                     (5 ≤ len description)%nat) ∧
     (given members (py "title") = None → dict_get (py "title") members = None) ∧
     (given members (py "description") = None →
      dict_get (py "description") members = None)).
Proof.
  split; [|split].
  - intros (data & values & -> & Hplain & -> & Hvalues)%validate_values.
    unfold CreateUser in Hvalues.
    apply Forall2_cons_inv_l in Hvalues as ([k1 v1] & values1 & [Hk1 Hv1] & Hvalues & ->).
    apply Forall2_cons_inv_l in Hvalues as ([k2 v2] & values2 & [Hk2 Hv2] & Hvalues & ->).
    apply Forall2_nil_inv_l in Hvalues as ->.
    simpl in Hk1, Hk2, Hv1, Hv2. subst k1 k2.
    apply validate_field_Value in Hv1, Hv2. simpl in Hv1, Hv2.
    destruct v1 as [email|]; [|by destruct Hv1].
    destruct v2 as [password|]; [|by destruct Hv2].
    destruct Hv1 as (s1 & Hs1 & ->).
    destruct Hv2 as (s2 & Hs2 & [-> Hlen2]%validate_password_inr).
    by exists data, s1, s2.
  - apply validate_CreateAdvertisement_shape.
  - intros Hv.
    destruct (validate_UpdateAdvertisement_shape _ _ Hv)
      as (data & -> & Hplain & -> & Hnotitle & Hnodescription).
    apply validate_values in Hv as (data' & values & [= <-] & _ & Heq & Hvalues).
    unfold UpdateAdvertisement in Hvalues.
    apply Forall2_cons_inv_l in Hvalues as ([k1 v1] & values1 & [Hk1 Hv1] & Hvalues & ->).
    apply Forall2_cons_inv_l in Hvalues as ([k2 v2] & values2 & [Hk2 Hv2] & Hvalues & ->).
    apply Forall2_nil_inv_l in Hvalues as ->.
    simpl in Hk1, Hk2, Hv1, Hv2. subst k1 k2.
    apply validate_field_Value in Hv1, Hv2. simpl in Hv1, Hv2.
    exists data. split_and!; try done.
    + intros title Htitle. destruct v1 as [s'|].
      * destruct Hv1 as (s & Hs & [-> Hlen]%validate_title_inr). congruence.
      * destruct Hv1 as (_ & Hnone & _). congruence.
    + intros description Hdescription. destruct v2 as [s'|].
      * destruct Hv2 as (s & Hs & [-> Hlen]%validate_description_inr). congruence.
      * destruct Hv2 as (_ & Hnone & _). congruence.
Qed.

Lemma validated_data_is_the_checked_body_witness :
  let json_data := JObj [(py "title", JStr (py "Updated title!!"));
                         (py "description", JStr (py "other text"));
                         (py "price", JInt 3)] in
  ∃ members,
    json_data = JObj members ∧
    plain members ∧
    [(py "title", py "Updated title!!"); (py "description", py "other text")]
    = dict_exclude_none [(py "title", given members (py "title"));
                         (py "description", given members (py "description"))] ∧
    (∀ title, given members (py "title") = Some title → (8 ≤ len title)%nat) ∧
    (∀ description, given members (py "description") = Some description →
                    (5 ≤ len description)%nat) ∧
    (given members (py "title") = None → dict_get (py "title") members = None) ∧
    (given members (py "description") = None →
     dict_get (py "description") members = None).
Proof.
  intros json_data.
  destruct (validated_data_is_the_checked_body json_data
              [(py "title", py "Updated title!!"); (py "description", py "other text")])
    as (_ & _ & Hupdate).
  apply Hupdate. reflexivity.
Defined.

(** A [null] is not a member left out: the update that gives a title and
    [null] for the description is refused. *)
Example null_is_refused :
  validate (JObj [(py "title", JStr (py "Updated title!!")); (py "description", JNull)])
           UpdateAdvertisement
  = inl (HTTPBadRequest incorrect_input_data).
Proof. reflexivity. Qed.

(** The exception with which a validator of [main.py] refuses a value. *)
Lemma check_len_inl value attribute min_value e :
  check_len value attribute min_value = inl e →
  e = HTTPBadRequest (too_short attribute min_value).
Proof. unfold check_len. case_match; by intros [= <-]. Qed.

Lemma validate_field_Escapes f data e :
  f ∈ CreateUser ++ CreateAdvertisement ++ UpdateAdvertisement →
  validate_field f data = Escapes e →
  e = HTTPBadRequest (too_short (py "password") 5) ∨
  e = HTTPBadRequest (too_short (py "title") 8) ∨
  e = HTTPBadRequest (too_short (py "description") 5).
Proof.
  intros Hf. unfold validate_field.
  destruct (dict_get (name f) data) as [raw|]; [|by destruct (required f)].
  destruct (str_validator raw) as [s|] eqn:Hs.
  2: { destruct raw; try done; destruct (required f); try done;
       by destruct (class_validator f). }
  assert (raw ≠ JNull) as Hraw by (by intros ->).
  assert (∀ validator, class_validator f = Some validator → validator s = inl e →
          e = HTTPBadRequest (too_short (py "password") 5) ∨
          e = HTTPBadRequest (too_short (py "title") 8) ∨
          e = HTTPBadRequest (too_short (py "description") 5)) as Hvalidator.
  { intros validator Hclass Hfail.
    unfold CreateUser, CreateAdvertisement, UpdateAdvertisement in Hf. simpl in Hf.
    repeat (apply elem_of_cons in Hf as [-> | Hf]); try (by apply elem_of_nil in Hf);
      simpl in Hclass; try done; injection Hclass as <-.
    - unfold validate_password in Hfail.
      destruct (check_len _ _ _) eqn:E; [|done]. injection Hfail as <-.
      left. by apply check_len_inl in E.
    - unfold validate_title in Hfail.
      destruct (check_len _ _ _) eqn:E; [|done]. injection Hfail as <-.
      right; left. by apply check_len_inl in E.
    - unfold validate_description in Hfail.
      destruct (check_len _ _ _) eqn:E; [|done]. injection Hfail as <-.
      right; right. by apply check_len_inl in E.
    - unfold validate_title in Hfail.
      destruct (check_len _ _ _) eqn:E; [|done]. injection Hfail as <-.
      right; left. by apply check_len_inl in E.
    - unfold validate_description in Hfail.
      destruct (check_len _ _ _) eqn:E; [|done]. injection Hfail as <-.
      right; right. by apply check_len_inl in E. }
  destruct (class_validator f) as [validator|].
  - destruct (validator s) as [e'|s'] eqn:Hval.
    + destruct raw; try done; intros Hesc;
        (assert (e' = e) as -> by (destruct e'; congruence)); eauto.
    + by destruct raw.
  - by destruct raw.
Qed.

Lemma validate_model_inl fields data e :
  (∀ f, f ∈ fields → f ∈ CreateUser ++ CreateAdvertisement ++ UpdateAdvertisement) →
  validate_model fields data = inl e →
  e = HTTPBadRequest (too_short (py "password") 5) ∨
  e = HTTPBadRequest (too_short (py "title") 8) ∨
  e = HTTPBadRequest (too_short (py "description") 5).
Proof.
  induction fields as [|f fields IH]; simpl; [done|]. intros Hfields.
  assert (∀ g, g ∈ fields → g ∈ CreateUser ++ CreateAdvertisement ++ UpdateAdvertisement)
    as Hrest by (intros g Hg; apply Hfields; by right).
  destruct (validate_field f data) eqn:E.
  - destruct (validate_model fields data) as [e'|[values errors]]; [|done].
    intros [= <-]. by apply IH.
  - destruct (validate_model fields data) as [e'|[values errors]]; [|done].
    intros [= <-]. by apply IH.
  - intros [= <-]. eapply validate_field_Escapes; [|done]. apply Hfields. by left.
Qed.

(** X2. A body that is a JSON object and does not validate is refused
    with a 400 and nothing else when it is [plain]: with the text of
    [check_len] for the first field whose validator refuses its value, and
    else with 'incorrect input_data!' (a member that is missing, or [null],
    or neither a string nor a number). When it is not [plain] it is refused
    with the [TypeError] of the call, which no handler catches. *)
Theorem refused_object_is_a_bad_request fields members e :
  fields = CreateUser ∨ fields = CreateAdvertisement ∨ fields = UpdateAdvertisement →
  validate (JObj members) fields = inl e →
  (plain members →
   e = HTTPBadRequest incorrect_input_data ∨
   e = HTTPBadRequest (too_short (py "password") 5) ∨
   e = HTTPBadRequest (too_short (py "title") 8) ∨
   e = HTTPBadRequest (too_short (py "description") 5)) ∧
  (¬ plain members → e = TypeError).
Proof.
  intros Hfields Hv. split.
  - intros Hplain. rewrite validate_plain in Hv by done.
    destruct (validate_model fields members) as [e'|[values [|]]] eqn:Hmodel.
    + apply validate_model_inl in Hmodel.
      * destruct Hmodel as [-> | [-> | ->]]; injection Hv as <-; auto.
      * intros f Hf. destruct Hfields as [-> | [-> | ->]];
          rewrite !elem_of_app; auto.
    + injection Hv as <-. auto.
    + done.
  - intros Hself. rewrite validate_not_plain in Hv by done. by injection Hv as <-.
Qed.

Lemma refused_object_is_a_bad_request_witness :
  let members := [(py "title", JStr (py "Long enough title"));
                  (py "description", JStr (py "shrt"))] in
  let e := HTTPBadRequest (too_short (py "description") 5) in
  validate (JObj members) CreateAdvertisement = inl e ∧
  (e = HTTPBadRequest incorrect_input_data ∨
   e = HTTPBadRequest (too_short (py "password") 5) ∨
   e = HTTPBadRequest (too_short (py "title") 8) ∨
   e = HTTPBadRequest (too_short (py "description") 5)).
Proof.
  intros members e. split; [reflexivity|].
  destruct (refused_object_is_a_bad_request CreateAdvertisement members e) as [H400 _].
  - right. left. reflexivity.
  - reflexivity.
  - apply H400. reflexivity.
Defined.

Lemma validate_field_agrees f data1 data2 :
  dict_get (name f) data1 = dict_get (name f) data2 →
  validate_field f data1 = validate_field f data2.
Proof. unfold validate_field. by intros ->. Qed.

(** X3. Validation looks at the members that the model declares, and at
    whether the object is [plain], and at nothing else: two objects that
    give the same value (or none) for each field of the model, both [plain]
    or neither, validate alike. In particular a member that the model does
    not declare is ignored, unless it is named [__pydantic_self__]. *)
Theorem validation_ignores_other_members fields members1 members2 :
  (plain members1 ↔ plain members2) →
  (∀ f, f ∈ fields → dict_get (name f) members1 = dict_get (name f) members2) →
  validate (JObj members1) fields = validate (JObj members2) fields.
Proof.
  intros Hplain Hagree.
  destruct (dict_get (py "__pydantic_self__") members1) as [v|] eqn:Hself.
  - rewrite !validate_not_plain; [done| |].
    + intros H2. apply Hplain in H2. unfold plain in H2. congruence.
    + unfold plain. congruence.
  - assert (plain members1) as H1 by done.
    assert (plain members2) as H2 by (by apply Hplain).
    rewrite (validate_plain _ _ H1), (validate_plain _ _ H2). clear H1 H2.
    assert (validate_model fields members1 = validate_model fields members2) as ->; [|done].
    clear Hplain Hself.
    induction fields as [|f fields IH]; simpl; [done|].
    rewrite (validate_field_agrees f members1 members2) by (apply Hagree; by left).
    rewrite IH; [done|]. intros g Hg. apply Hagree. by right.
Qed.

Lemma validation_ignores_other_members_witness :
  validate (JObj [(py "user_id", JInt 7); (py "title", JStr (py "Long enough title"));
                  (py "description", JStr (py "short"))]) CreateAdvertisement
  = validate (JObj [(py "title", JStr (py "Long enough title"));
                    (py "description", JStr (py "short"))]) CreateAdvertisement.
Proof.
  apply validation_ignores_other_members.
  - split; reflexivity.
  - intros f Hf. unfold CreateAdvertisement in Hf.
    repeat (apply elem_of_cons in Hf as [-> | Hf]); try reflexivity.
    by apply elem_of_nil in Hf.
Defined.

(** ** Stepping through the session *)

Lemma commit_cases {A} (statement : DB → (exn + A) * DB) st :
  commit statement st
  = if answers (this_round st) then
      ((statement (store (pass st))).1,
       {| store := (statement (store (pass st))).2; ahead := ahead (pass st) |})
    else (inl DBAPIError, pass st).
Proof.
  unfold commit, execute, mbind, M_bind. rewrite round_trip_answers.
  destruct (answers (this_round st)); [|done].
  by destruct (statement (store (pass st))).
Qed.

Lemma get_user_by_id item_id st :
  get_item_by_id item_id User_get st
  = if answers (this_round st) then
      match users (store (pass st)) !! item_id with
      | Some row =>
          (inr (load_user (place (this_round st)) (store (pass st)) item_id row), pass st)
      | None => (inl (HTTPNotFound item_doesnt_exist), pass st)
      end
    else (inl DBAPIError, pass st).
Proof.
  unfold get_item_by_id, User_get, mbind, M_bind, mret, M_ret, raise.
  rewrite select_answers. destruct (answers (this_round st)); [|done].
  by destruct (users (store (pass st)) !! item_id).
Qed.

Lemma validate_field_given f data s :
  given data (name f) = Some s →
  match class_validator f with
  | None => True
  | Some validator => validator s = inr s
  end →
  validate_field f data = Value (Some s).
Proof.
  unfold given, validate_field.
  destruct (dict_get (name f) data) as [raw|]; [|done].
  intros Hs Hvalidator.
  assert (str_validator raw = Some s) as Hstr by (by destruct raw).
  rewrite Hstr. destruct (class_validator f) as [validator|].
  - rewrite Hvalidator. by destruct raw.
  - by destruct raw.
Qed.


Lemma validate_CreateAdvertisement_given members title description :
  plain members →
  given members (py "title") = Some title →
  given members (py "description") = Some description →
  (8 ≤ len title)%nat → (5 ≤ len description)%nat →
  validate (JObj members) CreateAdvertisement
  = inr [(py "title", title); (py "description", description)].
Proof.
  intros Hplain Htitle Hdescription Hlen1 Hlen2. rewrite validate_plain by done.
  unfold CreateAdvertisement, validate_model.
  rewrite (validate_field_given _ _ title); [|done|].
  2: { simpl. unfold validate_title. by rewrite check_len_long. }
  rewrite (validate_field_given _ _ description); [done..|].
  simpl. unfold validate_description. by rewrite check_len_long.
Qed.

(** ** Registration *)





Lemma insert_user_duplicate email password d i u :
  storable email = true →
  users_id_seq d < INT_MAX →
  users d !! i = Some u →
  User.email u = email →
  insert_user (Some email) (Some password) d = (inl IntegrityError, nextval_users d).
Proof.
  intros Hstorable Hseq Hu Hemail. unfold insert_user. rewrite Hstorable. simpl.
  rewrite bool_decide_eq_false_2 by lia.
  case_bool_decide; [done|].
  rewrite bool_decide_eq_true_2; [done|]. by exists i, u.
Qed.

(** X5. A registration with the email of a user who is in the database
    when the row is inserted is answered 400, 'user is already exists', and
    writes no row, neither a user nor a token. The INSERT that is refused
    has drawn its id, which is burnt: the sequence is one further. *)
Theorem duplicate_email_is_refused draws request json_data email password st i u :
  body request = Some json_data →
  validate json_data CreateUser = inr [(py "email", email); (py "password", password)] →
  encode password = inr password →
  hashable password = true →
  storable email = true →
  this_round st ≠ Outage →
  users_id_seq (store (pass st)) < INT_MAX →
  users (store (pass st)) !! i = Some u →
  User.email u = email →
  serve (UserView_post draws) request st
  = (BadRequest user_already_exists,
     {| store := nextval_users (store (pass st)); ahead := ahead (pass st) |}).
Proof.
  intros Hbody Hv Hencode Hhash Hstorable Hround Hseq Hu Hemail.
  unfold serve, UserView_post, request_json. rewrite Hbody. run. rewrite Hv. simpl.
  rewrite Hencode, (bcrypt_hashpw_hashable _ _ Hhash).
  unfold except_IntegrityError. rewrite commit_cases.
  round st; [|done].
  by rewrite (insert_user_duplicate email _ _ i u Hstorable Hseq Hu Hemail).
Qed.

Lemma duplicate_email_is_refused_witness :
  let d :=
    {| users := {[ 1 := {| User.email := py "a@x.com";
                           User.password := hashpw (py "abcde") (py "salt");
                           User.created_at := 0 |} ]};
       advertisements := ∅;
       tokens := {[ 42%N := {| Token.created_at := 0; Token.user_id := Some 1 |} ]};
       users_id_seq := 1; advertisements_id_seq := 0; now := 0 |} in
  serve (UserView_post {| gensalt := py "pepper"; uuid4 := 43%N |})
        {| match_info := 0; headers := [];
           body := Some (JObj [(py "email", JStr (py "a@x.com"));
                               (py "password", JStr (py "fghij"))]) |}
        (alone d)
  = (BadRequest user_already_exists,
     alone {| users := users d; advertisements := ∅; tokens := tokens d;
              users_id_seq := 2; advertisements_id_seq := 0; now := 0 |}).
Proof.
  intros d.
  apply (duplicate_email_is_refused {| gensalt := py "pepper"; uuid4 := 43%N |}
           {| match_info := 0; headers := [];
              body := Some (JObj [(py "email", JStr (py "a@x.com"));
                                  (py "password", JStr (py "fghij"))]) |}
           (JObj [(py "email", JStr (py "a@x.com")); (py "password", JStr (py "fghij"))])
           (py "a@x.com") (py "fghij") (alone d) 1
           {| User.email := py "a@x.com";
              User.password := hashpw (py "abcde") (py "salt");
              User.created_at := 0 |});
    [reflexivity | reflexivity | reflexivity | reflexivity | reflexivity
    | discriminate | vm_compute; reflexivity | reflexivity | reflexivity].
Defined.

(** ** Bodies that are JSON but not objects *)

(** X6. A body that is JSON but not an object never reaches the database.
    The double star of the models raises a [TypeError] that nothing
    catches: both creations answer the plain 500. The PATCH first tests
    ['user_id' in input_data], which on a list looks for the element, on a
    string for the substring, and raises on anything else: it answers 400
    'owner cannot be changed' when the list or the string has it, and the
    plain 500 otherwise. *)
Theorem body_that_is_not_an_object UUID draws request input_data st :
  body request = Some input_data →
  (∀ members, input_data ≠ JObj members) →
  serve (UserView_post draws) request st = (InternalServerError, st) ∧
  serve (AdvertisementView_post UUID) request st = (InternalServerError, st) ∧
  serve (AdvertisementView_patch UUID) request st
  = (if match input_data with
        | JArr items =>
            existsb (λ item, match item with
                             | JStr s => bool_decide (s = py "user_id")
                             | _ => false
                             end) items
        | JStr s => contains s (py "user_id")
        | _ => false
        end
     then BadRequest owner_change_impossible
     else InternalServerError, st).
Proof.
  intros Hbody Hshape.
  assert (validate input_data CreateUser = inl TypeError) as Huser.
  { destruct input_data; try done. by destruct (Hshape members). }
  assert (validate input_data CreateAdvertisement = inl TypeError) as Hcreate.
  { destruct input_data; try done. by destruct (Hshape members). }
  assert (validate input_data UpdateAdvertisement = inl TypeError) as Hupdate.
  { destruct input_data; try done. by destruct (Hshape members). }
  split; [|split].
  - by rewrite (UserView_post_invalid _ _ _ _ _ Hbody Huser).
  - by rewrite (AdvertisementView_post_invalid _ _ _ _ _ Hbody Hcreate).
  - unfold serve, AdvertisementView_patch, request_json. rewrite Hbody. run.
    destruct input_data as [| | | |s|items|members]; try done.
    + simpl. by destruct (contains s (py "user_id")).
    + simpl. by destruct (existsb _ items).
    + by destruct (Hshape members).
Qed.

Lemma body_that_is_not_an_object_witness :
  let request := {| match_info := 1; headers := [];
                    body := Some (JArr [JStr (py "title"); JStr (py "user_id")]) |} in
  serve (UserView_post {| gensalt := py "salt"; uuid4 := 42%N |}) request (alone empty_DB)
  = (InternalServerError, alone empty_DB) ∧
  serve (AdvertisementView_post UUID_hex) request (alone empty_DB)
  = (InternalServerError, alone empty_DB) ∧
  serve (AdvertisementView_patch UUID_hex) request (alone empty_DB)
  = (BadRequest owner_change_impossible, alone empty_DB).
Proof.
  intros request.
  destruct (body_that_is_not_an_object UUID_hex {| gensalt := py "salt"; uuid4 := 42%N |}
              request (JArr [JStr (py "title"); JStr (py "user_id")]) (alone empty_DB))
    as (Huser & Hcreate & Hpatch).
  - reflexivity.
  - discriminate.
  - split; [exact Huser|]. split; [exact Hcreate|]. rewrite Hpatch. reflexivity.
Defined.

(** ** Tokens that the table does not have *)

Lemma get_token_by_id UUID text st :
  get_item_by_id text (Token_get UUID) st
  = match UUID text with
    | None => (inl DBAPIError, st)
    | Some key =>
        if answers (this_round st) then
          match tokens (store (pass st)) !! key with
          | Some row => (inr (Token.Build_t key row), pass st)
          | None => (inl (HTTPNotFound item_doesnt_exist), pass st)
          end
        else (inl DBAPIError, pass st)
    end.
Proof.
  unfold get_item_by_id, Token_get, mbind, M_bind, mret, M_ret, raise.
  destruct (UUID text) as [key|]; [|done].
  rewrite select_answers. destruct (answers (this_round st)); [|done].
  by destruct (tokens (store (pass st)) !! key).
Qed.

(** The creation of an advertisement once its body has validated. *)
Lemma AdvertisementView_post_validated UUID request input_data validated_data st :
  body request = Some input_data →
  validate input_data CreateAdvertisement = inr validated_data →
  AdvertisementView_post UUID request st
  = match dict_get (py "token") (headers request) with
    | None => (inl (KeyError (py "token")), st)
    | Some text =>
        match get_item_by_id text (Token_get UUID) st with
        | (inl e, st1) => (inl e, st1)
        | (inr token_owner, st1) =>
            match
              except_IntegrityError
                (commit (insert_advertisement
                           (dict_get (py "title") validated_data)
                           (dict_get (py "description") validated_data)
                           (Token.user_id (Token.values token_owner))))
                (user_id ← match input_data with
                           | JObj members => getitem members (py "user_id")
                           | _ => raise TypeError
                           end;
                 raise (HTTPBadRequest (user_doesnt_exist user_id))) st1
            with
            | (inl e, st2) => (inl e, st2)
            | (inr new, st2) =>
                (inr (adv_created (Advertisement.id new)
                                  (Advertisement.title (Advertisement.values new))
                                  (Advertisement.user_id (Advertisement.values new))),
                 st2)
            end
        end
    end.
Proof.
  intros Hbody Hv. unfold AdvertisementView_post, request_json. rewrite Hbody.
  unfold getitem, lift, raise, mbind, M_bind, mret, M_ret. cbv beta iota. rewrite Hv.
  destruct (dict_get (py "token") (headers request)) as [text|]; [|done].
  destruct (get_item_by_id text (Token_get UUID) st) as [[e|token_owner] st1]; [done|].
  by destruct (except_IntegrityError _ _ st1) as [[e|new] st2].
Qed.

(** X7. A token that the column can read but that is not in [tokens] when
    it is looked up is answered 404, 'item doesn`t exist', and nothing is
    written: by the creation of an advertisement whose body validates, and
    by the deletion or the update (its body having passed) of an
    advertisement that exists. *)
Theorem unknown_token_is_not_found UUID request st text key :
  dict_get (py "token") (headers request) = Some text →
  UUID text = Some key →
  (∀ input_data validated_data,
     body request = Some input_data →
     validate input_data CreateAdvertisement = inr validated_data →
     this_round st ≠ Outage →
     tokens (store (pass st)) !! key = None →
     serve (AdvertisementView_post UUID) request st
     = (NotFound item_doesnt_exist, pass st)) ∧
  (∀ adv,
     this_round st ≠ Outage →
     advertisements (store (pass st)) !! match_info request = Some adv →
     this_round (pass st) ≠ Outage →
     tokens (store (pass (pass st))) !! key = None →
     serve (AdvertisementView_delete UUID) request st
     = (NotFound item_doesnt_exist, pass (pass st)) ∧
     ∀ input_data validated_data,
       body request = Some input_data →
       user_id_in input_data = inr false →
       validate input_data UpdateAdvertisement = inr validated_data →
       serve (AdvertisementView_patch UUID) request st
       = (NotFound item_doesnt_exist, pass (pass st))).
Proof.
  intros Htext Hkey. split.
  - intros input_data validated_data Hbody Hv Hround Htoken.
    unfold serve. rewrite (AdvertisementView_post_validated _ _ _ _ _ Hbody Hv).
    rewrite Htext, get_token_by_id, Hkey.
    round st; [|done]. by rewrite Htoken.
  - intros adv Hround1 Hadv Hround2 Htoken.
    assert (check_token_in_headers UUID (Advertisement.Build_t (match_info request) adv)
              request (pass st)
            = (inl (HTTPNotFound item_doesnt_exist), pass (pass st))) as Hcheck.
    { rewrite check_token_in_headers_cases, Htext, Hkey.
      round (pass st); [|done]. by rewrite Htoken. }
    assert (get_item_by_id (match_info request) Advertisement_get st
            = (inr (Advertisement.Build_t (match_info request) adv), pass st)) as Hget.
    { rewrite get_advertisement_by_id. round st; [|done]. by rewrite Hadv. }
    split.
    + unfold serve, AdvertisementView_delete, mbind, M_bind. by rewrite Hget, Hcheck.
    + intros input_data validated_data Hbody Hin Hv.
      unfold serve, AdvertisementView_patch, request_json. rewrite Hbody.
      unfold mbind, M_bind, mret, M_ret, lift. rewrite Hin, Hv.
      by rewrite Hget, Hcheck.
Qed.

Lemma unknown_token_is_not_found_witness :
  let d :=
    {| users := {[ 1 := {| User.email := py "a@x.com";
                           User.password := hashpw (py "abcde") (py "salt");
                           User.created_at := 0 |} ]};
       advertisements :=
         {[ 1 := {| Advertisement.title := py "Long enough title";
                    Advertisement.description := py "short";
                    Advertisement.created_at := 0;
                    Advertisement.user_id := Some 1 |} ]};
       tokens := {[ 42%N := {| Token.created_at := 0; Token.user_id := Some 1 |} ]};
       users_id_seq := 1; advertisements_id_seq := 1; now := 0 |} in
  let input_data := JObj [(py "title", JStr (py "Updated title!!"));
                          (py "description", JStr (py "other"))] in
  let request :=
    {| match_info := 1;
       headers := [(py "token", py "00000000-0000-0000-0000-00000000002b")];
       body := Some input_data |} in
  serve (AdvertisementView_post UUID_hex) request (alone d)
  = (NotFound item_doesnt_exist, alone d) ∧
  serve (AdvertisementView_delete UUID_hex) request (alone d)
  = (NotFound item_doesnt_exist, alone d) ∧
  serve (AdvertisementView_patch UUID_hex) request (alone d)
  = (NotFound item_doesnt_exist, alone d).
Proof.
  intros d input_data request.
  destruct (unknown_token_is_not_found UUID_hex request (alone d)
              (py "00000000-0000-0000-0000-00000000002b") 43%N eq_refl eq_refl)
    as [Hpost Hrest].
  destruct (Hrest {| Advertisement.title := py "Long enough title";
                     Advertisement.description := py "short";
                     Advertisement.created_at := 0;
                     Advertisement.user_id := Some 1 |})
    as [Hdelete Hpatch]; [discriminate | reflexivity | discriminate | reflexivity |].
  split; [|split].
  - apply (Hpost input_data
                 [(py "title", py "Updated title!!"); (py "description", py "other")]);
      [reflexivity | reflexivity | discriminate | reflexivity].
  - exact Hdelete.
  - apply (Hpatch input_data
                  [(py "title", py "Updated title!!"); (py "description", py "other")]);
      reflexivity.
Defined.

(** ** Advertisements created, read and deleted *)

Lemma serve_get_advertisement request st :
  serve AdvertisementView_get request st
  = if answers (this_round st) then
      match advertisements (store (pass st)) !! match_info request with
      | Some row =>
          (OK (adv_info (match_info request) (Advertisement.title row)
                        (Advertisement.description row)
                        (Advertisement.created_at row)
                        (Advertisement.user_id row)), pass st)
      | None => (NotFound item_doesnt_exist, pass st)
      end
    else (InternalServerError, pass st).
Proof.
  unfold serve, AdvertisementView_get, mbind, M_bind.
  rewrite get_advertisement_by_id.
  destruct (answers (this_round st)); [|done].
  by destruct (advertisements (store (pass st)) !! match_info request).
Qed.

Lemma insert_advertisement_fresh title stored description user_id d :
  storable title = true →
  storable description = true →
  String_100 title = Some stored →
  advertisements_id_seq d < INT_MAX →
  advertisements d !! (advertisements_id_seq d + 1) = None →
  references_user user_id d = true →
  insert_advertisement (Some title) (Some description) user_id d
  = (inr {| Advertisement.id := advertisements_id_seq d + 1;
            Advertisement.values :=
              {| Advertisement.title := title;
                 Advertisement.description := description;
                 Advertisement.created_at := now d;
                 Advertisement.user_id := user_id |} |},
     {| users := users d;
        advertisements :=
          <[advertisements_id_seq d + 1 :=
              {| Advertisement.title := stored;
                 Advertisement.description := description;
                 Advertisement.created_at := now d;
                 Advertisement.user_id := user_id |}]>
            (advertisements d);
        tokens := tokens d;
        users_id_seq := users_id_seq d;
        advertisements_id_seq := advertisements_id_seq d + 1;
        now := now d |}).
Proof.
  intros Hst Hsd Hstored Hseq Hfree Hreferences.
  unfold insert_advertisement. rewrite Hst, Hsd, Hstored. simpl.
  rewrite bool_decide_eq_false_2 by lia.
  rewrite bool_decide_eq_false_2 by (rewrite Hfree; by intros [? ?]).
  by rewrite Hreferences.
Qed.

Lemma serve_AdvertisementView_post_alone
    UUID request members title stored description text key token d :
  body request = Some (JObj members) →
  plain members →
  given members (py "title") = Some title →
  given members (py "description") = Some description →
  (8 ≤ len title)%nat →
  (5 ≤ len description)%nat →
  storable title = true →
  storable description = true →
  String_100 title = Some stored →
  dict_get (py "token") (headers request) = Some text →
  UUID text = Some key →
  tokens d !! key = Some token →
  references_user (Token.user_id token) d = true →
  advertisements_id_seq d < INT_MAX →
  advertisements d !! (advertisements_id_seq d + 1) = None →
  serve (AdvertisementView_post UUID) request (alone d)
  = (OK (adv_created (advertisements_id_seq d + 1) title (Token.user_id token)),
     alone {| users := users d;
              advertisements :=
                <[advertisements_id_seq d + 1 :=
                    {| Advertisement.title := stored;
                       Advertisement.description := description;
                       Advertisement.created_at := now d;
                       Advertisement.user_id := Token.user_id token |}]>
                  (advertisements d);
              tokens := tokens d;
              users_id_seq := users_id_seq d;
              advertisements_id_seq := advertisements_id_seq d + 1;
              now := now d |}).
Proof.
  intros Hbody Hplain Htitle Hdescription Hlen8 Hlen5 Hst Hsd Hstored Htext Hkey Htoken
         Howner Hseq Hfree.
  pose proof (validate_CreateAdvertisement_given _ _ _ Hplain Htitle Hdescription
                Hlen8 Hlen5) as Hv.
  unfold serve. rewrite (AdvertisementView_post_validated _ _ _ _ _ Hbody Hv).
  rewrite Htext, get_token_by_id, Hkey.
  change (this_round (alone d)) with quiet. unfold quiet.
  change (pass (alone d)) with (alone d). change (store (alone d)) with d. cbn [answers].
  rewrite Htoken.
  unfold except_IntegrityError. rewrite commit_alone.
  cbn [dict_get Token.values]. rewrite !decide_True by done.
  rewrite decide_False by (by vm_compute). rewrite decide_True by done.
  by rewrite (insert_advertisement_fresh title stored description _ d).
Qed.

(** X8. An advertisement is created, alone with the database, by a [plain]
    body whose title (at least 8 characters, and one that its column
    takes) and description (at least 5) can be stored and a token that is
    in [tokens], the sequence having an id left: the answer carries the
    next id of the sequence, the title given and the user of the token;
    the database gains that one row, owned by the user of the token, with
    what the column stores of the title; and a GET of the id then reads
    back that title, the description and the owner. *)
Theorem created_advertisement_is_read_back
    UUID request members title stored description text key token d :
  body request = Some (JObj members) →
  plain members →
  given members (py "title") = Some title →
  given members (py "description") = Some description →
  (8 ≤ len title)%nat →
  (5 ≤ len description)%nat →
  storable title = true →
  storable description = true →
  String_100 title = Some stored →
  dict_get (py "token") (headers request) = Some text →
  UUID text = Some key →
  tokens d !! key = Some token →
  references_user (Token.user_id token) d = true →
  advertisements_id_seq d < INT_MAX →
  advertisements d !! (advertisements_id_seq d + 1) = None →
  let id := advertisements_id_seq d + 1 in
  let row := {| Advertisement.title := stored;
                Advertisement.description := description;
                Advertisement.created_at := now d;
                Advertisement.user_id := Token.user_id token |} in
  let d' := {| users := users d;
               advertisements := <[id := row]> (advertisements d);
               tokens := tokens d;
               users_id_seq := users_id_seq d;
               advertisements_id_seq := id;
               now := now d |} in
  serve (AdvertisementView_post UUID) request (alone d)
  = (OK (adv_created id title (Token.user_id token)), alone d') ∧
  ∀ request',
    match_info request' = id →
    serve AdvertisementView_get request' (alone d')
    = (OK (adv_info id stored description (now d) (Token.user_id token)), alone d').
Proof.
  intros Hbody Hplain Htitle Hdescription Hlen Hlen5 Hst Hsd Hstored Htext Hkey Htoken
         Howner Hseq Hfree id row d'.
  split.
  - by apply (serve_AdvertisementView_post_alone _ _ members _ _ description text key).
  - intros request' Hid. rewrite serve_get_advertisement.
    change (this_round (alone d')) with quiet. unfold quiet.
    change (pass (alone d')) with (alone d'). change (store (alone d')) with d'.
    cbn [answers].
    rewrite Hid. unfold d'. simpl. by rewrite lookup_insert_eq.
Qed.

Lemma created_advertisement_is_read_back_witness :
  let d :=
    {| users := {[ 1 := {| User.email := py "a@x.com";
                           User.password := hashpw (py "abcde") (py "salt");
                           User.created_at := 0 |} ]};
       advertisements := ∅;
       tokens := {[ 42%N := {| Token.created_at := 0; Token.user_id := Some 1 |} ]};
       users_id_seq := 1; advertisements_id_seq := 0; now := 0 |} in
  let title := replicate 100 84%N ++ py "  " in
  let request :=
    {| match_info := 0;
       headers := [(py "token", py "00000000-0000-0000-0000-00000000002a")];
       body := Some (JObj [(py "title", JStr title);
                           (py "description", JStr (py "short"))]) |} in
  (serve (AdvertisementView_post UUID_hex) request (alone d)).1
  = OK (adv_created 1 title (Some 1)) ∧
  (serve AdvertisementView_get {| match_info := 1; headers := []; body := None |}
         (serve (AdvertisementView_post UUID_hex) request (alone d)).2).1
  = OK (adv_info 1 (replicate 100 84%N) (py "short") 0 (Some 1)).
Proof.
  intros d title request.
  destruct (created_advertisement_is_read_back UUID_hex request
              [(py "title", JStr title); (py "description", JStr (py "short"))]
              title (replicate 100 84%N) (py "short")
              (py "00000000-0000-0000-0000-00000000002a") 42%N
              {| Token.created_at := 0; Token.user_id := Some 1 |} d)
    as [Hpost Hget];
    [reflexivity | reflexivity | reflexivity | reflexivity | vm_compute; lia
    | reflexivity | reflexivity | reflexivity | reflexivity | reflexivity
    | reflexivity | reflexivity | reflexivity | reflexivity | reflexivity |].
  rewrite Hpost. split; [reflexivity|].
  exact (f_equal fst (Hget {| match_info := 1; headers := []; body := None |} eq_refl)).
Defined.

(** X9. The owner deletes: alone with the database, the DELETE of an
    advertisement that exists, with a token of [tokens] whose [user_id]
    equals that of the advertisement, is served; the row is removed and
    nothing else changes; a GET of the id is then answered 404. *)
Theorem owner_deletes_the_advertisement UUID request d adv text key token :
  advertisements d !! match_info request = Some adv →
  dict_get (py "token") (headers request) = Some text →
  UUID text = Some key →
  tokens d !! key = Some token →
  Advertisement.user_id adv = Token.user_id token →
  let d' := {| users := users d;
               advertisements := delete (match_info request) (advertisements d);
               tokens := tokens d;
               users_id_seq := users_id_seq d;
               advertisements_id_seq := advertisements_id_seq d;
               now := now d |} in
  serve (AdvertisementView_delete UUID) request (alone d)
  = (OK (adv_deleted (match_info request) (Advertisement.title adv)), alone d') ∧
  serve AdvertisementView_get request (alone d') = (NotFound item_doesnt_exist, alone d').
Proof.
  intros Hadv Htext Hkey Htoken Howner d'. split.
  - unfold serve, AdvertisementView_delete, mbind, M_bind.
    rewrite get_advertisement_by_id.
    change (this_round (alone d)) with quiet. unfold quiet.
    change (pass (alone d)) with (alone d). change (store (alone d)) with d. cbn [answers].
    rewrite Hadv, check_token_in_headers_cases, Htext, Hkey.
    change (this_round (alone d)) with quiet. unfold quiet.
    change (pass (alone d)) with (alone d). change (store (alone d)) with d. cbn [answers].
    rewrite Htoken. rewrite decide_True by done.
    by rewrite commit_alone.
  - rewrite serve_get_advertisement.
    change (this_round (alone d')) with quiet. unfold quiet.
    change (pass (alone d')) with (alone d'). change (store (alone d')) with d'. cbn [answers].
    unfold d'. simpl. by rewrite lookup_delete_eq.
Qed.

Lemma owner_deletes_the_advertisement_witness :
  let d :=
    {| users := {[ 1 := {| User.email := py "a@x.com";
                           User.password := hashpw (py "abcde") (py "salt");
                           User.created_at := 0 |} ]};
       advertisements :=
         {[ 1 := {| Advertisement.title := py "Long enough title";
                    Advertisement.description := py "short";
                    Advertisement.created_at := 0;
                    Advertisement.user_id := Some 1 |} ]};
       tokens := {[ 42%N := {| Token.created_at := 0; Token.user_id := Some 1 |} ]};
       users_id_seq := 1; advertisements_id_seq := 1; now := 0 |} in
  let request :=
    {| match_info := 1;
       headers := [(py "token", py "00000000-0000-0000-0000-00000000002a")];
       body := None |} in
  (serve (AdvertisementView_delete UUID_hex) request (alone d)).1
  = OK (adv_deleted 1 (py "Long enough title")) ∧
  advertisements (store (serve (AdvertisementView_delete UUID_hex) request (alone d)).2)
  = ∅.
Proof.
  intros d request.
  destruct (owner_deletes_the_advertisement UUID_hex request d
              {| Advertisement.title := py "Long enough title";
                 Advertisement.description := py "short";
                 Advertisement.created_at := 0;
                 Advertisement.user_id := Some 1 |}
              (py "00000000-0000-0000-0000-00000000002a") 42%N
              {| Token.created_at := 0; Token.user_id := Some 1 |})
    as [Hdelete _]; try reflexivity.
  rewrite Hdelete. split; vm_compute; reflexivity.
Defined.

(** ** The owner's update *)

Lemma update_advertisement_fits id row row' d :
  advertisements d !! id = Some row →
  (Advertisement.title row' ≠ Advertisement.title row →
   storable (Advertisement.title row') = true ∧
   is_Some (String_100 (Advertisement.title row'))) →
  (Advertisement.description row' ≠ Advertisement.description row →
   storable (Advertisement.description row') = true) →
  (update_advertisement (Advertisement.Build_t id row)
                        (Advertisement.Build_t id row') d).1
  = inr tt.
Proof.
  intros Hrow Htitle Hdescription. unfold update_advertisement, dirty. simpl.
  destruct (decide (Advertisement.title row' = Advertisement.title row)) as [?|Ht],
           (decide (Advertisement.description row' = Advertisement.description row))
             as [?|Hd]; simpl.
  - done.
  - rewrite Hrow, ?column_value_description, (Hdescription Hd). done.
  - rewrite Hrow, ?column_value_title. destruct (Htitle Ht) as [-> [stored ->]]. done.
  - rewrite Hrow, ?column_value_title, ?column_value_description, (Hdescription Hd).
    destruct (Htitle Ht) as [-> [stored ->]]. done.
Qed.

(** X10. The owner updates: alone with the database, a PATCH whose body
    is an object without [user_id] that validates, on an advertisement that
    exists (and that its column can hold), with a token of [tokens] whose
    [user_id] equals that of the advertisement, is served when the values
    given can be stored and the column takes the title given; the answer
    echoes the body, and the row takes the values given, of a title what
    the column stores of it, the rest of the database being as before. *)
Theorem owner_update_is_served UUID request members validated_data d row text key token :
  body request = Some (JObj members) →
  dict_get (py "user_id") members = None →
  validate (JObj members) UpdateAdvertisement = inr validated_data →
  (∀ title, given members (py "title") = Some title →
            storable title = true ∧ is_Some (String_100 title)) →
  (∀ description, given members (py "description") = Some description →
                  storable description = true) →
  advertisements d !! match_info request = Some row →
  (len (Advertisement.title row) ≤ 100)%nat →
  dict_get (py "token") (headers request) = Some text →
  UUID text = Some key →
  tokens d !! key = Some token →
  Advertisement.user_id row = Token.user_id token →
  serve (AdvertisementView_patch UUID) request (alone d)
  = (OK (adv_updated (match_info request) (JObj members)),
     alone {| users := users d;
              advertisements :=
                <[match_info request :=
                    {| Advertisement.title :=
                         from_option (take 100) (Advertisement.title row)
                                     (given members (py "title"));
                       Advertisement.description :=
                         default (Advertisement.description row)
                                 (given members (py "description"));
                       Advertisement.created_at := Advertisement.created_at row;
                       Advertisement.user_id := Advertisement.user_id row |}]>
                  (advertisements d);
              tokens := tokens d;
              users_id_seq := users_id_seq d;
              advertisements_id_seq := advertisements_id_seq d;
              now := now d |}).
Proof.
  intros Hbody Huid Hv Htitle Hdescription Hrow Hfits Htext Hkey Htoken Howner.
  pose proof Hv as (members' & [= <-] & _ & -> & _)%validate_UpdateAdvertisement_shape.
  assert ((update_advertisement
             (Advertisement.Build_t (match_info request) row)
             (Advertisement.Build_t (match_info request) (patched row members)) d).1
          = inr tt) as Hupdate.
  { apply update_advertisement_fits; [done| |].
    - unfold patched. simpl. destruct (given members (py "title")) as [title|]; [|done].
      intros _. by apply Htitle.
    - unfold patched. simpl.
      destruct (given members (py "description")) as [description|]; [|done].
      intros _. by apply Hdescription. }
  destruct (update_advertisement _ _ d) as [outcome d'] eqn:Hrun.
  simpl in Hupdate. subst outcome.
  pose proof Hrun as [_ ->]%update_advertisement_alone; [|done..].
  unfold serve, AdvertisementView_patch, request_json. rewrite Hbody.
  unfold mbind, M_bind, mret, M_ret, lift, raise. cbv beta iota.
  assert (user_id_in (JObj members) = inr false) as ->.
  { simpl. rewrite Huid. by rewrite bool_decide_eq_false_2 by (by intros [? ?]). }
  rewrite Hv, get_advertisement_by_id.
  change (this_round (alone d)) with quiet. unfold quiet.
  change (pass (alone d)) with (alone d). change (store (alone d)) with d. cbn [answers].
  rewrite Hrow, check_token_in_headers_cases, Htext, Hkey.
  change (this_round (alone d)) with quiet. unfold quiet.
  change (pass (alone d)) with (alone d). change (store (alone d)) with d. cbn [answers].
  rewrite Htoken. rewrite decide_True by done.
  by rewrite setattr_given, commit_alone, Hrun.
Qed.

Lemma owner_update_is_served_witness :
  let d :=
    {| users := {[ 1 := {| User.email := py "a@x.com";
                           User.password := hashpw (py "abcde") (py "salt");
                           User.created_at := 0 |} ]};
       advertisements :=
         {[ 1 := {| Advertisement.title := py "Long enough title";
                    Advertisement.description := py "short";
                    Advertisement.created_at := 0;
                    Advertisement.user_id := Some 1 |} ]};
       tokens := {[ 42%N := {| Token.created_at := 0; Token.user_id := Some 1 |} ]};
       users_id_seq := 1; advertisements_id_seq := 1; now := 0 |} in
  let members := [(py "title", JStr (replicate 100 84%N ++ py " "));
                  (py "description", JStr (py "other text"))] in
  let request :=
    {| match_info := 1;
       headers := [(py "token", py "00000000-0000-0000-0000-00000000002a")];
       body := Some (JObj members) |} in
  serve (AdvertisementView_patch UUID_hex) request (alone d)
  = (OK (adv_updated 1 (JObj members)),
     alone {| users := users d;
              advertisements :=
                <[ 1 := {| Advertisement.title := replicate 100 84%N;
                           Advertisement.description := py "other text";
                           Advertisement.created_at := 0;
                           Advertisement.user_id := Some 1 |} ]> (advertisements d);
              tokens := tokens d;
              users_id_seq := 1; advertisements_id_seq := 1; now := 0 |}).
Proof.
  intros d members request.
  apply (owner_update_is_served UUID_hex request members
           [(py "title", replicate 100 84%N ++ py " "); (py "description", py "other text")]
           d
           {| Advertisement.title := py "Long enough title";
              Advertisement.description := py "short";
              Advertisement.created_at := 0;
              Advertisement.user_id := Some 1 |}
           (py "00000000-0000-0000-0000-00000000002a") 42%N
           {| Token.created_at := 0; Token.user_id := Some 1 |});
    [reflexivity | reflexivity | reflexivity | | | reflexivity | vm_compute; lia
    | reflexivity | reflexivity | reflexivity | reflexivity].
  - intros title [= <-]. split; [reflexivity|]. eexists. reflexivity.
  - intros description [= <-]. reflexivity.
Defined.

(** ** The creation of an advertisement whose owner is gone *)

Lemma insert_advertisement_orphan title description owner d :
  storable title = true →
  storable description = true →
  is_Some (String_100 title) →
  advertisements_id_seq d < INT_MAX →
  users d !! owner = None →
  insert_advertisement (Some title) (Some description) (Some owner) d
  = (inl IntegrityError, nextval_advertisements d).
Proof.
  intros Hst Hsd [stored Hstored] Hseq Hgone.
  unfold insert_advertisement. rewrite Hst, Hsd, Hstored. simpl.
  rewrite bool_decide_eq_false_2 by lia.
  case_bool_decide; [done|].
  rewrite Hgone. by rewrite bool_decide_eq_false_2 by (by intros [? ?]).
Qed.

(** X11. The token is in [tokens] and names a user who is no longer in
    [users] when the advertisement is inserted (the body being [plain] and
    one that validates, its texts ones that can be stored, the sequence
    having an id left): the insertion fails on its foreign key (or on its
    key), no row is inserted, the id that was drawn is burnt, and the
    answer depends on the body alone. It is the plain 500 when the body
    has no [user_id] member, which a body that creates an advertisement
    need not have; and when it has one, a 400 that names the value of that
    member, whoever the user of the token is. *)
Theorem creation_by_a_vanished_owner
    UUID request members title description st text key token owner :
  body request = Some (JObj members) →
  plain members →
  given members (py "title") = Some title →
  given members (py "description") = Some description →
  (8 ≤ len title)%nat →
  (5 ≤ len description)%nat →
  storable title = true →
  storable description = true →
  is_Some (String_100 title) →
  dict_get (py "token") (headers request) = Some text →
  UUID text = Some key →
  this_round st ≠ Outage →
  tokens (store (pass st)) !! key = Some token →
  Token.user_id token = Some owner →
  this_round (pass st) ≠ Outage →
  users (store (pass (pass st))) !! owner = None →
  advertisements_id_seq (store (pass (pass st))) < INT_MAX →
  serve (AdvertisementView_post UUID) request st
  = (match dict_get (py "user_id") members with
     | Some user_id => BadRequest (user_doesnt_exist user_id)
     | None => InternalServerError
     end,
     {| store := nextval_advertisements (store (pass (pass st)));
        ahead := ahead (pass (pass st)) |}).
Proof.
  intros Hbody Hplain Htitle Hdescription Hlen8 Hlen5 Hst Hsd Hfits Htext Hkey
         Hround1 Htoken Howner Hround2 Hgone Hseq.
  pose proof (validate_CreateAdvertisement_given _ _ _ Hplain Htitle Hdescription
                Hlen8 Hlen5) as Hv.
  unfold serve. rewrite (AdvertisementView_post_validated _ _ _ _ _ Hbody Hv).
  rewrite Htext, get_token_by_id, Hkey.
  round st; [|done]. rewrite Htoken.
  unfold except_IntegrityError. rewrite commit_cases.
  round (pass st); [|done].
  cbn [dict_get Token.values]. rewrite !decide_True by done.
  rewrite decide_False by (by vm_compute). rewrite decide_True by done.
  rewrite Howner.
  rewrite (insert_advertisement_orphan title description owner _ Hst Hsd Hfits Hseq Hgone).
  cbn [fst snd].
  unfold mbind, M_bind, getitem, raise, mret, M_ret.
  by destruct (dict_get (py "user_id") members).
Qed.

Lemma creation_by_a_vanished_owner_witness :
  let d :=
    {| users := {[ 1 := {| User.email := py "a@x.com";
                           User.password := hashpw (py "abcde") (py "salt");
                           User.created_at := 0 |} ]};
       advertisements := ∅;
       tokens := {[ 42%N := {| Token.created_at := 0; Token.user_id := Some 1 |} ]};
       users_id_seq := 1; advertisements_id_seq := 0; now := 0 |} in
  let delete_user_1 (d : DB) : DB :=
    store (serve UserView_delete {| match_info := 1; headers := []; body := None |}
                 (alone d)).2 in
  let members := [(py "title", JStr (py "Long enough title"));
                  (py "description", JStr (py "short")); (py "user_id", JInt 7)] in
  let request :=
    {| match_info := 0;
       headers := [(py "token", py "00000000-0000-0000-0000-00000000002a")];
       body := Some (JObj members) |} in
  let outcome :=
    serve (AdvertisementView_post UUID_hex) request
          {| store := d; ahead := [quiet; Meanwhile delete_user_1] |} in
  outcome.1 = BadRequest (user_doesnt_exist (JInt 7)) ∧
  advertisements (store outcome.2) = ∅ ∧
  advertisements_id_seq (store outcome.2) = 1.
Proof.
  intros d delete_user_1 members request outcome. unfold outcome.
  rewrite (creation_by_a_vanished_owner UUID_hex request members
             (py "Long enough title") (py "short")
             {| store := d; ahead := [quiet; Meanwhile delete_user_1] |}
             (py "00000000-0000-0000-0000-00000000002a") 42%N
             {| Token.created_at := 0; Token.user_id := Some 1 |} 1);
    [ | reflexivity | reflexivity | reflexivity | reflexivity | vm_compute; lia
    | reflexivity | reflexivity | reflexivity | eexists; reflexivity | reflexivity
    | reflexivity | discriminate | reflexivity | reflexivity | discriminate
    | vm_compute; reflexivity | vm_compute; reflexivity ].
  repeat split; vm_compute; reflexivity.
Defined.

(** ** Looking up *)

(** X12. The GET handlers read and never write: the state they leave is
    the initial one ([get_hello]), or the initial one after the round of
    their one lookup. An advertisement that is there is answered with its
    id, title, description, date and owner; an id that is an int4 and is
    in neither table is answered 404, 'item doesn`t exist'; and a lookup
    during an outage gets the plain 500. *)
Theorem lookups_answer_and_write_nothing request st :
  serve get_hello request st = (OK status_OKS, st) ∧
  (serve UserView_get request st).2 = pass st ∧
  (serve AdvertisementView_get request st).2 = pass st ∧
  (∀ row,
     this_round st ≠ Outage →
     advertisements (store (pass st)) !! match_info request = Some row →
     (serve AdvertisementView_get request st).1
     = OK (adv_info (match_info request) (Advertisement.title row)
                    (Advertisement.description row) (Advertisement.created_at row)
                    (Advertisement.user_id row))) ∧
  (this_round st ≠ Outage →
   match_info request ≤ INT_MAX →
   advertisements (store (pass st)) !! match_info request = None →
   (serve AdvertisementView_get request st).1 = NotFound item_doesnt_exist) ∧
  (this_round st ≠ Outage →
   match_info request ≤ INT_MAX →
   users (store (pass st)) !! match_info request = None →
   (serve UserView_get request st).1 = NotFound item_doesnt_exist) ∧
  (this_round st = Outage →
   (serve UserView_get request st).1 = InternalServerError ∧
   (serve AdvertisementView_get request st).1 = InternalServerError).
Proof.
  assert (serve UserView_get request st
          = if answers (this_round st) then
              match users (store (pass st)) !! match_info request with
              | Some row =>
                  (OK (user_info (match_info request) (User.email row)
                         (User.created_at row)
                         (str_list Advertisement.repr
                            (advs_of (place (this_round st)) (store (pass st))
                                     (match_info request)))),
                   pass st)
              | None => (NotFound item_doesnt_exist, pass st)
              end
            else (InternalServerError, pass st)) as Huser.
  { unfold serve, UserView_get, mbind, M_bind. rewrite get_user_by_id.
    destruct (answers (this_round st)); [|done].
    by destruct (users (store (pass st)) !! match_info request). }
  rewrite Huser, serve_get_advertisement.
  split_and!.
  - done.
  - destruct (answers (this_round st)); [|done].
    by destruct (users (store (pass st)) !! match_info request).
  - destruct (answers (this_round st)); [|done].
    by destruct (advertisements (store (pass st)) !! match_info request).
  - intros row Hround Hrow. round st; [|done]. by rewrite Hrow.
  - intros Hround _ Hrow. round st; [|done]. by rewrite Hrow.
  - intros Hround _ Hrow. round st; [|done]. by rewrite Hrow.
  - by intros ->.
Qed.

Lemma lookups_answer_and_write_nothing_witness :
  let d :=
    {| users := {[ 1 := {| User.email := py "a@x.com";
                           User.password := hashpw (py "abcde") (py "salt");
                           User.created_at := 0 |} ]};
       advertisements :=
         {[ 1 := {| Advertisement.title := py "Long enough title";
                    Advertisement.description := py "short";
                    Advertisement.created_at := 3;
                    Advertisement.user_id := Some 1 |} ]};
       tokens := {[ 42%N := {| Token.created_at := 0; Token.user_id := Some 1 |} ]};
       users_id_seq := 1; advertisements_id_seq := 1; now := 5 |} in
  (serve AdvertisementView_get {| match_info := 1; headers := []; body := None |}
         (alone d)).1
  = OK (adv_info 1 (py "Long enough title") (py "short") 3 (Some 1)) ∧
  (serve AdvertisementView_get {| match_info := 7; headers := []; body := None |}
         (alone d)).1 = NotFound item_doesnt_exist ∧
  (serve UserView_get {| match_info := 7; headers := []; body := None |}
         (alone d)).1 = NotFound item_doesnt_exist ∧
  (serve UserView_get {| match_info := 1; headers := []; body := None |}
         {| store := d; ahead := [Outage] |}).1 = InternalServerError.
Proof.
  intros d.
  destruct (lookups_answer_and_write_nothing
              {| match_info := 1; headers := []; body := None |} (alone d))
    as (_ & _ & _ & Hfound & _).
  destruct (lookups_answer_and_write_nothing
              {| match_info := 7; headers := []; body := None |} (alone d))
    as (_ & _ & _ & _ & Hadvertisement & Huser & _).
  destruct (lookups_answer_and_write_nothing
              {| match_info := 1; headers := []; body := None |}
              {| store := d; ahead := [Outage] |})
    as (_ & _ & _ & _ & _ & _ & Houtage).
  split_and!.
  - apply (Hfound {| Advertisement.title := py "Long enough title";
                     Advertisement.description := py "short";
                     Advertisement.created_at := 3;
                     Advertisement.user_id := Some 1 |});
      [discriminate | reflexivity].
  - apply Hadvertisement; [discriminate | vm_compute; discriminate | reflexivity].
  - apply Huser; [discriminate | vm_compute; discriminate | reflexivity].
  - apply Houtage. reflexivity.
Defined.

(** ** Properties that the handlers keep *)

Section Stable.

Variable I : St → Prop.
Hypothesis I_pass : ∀ st, I st → I (pass st).

Lemma stable_ret {A} (a : A) : stable I (mret a).
Proof. by intros st Hst. Qed.

Lemma stable_raise {A} (e : exn) : stable I (raise (A := A) e).
Proof. by intros st Hst. Qed.

Lemma stable_lift {A} (r : exn + A) : stable I (lift r).
Proof. by intros st Hst. Qed.

Lemma stable_bind {A B} (c : M A) (f : A → M B) :
  stable I c → (∀ a, stable I (f a)) → stable I (c ≫= f).
Proof.
  intros Hc Hf st Hst. unfold mbind, M_bind.
  specialize (Hc st Hst). destruct (c st) as [[e|a] st1]; simpl in *; [done|].
  by apply Hf.
Qed.

Lemma stable_getitem {V} (d : dict V) key : stable I (getitem d key).
Proof. unfold getitem. destruct (dict_get key d); [apply stable_ret | apply stable_raise]. Qed.

Lemma stable_request_json request : stable I (request_json request).
Proof.
  unfold request_json. destruct (body request); [apply stable_ret | apply stable_raise].
Qed.

Lemma stable_round_trip : stable I round_trip.
Proof.
  intros st Hst. unfold round_trip. destruct (this_round st); simpl; by apply I_pass.
Qed.

Lemma stable_select {A} (query : DB → A) : stable I (select query).
Proof.
  unfold select. apply stable_bind; [apply stable_round_trip|].
  by intros _ st Hst.
Qed.

Lemma stable_User_get item_id : stable I (User_get item_id).
Proof. intros st Hst. unfold User_get. by apply stable_select. Qed.

Lemma stable_get_item_by_id {K R} (item_id : K) (table_name : K → M (option R)) :
  (∀ k, stable I (table_name k)) → stable I (get_item_by_id item_id table_name).
Proof.
  intros Htable. unfold get_item_by_id. apply stable_bind; [done|].
  intros [item|]; [apply stable_ret | apply stable_raise].
Qed.

Lemma stable_Token_get UUID text : stable I (Token_get UUID text).
Proof.
  unfold Token_get. destruct (UUID text); [apply stable_select | apply stable_raise].
Qed.

Lemma stable_check_token_in_headers UUID advertisement request :
  stable I (check_token_in_headers UUID advertisement request).
Proof.
  unfold check_token_in_headers.
  apply stable_bind; [apply stable_getitem|]. intros text.
  apply stable_bind; [apply stable_get_item_by_id, stable_Token_get|]. intros token.
  destruct (decide _); [apply stable_ret | apply stable_raise].
Qed.

Lemma stable_get_hello request : stable I (get_hello request).
Proof. apply stable_ret. Qed.

Lemma stable_UserView_get request : stable I (UserView_get request).
Proof.
  unfold UserView_get. apply stable_bind; [|intros; apply stable_ret].
  apply stable_get_item_by_id. intros k. apply stable_User_get.
Qed.

Lemma stable_AdvertisementView_get request : stable I (AdvertisementView_get request).
Proof.
  unfold AdvertisementView_get. apply stable_bind; [|intros; apply stable_ret].
  apply stable_get_item_by_id. intros k. apply stable_select.
Qed.

(** From here on the statements keep the property too. *)
Hypothesis I_written :
  ∀ st d', I st → written (store st) d' → I {| store := d'; ahead := ahead st |}.

Lemma stable_commit {A} (statement : DB → (exn + A) * DB) :
  (∀ d, written d (statement d).2) →
  stable I (commit statement).
Proof.
  intros Hstatement. unfold commit. apply stable_bind; [apply stable_round_trip|].
  intros _ st Hst. unfold execute.
  pose proof (Hstatement (store st)) as Hwritten.
  destruct (statement (store st)) as [outcome d']. simpl in *.
  by apply I_written.
Qed.

Lemma stable_except {A} (body handler : M A) :
  stable I body → stable I handler → stable I (except_IntegrityError body handler).
Proof.
  intros Hbody Hhandler st Hst. unfold except_IntegrityError.
  specialize (Hbody st Hst). destruct (body st) as [[e|a] st1]; simpl in *; [|done].
  destruct e; try done. by apply Hhandler.
Qed.

Lemma stable_UserView_post draws request : stable I (UserView_post draws request).
Proof.
  unfold UserView_post.
  apply stable_bind; [apply stable_request_json|]. intros json_data.
  apply stable_bind; [apply stable_lift|]. intros validated_data.
  apply stable_bind; [apply stable_getitem|]. intros password.
  apply stable_bind; [apply stable_lift|]. intros encoded.
  apply stable_bind; [apply stable_lift|]. intros hashed.
  apply stable_bind.
  - apply stable_except; [|apply stable_raise].
    apply stable_commit. intros d. left. eauto.
  - intros new_user_id. apply stable_bind; [|intros; apply stable_ret].
    apply stable_commit. intros d. right; left. eauto.
Qed.

Lemma stable_UserView_delete request : stable I (UserView_delete request).
Proof.
  unfold UserView_delete.
  apply stable_bind.
  { apply stable_get_item_by_id. intros k. apply stable_User_get. }
  intros user. apply stable_bind; [|intros; apply stable_ret].
  apply stable_commit. intros d. do 5 right. eauto.
Qed.

Lemma stable_AdvertisementView_post UUID request :
  stable I (AdvertisementView_post UUID request).
Proof.
  unfold AdvertisementView_post.
  apply stable_bind; [apply stable_request_json|]. intros input_data.
  apply stable_bind; [apply stable_lift|]. intros validated_data.
  apply stable_bind; [apply stable_getitem|]. intros text.
  apply stable_bind; [apply stable_get_item_by_id, stable_Token_get|]. intros token.
  apply stable_bind; [|intros; apply stable_ret].
  apply stable_except.
  - apply stable_commit. intros d. do 2 right; left. eauto 10.
  - apply stable_bind; [|intros; apply stable_raise].
    destruct input_data; try apply stable_raise. apply stable_getitem.
Qed.

Lemma stable_AdvertisementView_patch UUID request :
  stable I (AdvertisementView_patch UUID request).
Proof.
  unfold AdvertisementView_patch.
  apply stable_bind; [apply stable_request_json|]. intros input_data.
  apply stable_bind; [apply stable_lift|]. intros [|]; [apply stable_raise|].
  apply stable_bind; [apply stable_lift|]. intros validated_data.
  apply stable_bind.
  { apply stable_get_item_by_id. intros k. apply stable_select. }
  intros adv.
  apply stable_bind; [apply stable_check_token_in_headers|]. intros _.
  apply stable_bind; [|intros; apply stable_ret].
  apply stable_commit. intros d. do 3 right; left. eauto.
Qed.

Lemma stable_AdvertisementView_delete UUID request :
  stable I (AdvertisementView_delete UUID request).
Proof.
  unfold AdvertisementView_delete.
  apply stable_bind.
  { apply stable_get_item_by_id. intros k. apply stable_select. }
  intros adv.
  apply stable_bind; [apply stable_check_token_in_headers|]. intros _.
  apply stable_bind; [|intros; apply stable_ret].
  apply stable_commit. intros d. do 4 right; left. eauto.
Qed.

Lemma stable_get_app UUID draws method path handler request :
  (method, path, handler) ∈ get_app UUID draws → stable I (handler request).
Proof.
  unfold get_app. intros Hroute.
  repeat (apply elem_of_cons in Hroute as [[= -> -> ->] | Hroute]);
    [apply stable_get_hello | apply stable_UserView_post | apply stable_UserView_get
    | apply stable_UserView_delete | apply stable_AdvertisementView_post
    | apply stable_AdvertisementView_get | apply stable_AdvertisementView_patch
    | apply stable_AdvertisementView_delete | by apply elem_of_nil in Hroute].
Qed.

End Stable.

(** ** The constraints of [models.py] *)

Lemma consistent_nextval_users d : consistent d → consistent (nextval_users d).
Proof.
  intros Hd. constructor; simpl.
  - apply (emails_unique d Hd).
  - apply (advertisements_reference_users d Hd).
  - apply (tokens_reference_users d Hd).
  - intros i u Hu. pose proof (users_below_seq d Hd i u Hu). lia.
  - apply (advertisements_below_seq d Hd).
Qed.

Lemma consistent_nextval_advertisements d :
  consistent d → consistent (nextval_advertisements d).
Proof.
  intros Hd. constructor; simpl.
  - apply (emails_unique d Hd).
  - apply (advertisements_reference_users d Hd).
  - apply (tokens_reference_users d Hd).
  - apply (users_below_seq d Hd).
  - intros i a Ha. pose proof (advertisements_below_seq d Hd i a Ha). lia.
Qed.

Lemma consistent_insert_user email password d :
  consistent d → consistent (insert_user email password d).2.
Proof.
  intros Hd. unfold insert_user.
  destruct email as [email|], password as [password|];
    try (case_bool_decide; simpl; by auto using consistent_nextval_users).
  destruct (storable email); simpl; [|done].
  case_bool_decide as Hmax; [done|].
  case_bool_decide as Hfree; simpl; [by apply consistent_nextval_users|].
  case_bool_decide as Htaken; simpl; [by apply consistent_nextval_users|].
  constructor; simpl.
  - intros i j u v. rewrite !lookup_insert_Some.
    intros [[<- <-]|[Hi Hu]] [[<- <-]|[Hj Hv]] Hemail; try done.
    + destruct Htaken. by exists j, v.
    + destruct Htaken. by exists i, u.
    + by eapply (emails_unique d Hd).
  - intros i a u Ha Hu. rewrite lookup_insert_is_Some'. right.
    by eapply (advertisements_reference_users d Hd).
  - intros k t u Ht Hu. rewrite lookup_insert_is_Some'. right.
    by eapply (tokens_reference_users d Hd).
  - intros i u. rewrite lookup_insert_Some. intros [[<- _]|[_ Hu]]; [done|].
    pose proof (users_below_seq d Hd i u Hu). lia.
  - apply (advertisements_below_seq d Hd).
Qed.

Lemma consistent_insert_token id user_id d :
  consistent d → consistent (insert_token id user_id d).2.
Proof.
  intros Hd. unfold insert_token.
  case_bool_decide as Hfree; [done|].
  destruct (references_user user_id d) eqn:Howner; [|done]. simpl.
  constructor; simpl.
  - apply (emails_unique d Hd).
  - apply (advertisements_reference_users d Hd).
  - intros k t u. rewrite lookup_insert_Some. intros [[<- <-]|[_ Ht]] Hu.
    + simpl in Hu. subst user_id. simpl in Howner. by apply bool_decide_eq_true in Howner.
    + by eapply (tokens_reference_users d Hd).
  - apply (users_below_seq d Hd).
  - apply (advertisements_below_seq d Hd).
Qed.

Lemma consistent_insert_advertisement title description user_id d :
  consistent d → consistent (insert_advertisement title description user_id d).2.
Proof.
  intros Hd. unfold insert_advertisement.
  destruct title as [title|], description as [description|];
    try (case_bool_decide; simpl; by auto using consistent_nextval_advertisements).
  destruct (negb _); [done|].
  destruct (String_100 title) as [stored|]; [|done].
  case_bool_decide as Hmax; [done|].
  case_bool_decide as Hfree; simpl; [by apply consistent_nextval_advertisements|].
  destruct (references_user user_id d) eqn:Howner; simpl;
    [|by apply consistent_nextval_advertisements].
  constructor; simpl.
  - apply (emails_unique d Hd).
  - intros i a u. rewrite lookup_insert_Some. intros [[<- <-]|[_ Ha]] Hu.
    + simpl in Hu. subst user_id. simpl in Howner. by apply bool_decide_eq_true in Howner.
    + by eapply (advertisements_reference_users d Hd).
  - apply (tokens_reference_users d Hd).
  - apply (users_below_seq d Hd).
  - intros i a. rewrite lookup_insert_Some. intros [[<- _]|[_ Ha]]; [done|].
    pose proof (advertisements_below_seq d Hd i a Ha). lia.
Qed.

Lemma set_column_user_id row field value :
  Advertisement.user_id (set_column row field value) = Advertisement.user_id row.
Proof. unfold set_column. by repeat case_decide. Qed.

Lemma set_columns_user_id row changes :
  Advertisement.user_id (foldl (λ r fv, set_column r fv.1 fv.2) row changes)
  = Advertisement.user_id row.
Proof.
  revert row. induction changes as [|[field value] changes IH]; intros row; simpl; [done|].
  by rewrite IH, set_column_user_id.
Qed.

Lemma consistent_update_advertisement loaded current d :
  consistent d → consistent (update_advertisement loaded current d).2.
Proof.
  intros Hd. unfold update_advertisement.
  destruct (dirty loaded current) as [|change changes]; [done|].
  destruct (advertisements d !! Advertisement.id loaded) as [row|] eqn:Hrow; [|done].
  destruct (mapM _ _) as [stored|]; [|done].
  destruct (negb _); [done|].
  constructor; simpl.
  - apply (emails_unique d Hd).
  - intros i a u. rewrite lookup_insert_Some. intros [[<- <-]|[_ Ha]] Hu.
    + rewrite set_columns_user_id in Hu.
      exact (advertisements_reference_users d Hd _ row u Hrow Hu).
    + by eapply (advertisements_reference_users d Hd).
  - apply (tokens_reference_users d Hd).
  - apply (users_below_seq d Hd).
  - intros i a. rewrite lookup_insert_Some. intros [[<- _]|[_ Ha]].
    + exact (advertisements_below_seq d Hd _ row Hrow).
    + by eapply (advertisements_below_seq d Hd).
Qed.

Lemma consistent_delete_advertisement adv d :
  consistent d → consistent (delete_advertisement adv d).2.
Proof.
  intros Hd. unfold delete_advertisement. constructor; simpl.
  - apply (emails_unique d Hd).
  - intros i a u [_ Ha]%lookup_delete_Some Hu.
    by eapply (advertisements_reference_users d Hd).
  - apply (tokens_reference_users d Hd).
  - apply (users_below_seq d Hd).
  - intros i a [_ Ha]%lookup_delete_Some. by eapply (advertisements_below_seq d Hd).
Qed.

(** The rows after the loaded advertisements have lost their owner. *)
Lemma lookup_disowned (advs : list Advertisement.t)
    (m : gmap Z Advertisement.columns) (i : Z) a :
  foldl (λ m a, alter disown_advertisement (Advertisement.id a) m) m advs !! i = Some a →
  ∃ a0, m !! i = Some a0 ∧ (a = a0 ∨ Advertisement.user_id a = None).
Proof.
  revert m. induction advs as [|adv advs IH]; intros m; simpl; [eauto|].
  intros (a1 & Ha1 & Hcase)%IH.
  apply lookup_alter_Some in Ha1 as [(_ & a0 & Ha0 & ->)|[_ Ha1]].
  - exists a0. split; [done|]. right. by destruct Hcase as [-> | ?].
  - eauto.
Qed.

Lemma consistent_delete_user user d :
  consistent d → consistent (delete_user user d).2.
Proof.
  intros Hd. unfold delete_user.
  case_bool_decide as Hleft; [done|]. constructor; simpl.
  - intros i j u v [_ Hu]%lookup_delete_Some [_ Hv]%lookup_delete_Some.
    by eapply (emails_unique d Hd).
  - intros i a u Ha Hu.
    assert (u ≠ User.id user) as Hne.
    { intros ->. destruct Hleft. by exists i, a. }
    destruct (lookup_disowned _ _ _ _ Ha) as (a0 & Ha0 & [-> | Hnone]); [|congruence].
    destruct (advertisements_reference_users d Hd i a0 u Ha0 Hu) as [row Hrow].
    exists row. by rewrite lookup_delete_ne.
  - intros k t u (t0 & Ht & Ht0)%lookup_fmap_Some Hu.
    unfold disown_token in Ht. destruct (decide _) as [Howned|Hother].
    + by subst t.
    + subst t.
      destruct (tokens_reference_users d Hd k t0 u Ht0 Hu) as [row Hrow].
      exists row. rewrite lookup_delete_ne; [done|]. congruence.
  - intros i u [_ Hu]%lookup_delete_Some. by eapply (users_below_seq d Hd).
  - intros i a (a0 & Ha0 & _)%lookup_disowned.
    by eapply (advertisements_below_seq d Hd).
Qed.

Lemma consistent_written d d' : consistent d → written d d' → consistent d'.
Proof.
  intros Hd [(? & ? & ->)|[(? & ? & ->)|[(? & ? & ? & ->)|
             [(? & ? & ->)|[(? & ->)|(? & ->)]]]]].
  - by apply consistent_insert_user.
  - by apply consistent_insert_token.
  - by apply consistent_insert_advertisement.
  - by apply consistent_update_advertisement.
  - by apply consistent_delete_advertisement.
  - by apply consistent_delete_user.
Qed.

Lemma sound_pass st : sound st → sound (pass st).
Proof.
  intros [Hd Hrounds]. unfold pass, this_round.
  destruct (ahead st) as [|r rounds]; simpl; [done|].
  apply Forall_cons in Hrounds as [Hr Hrounds]. split; [|done].
  destruct r; simpl; [by apply Hr | done | by apply Hr].
Qed.

Lemma sound_written st d' :
  sound st → written (store st) d' → sound {| store := d'; ahead := ahead st |}.
Proof. intros [Hd Hrounds] Hw. split; [by eapply consistent_written | done]. Qed.

(** X13. Every handler that [get_app] routes keeps the constraints that
    [models.py] declares: when the emails of the users are distinct, every
    [user_id] of an advertisement or of a token is that of a user or NULL,
    and no id is above its sequence, and the other requests keep it so,
    it is so again in the state that the handler leaves, whatever the
    request and whatever the answer. *)
Theorem handlers_keep_the_constraints UUID draws method path handler request st :
  (method, path, handler) ∈ get_app UUID draws →
  sound st →
  sound (serve handler request st).2.
Proof.
  intros Hroute Hst.
  pose proof (stable_get_app sound sound_pass sound_written
                UUID draws method path handler request Hroute st Hst) as Hkept.
  unfold serve. by destruct (handler request st).
Qed.

Lemma handlers_keep_the_constraints_witness :
  let d :=
    {| users := {[ 1 := {| User.email := py "a@x.com";
                           User.password := hashpw (py "abcde") (py "salt");
                           User.created_at := 0 |} ]};
       advertisements :=
         {[ 1 := {| Advertisement.title := py "Long enough title";
                    Advertisement.description := py "short";
                    Advertisement.created_at := 0;
                    Advertisement.user_id := Some 1 |} ]};
       tokens := {[ 42%N := {| Token.created_at := 0; Token.user_id := Some 1 |} ]};
       users_id_seq := 1; advertisements_id_seq := 1; now := 0 |} in
  let outcome :=
    serve UserView_delete {| match_info := 1; headers := []; body := None |} (alone d) in
  outcome.1 = OK (user_deleted (py "a@x.com")) ∧ sound outcome.2.
Proof.
  intros d outcome. split; [vm_compute; reflexivity|].
  apply (handlers_keep_the_constraints UUID_hex {| gensalt := py "salt"; uuid4 := 42%N |}
           (py "DELETE") (py "/users/{user_id:\d+}/")).
  - unfold get_app. do 3 apply list_elem_of_further. apply list_elem_of_here.
  - split; [|constructor]. constructor; unfold d; simpl.
    + intros i j u v [<- _]%lookup_singleton_Some [<- _]%lookup_singleton_Some _. done.
    + intros i a u [<- <-]%lookup_singleton_Some [= <-]. rewrite lookup_singleton_eq. eauto.
    + intros k t u [<- <-]%lookup_singleton_Some [= <-]. rewrite lookup_singleton_eq. eauto.
    + intros i u [<- _]%lookup_singleton_Some. done.
    + intros i a [<- _]%lookup_singleton_Some. done.
Defined.

(** ** Requests that are refused *)

Lemma later_refl st : later st st.
Proof. by exists 0%nat. Qed.

Lemma later_pass st0 st : later st0 st → later st0 (pass st).
Proof. intros [n ->]. by exists (S n). Qed.

Lemma later_untouched st0 st : later st0 st → untouched st0 st.
Proof. intros [n ->]. exists n. split; [apply same_rows_refl | done]. Qed.

(** A state that is later than [st0], once a statement has failed. *)
Lemma later_rolled_back st0 st d' :
  later st0 st → same_rows (store st) d' →
  untouched st0 {| store := d'; ahead := ahead st |}.
Proof. intros [n ->] Hrows. by exists n. Qed.

Lemma insert_user_rolls_back email password : rolls_back (insert_user email password).
Proof. intros d e d' Hs. by apply insert_user_raises in Hs as [_ ?]. Qed.

Lemma insert_advertisement_rolls_back title description user_id :
  rolls_back (insert_advertisement title description user_id).
Proof.
  intros d e d'. unfold insert_advertisement.
  destruct title as [title|], description as [description|];
    repeat case_match; intros [= <- <-];
    auto using same_rows_refl, same_rows_nextval_advertisements.
Qed.

Lemma update_advertisement_rolls_back loaded current :
  rolls_back (update_advertisement loaded current).
Proof.
  intros d e d'. unfold update_advertisement.
  repeat case_match; intros [= <- <-]; apply same_rows_refl.
Qed.

Lemma delete_advertisement_rolls_back adv : rolls_back (delete_advertisement adv).
Proof. by intros d e d'. Qed.

Lemma delete_user_rolls_back user : rolls_back (delete_user user).
Proof.
  intros d e d'. unfold delete_user. case_match; intros [= <- <-]. apply same_rows_refl.
Qed.

Lemma all_or_nothing_reads {A} (c : M A) :
  (∀ st0, stable (later st0) c) → all_or_nothing c.
Proof.
  intros Hc st0 st Hst. specialize (Hc st0 st Hst). simpl in Hc.
  destruct (c st).1; [by apply later_untouched | done].
Qed.

Lemma all_or_nothing_bind {A B} (c : M A) (f : A → M B) :
  (∀ st0, stable (later st0) c) → (∀ a, all_or_nothing (f a)) →
  all_or_nothing (c ≫= f).
Proof.
  intros Hc Hf st0 st Hst. unfold mbind, M_bind.
  specialize (Hc st0 st Hst). destruct (c st) as [[e|a] st1]; simpl in *.
  - by apply later_untouched.
  - by apply Hf.
Qed.

Lemma all_or_nothing_commit {A} (statement : DB → (exn + A) * DB) :
  rolls_back statement → all_or_nothing (commit statement).
Proof.
  intros Hstatement st0 st Hst. rewrite commit_cases.
  destruct (answers (this_round st)); cbn [fst snd];
    [|by apply later_untouched, later_pass].
  destruct (statement (store (pass st))) as [[e|a] d] eqn:Hs; cbn [fst snd]; [|done].
  apply (later_rolled_back st0 (pass st)); [by apply later_pass|].
  by eapply Hstatement.
Qed.

Lemma all_or_nothing_returns {A B} (c : M A) (g : A → B) :
  all_or_nothing c → all_or_nothing (c ≫= λ a, mret (g a)).
Proof.
  intros Hc st0 st Hst. unfold mbind, M_bind.
  specialize (Hc st0 st Hst). by destruct (c st) as [[e|a] st1].
Qed.

Lemma all_or_nothing_except {A} (body handler : M A) :
  all_or_nothing body → (∀ st0, stable (untouched st0) handler) →
  all_or_nothing (except_IntegrityError body handler).
Proof.
  intros Hbody Hhandler st0 st Hst. unfold except_IntegrityError.
  specialize (Hbody st0 st Hst). destruct (body st) as [[e|a] st1]; simpl in *; [|done].
  destruct e; try done.
  specialize (Hhandler st0 st1 Hbody). simpl in Hhandler.
  by destruct (handler st1).1.
Qed.

Lemma all_or_nothing_UserView_delete request : all_or_nothing (UserView_delete request).
Proof.
  unfold UserView_delete. apply all_or_nothing_bind.
  { intros st0. apply stable_get_item_by_id.
    intros k. apply stable_User_get, later_pass. }
  intros user. apply (all_or_nothing_returns _ (λ _, user_deleted _)).
  apply all_or_nothing_commit, delete_user_rolls_back.
Qed.

Lemma all_or_nothing_AdvertisementView_post UUID request :
  all_or_nothing (AdvertisementView_post UUID request).
Proof.
  unfold AdvertisementView_post.
  apply all_or_nothing_bind; [intros st0; apply stable_request_json|]. intros input_data.
  apply all_or_nothing_bind; [intros st0; apply stable_lift|]. intros validated_data.
  apply all_or_nothing_bind; [intros st0; apply stable_getitem|]. intros text.
  apply all_or_nothing_bind.
  { intros st0. apply stable_get_item_by_id.
    intros k. apply stable_Token_get, later_pass. }
  intros token.
  apply (all_or_nothing_returns _ (λ new : Advertisement.t, adv_created _ _ _)).
  apply all_or_nothing_except;
    [apply all_or_nothing_commit, insert_advertisement_rolls_back|].
  intros st0. apply stable_bind; [|intros; apply stable_raise].
  destruct input_data; try apply stable_raise. apply stable_getitem.
Qed.

Lemma all_or_nothing_AdvertisementView_patch UUID request :
  all_or_nothing (AdvertisementView_patch UUID request).
Proof.
  unfold AdvertisementView_patch.
  apply all_or_nothing_bind; [intros st0; apply stable_request_json|]. intros input_data.
  apply all_or_nothing_bind; [intros st0; apply stable_lift|].
  intros [|]; [apply all_or_nothing_reads; intros st0; apply stable_raise|].
  apply all_or_nothing_bind; [intros st0; apply stable_lift|]. intros validated_data.
  apply all_or_nothing_bind.
  { intros st0. apply stable_get_item_by_id.
    intros k. apply stable_select, later_pass. }
  intros adv.
  apply all_or_nothing_bind.
  { intros st0. apply stable_check_token_in_headers, later_pass. }
  intros _. apply (all_or_nothing_returns _ (λ _, adv_updated _ _)).
  apply all_or_nothing_commit, update_advertisement_rolls_back.
Qed.

Lemma all_or_nothing_AdvertisementView_delete UUID request :
  all_or_nothing (AdvertisementView_delete UUID request).
Proof.
  unfold AdvertisementView_delete.
  apply all_or_nothing_bind.
  { intros st0. apply stable_get_item_by_id.
    intros k. apply stable_select, later_pass. }
  intros adv.
  apply all_or_nothing_bind.
  { intros st0. apply stable_check_token_in_headers, later_pass. }
  intros _. apply (all_or_nothing_returns _ (λ _, adv_deleted _ _)).
  apply all_or_nothing_commit, delete_advertisement_rolls_back.
Qed.

(** A registration that is answered with a 400 has written no row. *)
Lemma registration_refused draws request st response st' :
  serve (UserView_post draws) request st = (response, st') →
  (∀ data, response ≠ OK data) →
  response ≠ InternalServerError →
  untouched st st'.
Proof.
  pose proof (later_untouched st st (later_refl st)) as Hrefl.
  unfold serve, UserView_post, request_json.
  unfold getitem, lift, raise, mbind, M_bind, mret, M_ret. cbv beta iota.
  destruct (body request) as [json_data|]; [|by intros [= <- <-]].
  destruct (validate json_data CreateUser) as [e|validated_data];
    [by intros [= <- <-]|].
  destruct (dict_get (py "password") validated_data) as [password|];
    [|by intros [= <- <-]].
  destruct (encode password) as [e|encoded]; [by intros [= <- <-]|].
  destruct (bcrypt_hashpw encoded (gensalt draws)) as [e|hashed]; [by intros [= <- <-]|].
  unfold except_IntegrityError. rewrite commit_cases.
  destruct (answers (this_round st)); [|intros [= <- <-] _ Hnot; by destruct Hnot].
  destruct (insert_user _ _ _) as [[e|new_user_id] d1] eqn:Hinsert; cbn [fst snd].
  - apply insert_user_raises in Hinsert as [[-> | ->] Hrows].
    + intros [= <- <-] _ _.
      apply (later_rolled_back st (pass st)); [apply later_pass, later_refl | done].
    + intros [= <- <-] _ Hnot. by destruct Hnot.
  - rewrite commit_cases. cbv beta iota.
    destruct (answers _); [|intros [= <- <-] _ Hnot; by destruct Hnot].
    destruct (insert_token _ _ _) as [[e|token] d2] eqn:Htoken; cbn [fst snd].
    + apply insert_token_raises in Htoken as [-> _].
      intros [= <- <-] _ Hnot. by destruct Hnot.
    + intros [= <- <-] Hnot _. by destruct (Hnot (user_created new_user_id token)).
Qed.

(** X14. All or nothing. Whatever the route and the request, an answer
    that is not a 200 means that the handler has written no row: the
    tables left are those of the initial state after the rounds of the
    handler, and a sequence is at most one id further, the id that an
    INSERT has drawn before it was refused. The one exception is the plain
    500 of a registration, whose first commit may have been made. *)
Theorem refused_requests_write_nothing
    UUID draws method path handler request st response st' :
  (method, path, handler) ∈ get_app UUID draws →
  serve handler request st = (response, st') →
  (∀ data, response ≠ OK data) →
  ((method, path) = (py "POST", py "/users/") → response ≠ InternalServerError) →
  untouched st st'.
Proof.
  intros Hroute Hserve Hrefused Hregistration.
  assert (all_or_nothing (handler request) → untouched st st') as Hall.
  { intros Hall. specialize (Hall st st (later_refl st)).
    unfold serve in Hserve. destruct (handler request st) as [[e|data] st1].
    - by injection Hserve as _ <-.
    - injection Hserve as <- _. by destruct (Hrefused data). }
  unfold get_app in Hroute.
  repeat (apply elem_of_cons in Hroute as [[= -> -> ->] | Hroute]).
  - apply Hall, all_or_nothing_reads. intros st0. apply stable_get_hello.
  - eapply registration_refused; eauto.
  - apply Hall, all_or_nothing_reads. intros st0.
    apply stable_UserView_get, later_pass.
  - apply Hall, all_or_nothing_UserView_delete.
  - apply Hall, all_or_nothing_AdvertisementView_post.
  - apply Hall, all_or_nothing_reads. intros st0.
    apply stable_AdvertisementView_get, later_pass.
  - apply Hall, all_or_nothing_AdvertisementView_patch.
  - apply Hall, all_or_nothing_AdvertisementView_delete.
  - by apply elem_of_nil in Hroute.
Qed.

Lemma refused_requests_write_nothing_witness :
  let d :=
    {| users := {[ 1 := {| User.email := py "a@x.com";
                           User.password := hashpw (py "abcde") (py "salt");
                           User.created_at := 0 |} ]};
       advertisements :=
         {[ 1 := {| Advertisement.title := py "Long enough title";
                    Advertisement.description := py "short";
                    Advertisement.created_at := 0;
                    Advertisement.user_id := Some 1 |} ]};
       tokens := {[ 42%N := {| Token.created_at := 0; Token.user_id := Some 1 |} ]};
       users_id_seq := 1; advertisements_id_seq := 1; now := 0 |} in
  let draws := {| gensalt := py "pepper"; uuid4 := 43%N |} in
  let request :=
    {| match_info := 0; headers := [];
       body := Some (JObj [(py "email", JStr (py "a@x.com"));
                           (py "password", JStr (py "fghij"))]) |} in
  let outcome := serve (UserView_post draws) request (alone d) in
  outcome.1 = BadRequest user_already_exists ∧
  users_id_seq (store outcome.2) = 2 ∧
  untouched (alone d) outcome.2.
Proof.
  intros d draws request outcome.
  split; [vm_compute; reflexivity|]. split; [vm_compute; reflexivity|].
  apply (refused_requests_write_nothing UUID_hex draws
           (py "POST") (py "/users/") (UserView_post draws) request (alone d)
           (BadRequest user_already_exists)).
  - unfold get_app. apply list_elem_of_further, list_elem_of_here.
  - vm_compute. reflexivity.
  - discriminate.
  - discriminate.
Defined.

(** ** Ids *)

Lemma insert_user_seq email password d id d' :
  insert_user email password d = (inr id, d') →
  id = users_id_seq d + 1 ∧ users_id_seq d' = id ∧
  advertisements_id_seq d' = advertisements_id_seq d.
Proof.
  unfold insert_user. destruct email as [email|], password;
    repeat case_match; try done; by intros [= <- <-].
Qed.

Lemma insert_token_seq id user_id d :
  users_id_seq (insert_token id user_id d).2 = users_id_seq d ∧
  advertisements_id_seq (insert_token id user_id d).2 = advertisements_id_seq d.
Proof. unfold insert_token. by repeat case_match. Qed.

Lemma insert_advertisement_seq title description user_id d new d' :
  insert_advertisement title description user_id d = (inr new, d') →
  Advertisement.id new = advertisements_id_seq d + 1 ∧
  advertisements_id_seq d' = Advertisement.id new ∧
  users_id_seq d' = users_id_seq d.
Proof.
  unfold insert_advertisement. destruct title, description;
    repeat case_match; try done; by intros [= <- <-].
Qed.

(** No statement lowers a sequence, whether it is served or refused. *)
Lemma written_seq d d' :
  written d d' →
  users_id_seq d ≤ users_id_seq d' ∧ advertisements_id_seq d ≤ advertisements_id_seq d'.
Proof.
  intros [(email & password & ->)|[(? & ? & ->)|[(title & description & ? & ->)|
          [(? & ? & ->)|[(? & ->)|(? & ->)]]]]].
  - unfold insert_user. destruct email, password; repeat case_match; simpl; lia.
  - pose proof (insert_token_seq x x0 d). lia.
  - unfold insert_advertisement. destruct title, description;
      repeat case_match; simpl; lia.
  - unfold update_advertisement. repeat case_match; simpl; lia.
  - simpl. lia.
  - unfold delete_user. case_match; simpl; lia.
Qed.

(** X15. Ids are not given twice. When the rows of the database are not
    above their sequences, and no other request interferes: a registration
    that is served gives the user an id above the sequence and above the id
    of every user, and leaves the sequence at that id; so does the creation
    of an advertisement; and no handler, whatever it answers, lowers a
    sequence, not even a deletion. *)
Theorem ids_are_not_given_twice UUID draws request d :
  consistent d →
  (∀ id token st',
     serve (UserView_post draws) request (alone d) = (OK (user_created id token), st') →
     users_id_seq d < id ∧ (∀ i u, users d !! i = Some u → i < id) ∧
     users_id_seq (store st') = id) ∧
  (∀ id title owner st',
     serve (AdvertisementView_post UUID) request (alone d)
     = (OK (adv_created id title owner), st') →
     advertisements_id_seq d < id ∧ (∀ i a, advertisements d !! i = Some a → i < id) ∧
     advertisements_id_seq (store st') = id) ∧
  (∀ method path handler,
     (method, path, handler) ∈ get_app UUID draws →
     users_id_seq d ≤ users_id_seq (store (serve handler request (alone d)).2) ∧
     advertisements_id_seq d
     ≤ advertisements_id_seq (store (serve handler request (alone d)).2)).
Proof.
  intros Hd. split_and!.
  - intros id token st'.
    unfold serve, UserView_post, request_json.
    unfold getitem, lift, raise, mbind, M_bind, mret, M_ret. cbv beta iota.
    destruct (body request) as [json_data|]; [|done].
    destruct (validate json_data CreateUser) as [e|validated_data]; [by destruct e|].
    destruct (dict_get (py "password") validated_data) as [password|]; [|done].
    destruct (encode password) as [e|encoded]; [by destruct e|].
    destruct (bcrypt_hashpw encoded (gensalt draws)) as [e|hashed]; [by destruct e|].
    unfold except_IntegrityError. rewrite commit_alone.
    destruct (insert_user _ _ d) as [[e|new_user_id] d1] eqn:Hinsert;
      cbn [fst snd]; [by destruct e|].
    rewrite commit_alone.
    pose proof (insert_token_seq (uuid4 draws) (Some new_user_id) d1) as [Htoken _].
    destruct (insert_token _ _ d1) as [[e|token'] d2]; cbn [fst snd] in *;
      [by destruct e|].
    intros [= <- <- <-]. simpl.
    apply insert_user_seq in Hinsert as (-> & Hseq & _).
    split_and!; [lia| |lia].
    intros i u Hu. pose proof (users_below_seq d Hd i u Hu). lia.
  - intros id title owner st'.
    unfold serve, AdvertisementView_post, request_json.
    unfold getitem, lift, raise, mbind, M_bind, mret, M_ret. cbv beta iota.
    destruct (body request) as [input_data|]; [|done].
    destruct (validate input_data CreateAdvertisement) as [e|validated_data];
      [by destruct e|].
    destruct (dict_get (py "token") (headers request)) as [text|]; [|done].
    rewrite get_token_by_id.
    destruct (UUID text) as [key|]; [|done].
    change (this_round (alone d)) with quiet. unfold quiet.
    change (pass (alone d)) with (alone d). change (store (alone d)) with d. cbn [answers].
    destruct (tokens d !! key) as [token|]; [|done].
    unfold except_IntegrityError. rewrite commit_alone.
    destruct (insert_advertisement _ _ _ d) as [[e|new] d1] eqn:Hinsert; cbn [fst snd].
    { destruct e; try done.
      destruct input_data; try done. by destruct (dict_get (py "user_id") members). }
    intros [= <- <- <- <-]. simpl.
    apply insert_advertisement_seq in Hinsert as (Hid & Hseq & _).
    split_and!; [lia| |done].
    intros i a Ha. pose proof (advertisements_below_seq d Hd i a Ha). lia.
  - intros method path handler Hroute.
    set (I := λ st, ahead st = [] ∧
                    users_id_seq d ≤ users_id_seq (store st) ∧
                    advertisements_id_seq d ≤ advertisements_id_seq (store st)).
    assert (∀ st, I st → I (pass st)) as Hpass.
    { intros st (Halone & ? & ?). by rewrite pass_quiet. }
    assert (∀ st d', I st → written (store st) d' →
                     I {| store := d'; ahead := ahead st |}) as Hwritten.
    { intros st d' (Halone & ? & ?) Hw. apply written_seq in Hw.
      unfold I. simpl. split_and!; [done | lia | lia]. }
    assert (I (alone d)) as Hinit by (unfold I; simpl; split_and!; [done | lia | lia]).
    pose proof (stable_get_app I Hpass Hwritten UUID draws method path handler request
                  Hroute (alone d) Hinit) as (_ & Husers & Hadvs).
    unfold serve. by destruct (handler request (alone d)).
Qed.

Lemma ids_are_not_given_twice_witness :
  let d :=
    {| users := {[ 1 := {| User.email := py "a@x.com";
                           User.password := hashpw (py "abcde") (py "salt");
                           User.created_at := 0 |} ]};
       advertisements := ∅;
       tokens := {[ 42%N := {| Token.created_at := 0; Token.user_id := Some 1 |} ]};
       users_id_seq := 1; advertisements_id_seq := 3; now := 0 |} in
  let request :=
    {| match_info := 0;
       headers := [(py "token", py "00000000-0000-0000-0000-00000000002a")];
       body := Some (JObj [(py "title", JStr (py "Long enough title"));
                           (py "description", JStr (py "short"))]) |} in
  (serve (AdvertisementView_post UUID_hex) request (alone d)).1
  = OK (adv_created 4 (py "Long enough title") (Some 1)) ∧
  advertisements_id_seq d < 4 ∧
  (∀ i a, advertisements d !! i = Some a → i < 4) ∧
  advertisements_id_seq
    (store (serve (AdvertisementView_post UUID_hex) request (alone d)).2) = 4.
Proof.
  intros d request.
  assert (consistent d) as Hd.
  { constructor; simpl.
    - intros i j u v [<- _]%lookup_singleton_Some [<- _]%lookup_singleton_Some _. done.
    - intros i a u Ha. by rewrite lookup_empty in Ha.
    - intros k t u [<- <-]%lookup_singleton_Some [= <-]. by eexists.
    - intros i u [<- _]%lookup_singleton_Some. done.
    - intros i a Ha. by rewrite lookup_empty in Ha. }
  destruct (ids_are_not_given_twice UUID_hex {| gensalt := py "salt"; uuid4 := 43%N |}
              request d Hd) as (_ & Hcreated & _).
  split; [vm_compute; reflexivity|].
  apply (Hcreated 4 (py "Long enough title") (Some 1)). vm_compute. reflexivity.
Defined.

(** ** The deletion of a user *)

Lemma lookup_disown_all (advs : list Advertisement.t)
    (m : gmap Z Advertisement.columns) (i : Z) :
  foldl (λ m a, alter disown_advertisement (Advertisement.id a) m) m advs !! i
  = if decide (i ∈ Advertisement.id <$> advs)
    then disown_advertisement <$> m !! i
    else m !! i.
Proof.
  revert m. induction advs as [|adv advs IH]; intros m.
  - rewrite fmap_nil, decide_False; [done|]. by intros ?%elem_of_nil.
  - rewrite fmap_cons. cbn [foldl]. rewrite IH, lookup_alter.
    destruct (decide (i ∈ Advertisement.id adv :: (Advertisement.id <$> advs)))
      as [Hcons|Hcons];
      destruct (decide (i ∈ Advertisement.id <$> advs)) as [Hin|Hout];
      destruct (decide (Advertisement.id adv = i)) as [Heq|Hne];
      rewrite ?elem_of_cons in Hcons; try done; try (destruct Hcons; by auto).
    + subst i. by destruct (m !! Advertisement.id adv).
    + by subst i.
Qed.

Lemma disown_advs_of heap d user_id :
  foldl (λ m a, alter disown_advertisement (Advertisement.id a) m)
        (advertisements d) (advs_of heap d user_id)
  = (λ a, if decide (Advertisement.user_id a = Some user_id)
          then disown_advertisement a else a) <$> advertisements d.
Proof.
  apply map_eq. intros i. rewrite lookup_disown_all, lookup_fmap.
  destruct (advertisements d !! i) as [a0|] eqn:Ha0; simpl.
  - destruct (decide (Advertisement.user_id a0 = Some user_id)) as [Howner|Hother].
    + rewrite decide_True; [done|].
      apply list_elem_of_fmap. exists (Advertisement.Build_t i a0). split; [done|].
      by apply elem_of_advs_of.
    + rewrite decide_False; [done|].
      intros (a & -> & [Ha Howner]%elem_of_advs_of)%list_elem_of_fmap.
      rewrite Ha0 in Ha. injection Ha as ->. done.
  - by destruct (decide _).
Qed.

Lemma serve_UserView_delete_alone request d :
  serve UserView_delete request (alone d)
  = match users d !! match_info request with
    | Some row =>
        (OK (user_deleted (User.email row)),
         alone {| users := delete (match_info request) (users d);
                  advertisements :=
                    (λ a, if decide (Advertisement.user_id a = Some (match_info request))
                          then disown_advertisement a else a) <$> advertisements d;
                  tokens := disown_token (match_info request) <$> tokens d;
                  users_id_seq := users_id_seq d;
                  advertisements_id_seq := advertisements_id_seq d;
                  now := now d |})
    | None => (NotFound item_doesnt_exist, alone d)
    end.
Proof.
  unfold serve, UserView_delete, mbind, M_bind. rewrite get_user_by_id.
  change (this_round (alone d)) with quiet. unfold quiet.
  change (pass (alone d)) with (alone d). change (store (alone d)) with d. cbn [answers].
  destruct (users d !! match_info request) as [row|]; [|done].
  rewrite commit_alone.
  unfold delete_user, load_user.
  change (User.advs _) with (advs_of (place quiet) d (match_info request)).
  change (User.id _) with (match_info request).
  rewrite disown_advs_of.
  rewrite bool_decide_eq_false_2; [done|].
  intros (i & a & (a0 & <- & Ha0)%lookup_fmap_Some & Howner).
  by destruct (decide _).
Qed.

(** X16. A user is deleted: alone with the database, the DELETE of a user
    who exists is served and names the email; the row of the user is
    removed; as neither relationship of [models.py] cascades, the
    advertisements and the tokens of the user stay, their [user_id] set to
    NULL, and every other row is as before; a GET of the user is then
    answered 404. *)
Theorem user_is_deleted request d row :
  users d !! match_info request = Some row →
  let d' :=
    {| users := delete (match_info request) (users d);
       advertisements :=
         (λ a, if decide (Advertisement.user_id a = Some (match_info request))
               then disown_advertisement a else a) <$> advertisements d;
       tokens := disown_token (match_info request) <$> tokens d;
       users_id_seq := users_id_seq d;
       advertisements_id_seq := advertisements_id_seq d;
       now := now d |} in
  serve UserView_delete request (alone d) = (OK (user_deleted (User.email row)), alone d') ∧
  serve UserView_get request (alone d') = (NotFound item_doesnt_exist, alone d').
Proof.
  intros Hrow d'. split.
  - by rewrite serve_UserView_delete_alone, Hrow.
  - unfold serve, UserView_get, mbind, M_bind. rewrite get_user_by_id.
    change (this_round (alone d')) with quiet. unfold quiet.
    change (pass (alone d')) with (alone d'). change (store (alone d')) with d'. cbn [answers].
    unfold d'. simpl. by rewrite lookup_delete_eq.
Qed.

Lemma user_is_deleted_witness :
  let d :=
    {| users := {[ 1 := {| User.email := py "a@x.com";
                           User.password := hashpw (py "abcde") (py "salt");
                           User.created_at := 0 |} ]};
       advertisements :=
         {[ 1 := {| Advertisement.title := py "Long enough title";
                    Advertisement.description := py "short";
                    Advertisement.created_at := 0;
                    Advertisement.user_id := Some 1 |} ]};
       tokens := {[ 42%N := {| Token.created_at := 0; Token.user_id := Some 1 |} ]};
       users_id_seq := 1; advertisements_id_seq := 1; now := 0 |} in
  let request := {| match_info := 1; headers := []; body := None |} in
  serve UserView_delete request (alone d)
  = (OK (user_deleted (py "a@x.com")),
     alone {| users := ∅;
              advertisements :=
                {[ 1 := {| Advertisement.title := py "Long enough title";
                           Advertisement.description := py "short";
                           Advertisement.created_at := 0;
                           Advertisement.user_id := None |} ]};
              tokens := {[ 42%N := {| Token.created_at := 0; Token.user_id := None |} ]};
              users_id_seq := 1; advertisements_id_seq := 1; now := 0 |}).
Proof.
  intros d request.
  destruct (user_is_deleted request d
              {| User.email := py "a@x.com";
                 User.password := hashpw (py "abcde") (py "salt");
                 User.created_at := 0 |} eq_refl) as [Hdelete _].
  rewrite Hdelete. vm_compute. reflexivity.
Defined.

(** ** What is looked up first *)

(** X17. A [token] header that the UUID column cannot read (it is not the
    text of a UUID) is answered neither 401 nor 404: the lookup of the
    token fails in the column, nothing catches it, and the creation of an
    advertisement whose body validates, and the deletion or the update (its
    body having passed) of an advertisement that exists, get the plain
    500. *)
Theorem unreadable_token_is_a_server_error UUID request st text :
  dict_get (py "token") (headers request) = Some text →
  UUID text = None →
  (∀ input_data validated_data,
     body request = Some input_data →
     validate input_data CreateAdvertisement = inr validated_data →
     (serve (AdvertisementView_post UUID) request st).1 = InternalServerError) ∧
  (∀ adv,
     this_round st ≠ Outage →
     advertisements (store (pass st)) !! match_info request = Some adv →
     (serve (AdvertisementView_delete UUID) request st).1 = InternalServerError ∧
     ∀ input_data validated_data,
       body request = Some input_data →
       user_id_in input_data = inr false →
       validate input_data UpdateAdvertisement = inr validated_data →
       (serve (AdvertisementView_patch UUID) request st).1 = InternalServerError).
Proof.
  intros Htext Hkey. split.
  - intros input_data validated_data Hbody Hv.
    unfold serve. rewrite (AdvertisementView_post_validated _ _ _ _ _ Hbody Hv).
    by rewrite Htext, get_token_by_id, Hkey.
  - intros adv Hround Hadv.
    assert (check_token_in_headers UUID (Advertisement.Build_t (match_info request) adv)
              request (pass st)
            = (inl DBAPIError, pass st)) as Hcheck.
    { by rewrite check_token_in_headers_cases, Htext, Hkey. }
    assert (get_item_by_id (match_info request) Advertisement_get st
            = (inr (Advertisement.Build_t (match_info request) adv), pass st)) as Hget.
    { rewrite get_advertisement_by_id. round st; [|done]. by rewrite Hadv. }
    split.
    + unfold serve, AdvertisementView_delete, mbind, M_bind. by rewrite Hget, Hcheck.
    + intros input_data validated_data Hbody Hin Hv.
      unfold serve, AdvertisementView_patch, request_json. rewrite Hbody.
      unfold mbind, M_bind, mret, M_ret, lift. rewrite Hin, Hv.
      by rewrite Hget, Hcheck.
Qed.

Lemma unreadable_token_is_a_server_error_witness :
  let d :=
    {| users := {[ 1 := {| User.email := py "a@x.com";
                           User.password := hashpw (py "abcde") (py "salt");
                           User.created_at := 0 |} ]};
       advertisements :=
         {[ 1 := {| Advertisement.title := py "Long enough title";
                    Advertisement.description := py "short";
                    Advertisement.created_at := 0;
                    Advertisement.user_id := Some 1 |} ]};
       tokens := {[ 42%N := {| Token.created_at := 0; Token.user_id := Some 1 |} ]};
       users_id_seq := 1; advertisements_id_seq := 1; now := 0 |} in
  let input_data := JObj [(py "title", JStr (py "Updated title!!"));
                          (py "description", JStr (py "other"))] in
  let request :=
    {| match_info := 1;
       headers := [(py "token", py "my token")];
       body := Some input_data |} in
  (serve (AdvertisementView_post UUID_hex) request (alone d)).1 = InternalServerError ∧
  (serve (AdvertisementView_delete UUID_hex) request (alone d)).1 = InternalServerError ∧
  (serve (AdvertisementView_patch UUID_hex) request (alone d)).1 = InternalServerError.
Proof.
  intros d input_data request.
  destruct (unreadable_token_is_a_server_error UUID_hex request (alone d)
              (py "my token") eq_refl eq_refl)
    as [Hpost Hrest].
  destruct (Hrest {| Advertisement.title := py "Long enough title";
                     Advertisement.description := py "short";
                     Advertisement.created_at := 0;
                     Advertisement.user_id := Some 1 |})
    as [Hdelete Hpatch]; [discriminate | reflexivity |].
  split; [|split].
  - apply (Hpost input_data
                 [(py "title", py "Updated title!!"); (py "description", py "other")]);
      reflexivity.
  - exact Hdelete.
  - apply (Hpatch input_data
                  [(py "title", py "Updated title!!"); (py "description", py "other")]);
      reflexivity.
Defined.

(** X18. The item is looked up before the token is read. When the id of
    the path is an int4 and is in the table of neither a user nor an
    advertisement, the deletion of the user, and the deletion or the update
    (its body having passed) of the advertisement, are answered 404, 'item
    doesn`t exist', whatever the headers are, with or without a token, and
    nothing is written. *)
Theorem missing_item_is_not_found UUID request st :
  this_round st ≠ Outage →
  match_info request ≤ INT_MAX →
  (users (store (pass st)) !! match_info request = None →
   serve UserView_delete request st = (NotFound item_doesnt_exist, pass st)) ∧
  (advertisements (store (pass st)) !! match_info request = None →
   serve (AdvertisementView_delete UUID) request st
   = (NotFound item_doesnt_exist, pass st) ∧
   ∀ input_data validated_data,
     body request = Some input_data →
     user_id_in input_data = inr false →
     validate input_data UpdateAdvertisement = inr validated_data →
     serve (AdvertisementView_patch UUID) request st
     = (NotFound item_doesnt_exist, pass st)).
Proof.
  intros Hround _. split.
  - intros Huser. unfold serve, UserView_delete, mbind, M_bind.
    rewrite get_user_by_id. round st; [|done]. by rewrite Huser.
  - intros Hadv.
    assert (get_item_by_id (match_info request) Advertisement_get st
            = (inl (HTTPNotFound item_doesnt_exist), pass st)) as Hget.
    { rewrite get_advertisement_by_id. round st; [|done]. by rewrite Hadv. }
    split.
    + unfold serve, AdvertisementView_delete, mbind, M_bind. by rewrite Hget.
    + intros input_data validated_data Hbody Hin Hv.
      unfold serve, AdvertisementView_patch, request_json. rewrite Hbody.
      unfold mbind, M_bind, mret, M_ret, lift. rewrite Hin, Hv.
      by rewrite Hget.
Qed.

Lemma missing_item_is_not_found_witness :
  let d :=
    {| users := {[ 1 := {| User.email := py "a@x.com";
                           User.password := hashpw (py "abcde") (py "salt");
                           User.created_at := 0 |} ]};
       advertisements :=
         {[ 1 := {| Advertisement.title := py "Long enough title";
                    Advertisement.description := py "short";
                    Advertisement.created_at := 0;
                    Advertisement.user_id := Some 1 |} ]};
       tokens := {[ 42%N := {| Token.created_at := 0; Token.user_id := Some 1 |} ]};
       users_id_seq := 1; advertisements_id_seq := 1; now := 0 |} in
  let input_data := JObj [(py "title", JStr (py "Updated title!!"))] in
  let request :=
    {| match_info := 7;
       headers := [(py "token", py "00000000-0000-0000-0000-00000000002a")];
       body := Some input_data |} in
  serve UserView_delete request (alone d) = (NotFound item_doesnt_exist, alone d) ∧
  serve (AdvertisementView_delete UUID_hex) request (alone d)
  = (NotFound item_doesnt_exist, alone d) ∧
  serve (AdvertisementView_patch UUID_hex) request (alone d)
  = (NotFound item_doesnt_exist, alone d).
Proof.
  intros d input_data request.
  destruct (missing_item_is_not_found UUID_hex request (alone d))
    as [Huser Hadv]; [discriminate | vm_compute; discriminate |].
  destruct (Hadv eq_refl) as [Hdelete Hpatch].
  split; [|split].
  - exact (Huser eq_refl).
  - exact Hdelete.
  - apply (Hpatch input_data [(py "title", py "Updated title!!")]); reflexivity.
Defined.

(** ** Tokens and advertisements whose users are gone *)

Lemma serve_AdvertisementView_delete_alone UUID request d adv text key token :
  advertisements d !! match_info request = Some adv →
  dict_get (py "token") (headers request) = Some text →
  UUID text = Some key →
  tokens d !! key = Some token →
  serve (AdvertisementView_delete UUID) request (alone d)
  = if decide (Advertisement.user_id adv = Token.user_id token)
    then (OK (adv_deleted (match_info request) (Advertisement.title adv)),
          alone {| users := users d;
                   advertisements := delete (match_info request) (advertisements d);
                   tokens := tokens d;
                   users_id_seq := users_id_seq d;
                   advertisements_id_seq := advertisements_id_seq d;
                   now := now d |})
    else (Unauthorized owner_only, alone d).
Proof.
  intros Hadv Htext Hkey Htoken.
  unfold serve, AdvertisementView_delete, mbind, M_bind.
  rewrite get_advertisement_by_id.
  change (this_round (alone d)) with quiet. unfold quiet.
  change (pass (alone d)) with (alone d). change (store (alone d)) with d. cbn [answers].
  rewrite Hadv, check_token_in_headers_cases, Htext, Hkey.
  change (this_round (alone d)) with quiet. unfold quiet.
  change (pass (alone d)) with (alone d). change (store (alone d)) with d. cbn [answers].
  rewrite Htoken. cbn [Advertisement.values Advertisement.id].
  destruct (decide (Advertisement.user_id adv = Token.user_id token)); [|done].
  by rewrite commit_alone.
Qed.

(** X19. A token outlives its user, and then opens the advertisements of
    every user who is gone. The deletion of a user sets to NULL the
    [user_id] of the tokens and of the advertisements of the user, and
    [check_token_in_headers] compares the two [user_id] as they are: the
    token of a user does not delete the advertisement of another user (401,
    'available only for owner'), and once both users have been deleted,
    the same request with the same token is served and deletes it. *)
Theorem tokens_outlive_their_users
    UUID d owner holder request adv text key token
    (delete_owner delete_holder : Request) :
  users d !! match_info delete_owner = Some owner →
  users d !! match_info delete_holder = Some holder →
  match_info delete_owner ≠ match_info delete_holder →
  advertisements d !! match_info request = Some adv →
  Advertisement.user_id adv = Some (match_info delete_owner) →
  dict_get (py "token") (headers request) = Some text →
  UUID text = Some key →
  tokens d !! key = Some token →
  Token.user_id token = Some (match_info delete_holder) →
  (serve (AdvertisementView_delete UUID) request (alone d)).1 = Unauthorized owner_only ∧
  let st1 := (serve UserView_delete delete_owner (alone d)).2 in
  let st2 := (serve UserView_delete delete_holder st1).2 in
  (serve (AdvertisementView_delete UUID) request st2).1
  = OK (adv_deleted (match_info request) (Advertisement.title adv)) ∧
  advertisements (store (serve (AdvertisementView_delete UUID) request st2).2)
    !! match_info request = None.
Proof.
  intros Howner Hholder Hne Hadv Hadv_owner Htext Hkey Htoken Htoken_holder. split.
  - rewrite (serve_AdvertisementView_delete_alone _ _ _ _ _ _ _ Hadv Htext Hkey Htoken).
    rewrite decide_False; [done|]. rewrite Hadv_owner, Htoken_holder. congruence.
  - intros st1 st2. unfold st2, st1.
    rewrite serve_UserView_delete_alone, Howner. cbn [snd].
    rewrite serve_UserView_delete_alone. cbn [users].
    rewrite lookup_delete_ne, Hholder by done. cbn [snd].
    set (adv' := disown_advertisement adv).
    set (token' := {| Token.created_at := Token.created_at token;
                      Token.user_id := None |}).
    erewrite (serve_AdvertisementView_delete_alone _ _ _ adv' text key token');
      [| | done | done |].
    + rewrite decide_True by done. cbn [fst snd store advertisements].
      split; [done|]. unfold alone. cbn [store advertisements]. by rewrite lookup_delete_eq.
    + cbn [advertisements]. rewrite !lookup_fmap, Hadv. cbn.
      destruct (decide (Advertisement.user_id adv = Some (match_info delete_owner)));
        [|done].
      by rewrite decide_False.
    + cbn [tokens]. rewrite !lookup_fmap, Htoken. cbn.
      unfold disown_token.
      destruct (decide (Token.user_id token = Some (match_info delete_owner)));
        [congruence|].
      by rewrite decide_True.
Qed.

Lemma tokens_outlive_their_users_witness :
  let d :=
    {| users := {[ 1 := {| User.email := py "a@x.com";
                           User.password := hashpw (py "abcde") (py "salt");
                           User.created_at := 0 |};
                   2 := {| User.email := py "b@x.com";
                           User.password := hashpw (py "fghij") (py "salt");
                           User.created_at := 0 |} ]};
       advertisements :=
         {[ 1 := {| Advertisement.title := py "Long enough title";
                    Advertisement.description := py "short";
                    Advertisement.created_at := 0;
                    Advertisement.user_id := Some 1 |} ]};
       tokens := {[ 42%N := {| Token.created_at := 0; Token.user_id := Some 1 |};
                    43%N := {| Token.created_at := 0; Token.user_id := Some 2 |} ]};
       users_id_seq := 2; advertisements_id_seq := 1; now := 0 |} in
  let request :=
    {| match_info := 1;
       headers := [(py "token", py "00000000-0000-0000-0000-00000000002b")];
       body := None |} in
  let delete_owner := {| match_info := 1; headers := []; body := None |} in
  let delete_holder := {| match_info := 2; headers := []; body := None |} in
  (serve (AdvertisementView_delete UUID_hex) request (alone d)).1
  = Unauthorized owner_only ∧
  (serve (AdvertisementView_delete UUID_hex) request
     (serve UserView_delete delete_holder
        (serve UserView_delete delete_owner (alone d)).2).2).1
  = OK (adv_deleted 1 (py "Long enough title")).
Proof.
  intros d request delete_owner delete_holder.
  destruct (tokens_outlive_their_users UUID_hex d
              {| User.email := py "a@x.com";
                 User.password := hashpw (py "abcde") (py "salt");
                 User.created_at := 0 |}
              {| User.email := py "b@x.com";
                 User.password := hashpw (py "fghij") (py "salt");
                 User.created_at := 0 |}
              request
              {| Advertisement.title := py "Long enough title";
                 Advertisement.description := py "short";
                 Advertisement.created_at := 0;
                 Advertisement.user_id := Some 1 |}
              (py "00000000-0000-0000-0000-00000000002b") 43%N
              {| Token.created_at := 0; Token.user_id := Some 2 |}
              delete_owner delete_holder)
    as [H401 [H200 _]];
    [reflexivity | reflexivity | discriminate | reflexivity | reflexivity
    | reflexivity | reflexivity | reflexivity | reflexivity |].
  split; [exact H401 | exact H200].
Defined.

(** ** The token of a registration *)


